(** * Payment-instruction service: a shallow embedding and its properties

    The development follows [src/endpoints/payment-instructions.js]
    (the service part of the file: [findKeywordIndex] ... [paymentInstructionService]).

    Modelling conventions.
    - A JavaScript string is a [string]; its characters are taken to be
      ASCII.  The white-space class of [trim] and of the pattern [\s] is
      then TAB, LF, VT, FF, CR and SPACE, and [toUpperCase] maps [a-z] to
      [A-Z] and leaves every other character alone.
    - A JavaScript number that holds an amount, a balance or an index is
      the integer it denotes, a [Z].  The numbers of the language are
      binary64 values: the results of [+], [-] and [parseInt] are rounded
      to the nearest such value, ties to even ([to_double]), which leaves
      every integer of magnitude up to 2^53 as it is.  Magnitudes from
      2^1024 on ([Infinity] in the language) and balances with a fraction
      are not represented.
    - [undefined] and [null] are kept apart ([JsOpt]), because the response
      builders pass both on unchanged.
    - A thrown exception is the [Throw] outcome of the [Exn] monad; the
      [try]/[catch] blocks of the code are [try_catch].
    - The clock and the time zone of the process are parameters of the
      functions that read them. *)

From Stdlib Require Import ZArith Lia Bool String Ascii List.
From stdpp Require Import base option list.
Import ListNotations.

Local Open Scope string_scope.
Local Open Scope Z_scope.

(** ** JavaScript strings *)

Module JsString.

(** [WhiteSpace] and [LineTerminator] code points below 128: the class
    stripped by [trim()] and matched by [\s]. *)
Definition is_space (c : ascii) : bool :=
  let n := N_of_ascii c in
  ((9 <=? n) && (n <=? 13))%N || (n =? 32)%N.

Definition upper_char (c : ascii) : ascii :=
  let n := N_of_ascii c in
  if ((97 <=? n) && (n <=? 122))%N then ascii_of_N (n - 32) else c.

(** [s.toUpperCase()] *)
Fixpoint toUpperCase (s : string) : string :=
  match s with
  | EmptyString => EmptyString
  | String c s' => String (upper_char c) (toUpperCase s')
  end.

Fixpoint trimStart (s : string) : string :=
  match s with
  | EmptyString => EmptyString
  | String c s' => if is_space c then trimStart s' else s
  end.

Fixpoint trimEnd (s : string) : string :=
  match s with
  | EmptyString => EmptyString
  | String c s' =>
      match trimEnd s' with
      | EmptyString => if is_space c then EmptyString else String c EmptyString
      | r => String c r
      end
  end.

(** [s.trim()] *)
Definition trim (s : string) : string := trimEnd (trimStart s).

(** [s.replace(/\s+/g, ' ')]: every maximal run of white space becomes one
    space.  [in_run] tells that the previous character belonged to a run
    whose replacement has been emitted already. *)
Fixpoint collapse_from (in_run : bool) (s : string) : string :=
  match s with
  | EmptyString => EmptyString
  | String c s' =>
      if is_space c
      then (if in_run then collapse_from true s'
            else String " " (collapse_from true s'))
      else String c (collapse_from false s')
  end.

Definition collapse_spaces (s : string) : string := collapse_from false s.

(** [s.split(sep)] for a one-character separator: the pieces between
    separators; the empty string splits into one empty piece. *)
Fixpoint split_char (sep : ascii) (s : string) : list string :=
  match s with
  | EmptyString => [EmptyString]
  | String c s' =>
      if Ascii.eqb c sep then EmptyString :: split_char sep s'
      else match split_char sep s' with
           | p :: ps => String c p :: ps
           | [] => [String c EmptyString]
           end
  end.

(** [s.split(' ')] *)
Definition split_space (s : string) : list string := split_char " " s.

(** [s[i] !== c] *)
Definition char_at_differs (s : string) (i : nat) (c : ascii) : bool :=
  match String.get i s with
  | Some d => negb (Ascii.eqb d c)
  | None => true
  end.

(** [s.includes(c)] for a one-character needle. *)
Fixpoint includes_char (c : ascii) (s : string) : bool :=
  match s with
  | EmptyString => false
  | String d s' => Ascii.eqb d c || includes_char c s'
  end.

(** Truthiness of a string: only the empty string is falsy. *)
Definition truthy (s : string) : bool :=
  match s with EmptyString => false | _ => true end.

End JsString.
Import JsString.

(** ** Normalizer ([parseInstruction], lines 545-546) *)

(** [instruction.trim().replace(/\s+/g, ' ').toUpperCase()] *)
Definition normalize (instruction : string) : string :=
  toUpperCase (collapse_spaces (trim instruction)).

(** [normalized.split(' ')] *)
Definition tokens (instruction : string) : list string :=
  split_space (normalize instruction).

(** [parts[i]]: [None] is [undefined], also for a negative index. *)
Definition js_index {A} (parts : list A) (i : Z) : option A :=
  if i <? 0 then None else nth_error parts (Z.to_nat i).

Definition js_length {A} (parts : list A) : Z := Z.of_nat (length parts).

(** ** JavaScript numbers, [undefined]/[null], exceptions *)

Inductive JsNumber := NaN | Num (z : Z).

Definition isNaN (n : JsNumber) : bool :=
  match n with NaN => true | Num _ => false end.

(** The binary64 value nearest to an integer, ties to even.  An integer of
    magnitude up to 2^53 is a binary64 value; a larger one, of [n] bits,
    keeps its 53 leading bits: it is rounded to a multiple of 2^(n - 53). *)
Definition to_double (z : Z) : Z :=
  let a := Z.abs z in
  if a <=? 2 ^ 53 then z
  else
    let k := Z.log2 a - 52 in
    let q := a / 2 ^ k in
    let r := a mod 2 ^ k in
    let half := 2 ^ (k - 1) in
    let q' := if (r <? half) || ((r =? half) && Z.even q) then q else q + 1 in
    Z.sgn z * (q' * 2 ^ k).

(** [Number.isSafeInteger]: an integer of magnitude at most 2^53 - 1. *)
Definition safe_integer (z : Z) : bool := Z.abs z <? 2 ^ 53.

(** [a < b], [a <= b], [a - b], [a + b] on numbers; a comparison with [NaN]
    is false and arithmetic with [NaN] is [NaN].  A difference and a sum
    are the exact ones, rounded. *)
Definition js_lt (a b : JsNumber) : bool :=
  match a, b with Num x, Num y => x <? y | _, _ => false end.
Definition js_le (a b : JsNumber) : bool :=
  match a, b with Num x, Num y => x <=? y | _, _ => false end.
Definition js_sub (a b : JsNumber) : JsNumber :=
  match a, b with Num x, Num y => Num (to_double (x - y)) | _, _ => NaN end.
Definition js_add (a b : JsNumber) : JsNumber :=
  match a, b with Num x, Num y => Num (to_double (x + y)) | _, _ => NaN end.

Inductive JsOpt (A : Type) := Undefined | Null | Val (a : A).
Arguments Undefined {A}.
Arguments Null {A}.
Arguments Val {A} a.

Inductive Exn (A : Type) := Ret (a : A) | Throw.
Arguments Ret {A} a.
Arguments Throw {A}.

Definition bind {A B} (m : Exn A) (k : A -> Exn B) : Exn B :=
  match m with Ret a => k a | Throw => Throw end.

Notation "'let!' x ':=' m 'in' k" := (bind m (fun x => k))
  (at level 10, x name, m at level 100, k at level 200).

(** [try { body } catch (error) { handler }] for a body whose value is returned. *)
Definition try_catch {A} (body : Exn A) (handler : A) : A :=
  match body with Ret a => a | Throw => handler end.

(** ** [Number.parseInt(s, 10)] *)

Definition digit_of (c : ascii) : option Z :=
  let n := N_of_ascii c in
  if ((48 <=? n) && (n <=? 57))%N then Some (Z.of_N n - 48) else None.

(** Value of the longest prefix of digits, read after [acc]; [seen] tells
    whether a digit has been read.  The result is the number value of the
    integer the digits denote. *)
Fixpoint parse_digits (s : string) (seen : bool) (acc : Z) : JsNumber :=
  match s with
  | EmptyString => if seen then Num (to_double acc) else NaN
  | String c s' =>
      match digit_of c with
      | Some d => parse_digits s' true (10 * acc + d)
      | None => if seen then Num (to_double acc) else NaN
      end
  end.

Definition js_neg (n : JsNumber) : JsNumber :=
  match n with NaN => NaN | Num z => Num (- z) end.

(** Leading white space is skipped, one sign is read, then the longest run
    of decimal digits; whatever follows is ignored. *)
Definition parseInt (s : string) : JsNumber :=
  match trimStart s with
  | String "-" r => js_neg (parse_digits r false 0)
  | String "+" r => parse_digits r false 0
  | r => parse_digits r false 0
  end.

(** ** Dates

    A time value is a number of milliseconds since the epoch, in UTC.  The
    day arithmetic is the proleptic Gregorian calendar of the language
    ([MakeDay], [YearFromTime], [MonthFromTime], [DateFromTime]). *)

Module JsDate.

Definition msPerDay : Z := 86400000.

(** Day number of the civil date [y]-[m]-[d], [m] counted from 1; the
    formula is linear in [d], as [MakeDay] is. *)
Definition days_from_civil (y m d : Z) : Z :=
  let y' := if m <=? 2 then y - 1 else y in
  let era := y' / 400 in
  let yoe := y' - era * 400 in
  let mp := if 2 <? m then m - 3 else m + 9 in
  let doy := (153 * mp + 2) / 5 + d - 1 in
  let doe := yoe * 365 + yoe / 4 - yoe / 100 + doy in
  era * 146097 + doe - 719468.

(** Civil date (year, month from 1, day of month) of a day number. *)
Definition civil_from_days (z : Z) : Z * Z * Z :=
  let z' := z + 719468 in
  let era := z' / 146097 in
  let doe := z' - era * 146097 in
  let yoe := (doe - doe / 1460 + doe / 36524 - doe / 146096) / 365 in
  let doy := doe - (365 * yoe + yoe / 4 - yoe / 100) in
  let mp := (5 * doy + 2) / 153 in
  let d := doy - (153 * mp + 2) / 5 + 1 in
  let m := if mp <? 10 then mp + 3 else mp - 9 in
  let y := yoe + era * 400 in
  (if m <=? 2 then y + 1 else y, m, d).

(** [MakeDay(year, month, date)], [month] counted from 0. *)
Definition MakeDay (year month date : Z) : Z :=
  days_from_civil (year + month / 12) (month mod 12 + 1) 1 + date - 1.

Definition Day (t : Z) : Z := t / msPerDay.

Definition YearFromTime (t : Z) : Z := fst (fst (civil_from_days (Day t))).
Definition MonthFromTime (t : Z) : Z := snd (fst (civil_from_days (Day t))) - 1.
Definition DateFromTime (t : Z) : Z := snd (civil_from_days (Day t)).

Section Local.
(** Offset of local time from UTC, in milliseconds ([LocalTZA]); positive
    east of Greenwich. *)
Variable LocalTZA : Z.

(** [new Date(year, month, day)]: the components are read in LOCAL time;
    a year from 0 to 99 stands for 1900 + year. *)
Definition new_Date_ymd (year month day : Z) : Z :=
  let yr := if (0 <=? year) && (year <=? 99) then 1900 + year else year in
  MakeDay yr month day * msPerDay - LocalTZA.

Definition getFullYear (t : Z) : Z := YearFromTime (t + LocalTZA).
Definition getMonth (t : Z) : Z := MonthFromTime (t + LocalTZA).
Definition getDate (t : Z) : Z := DateFromTime (t + LocalTZA).
End Local.

(** A time zone gives the offset of local time from UTC that is in force at
    a time value, read as a UTC time ([true]) or as a local time ([false]):
    [LocalTZA(t, isUTC)] of the language.  For a local time that a
    transition of the zone skips, the offset is the one before the
    transition. *)
Definition Zone : Type := Z -> bool -> Z.

(** A zone that keeps one offset. *)
Definition fixed_zone (tza : Z) : Zone := fun _ _ => tza.

Section Zoned.
Variable zone : Zone.

(** [new Date(year, month, day)] and the local getters in a zone. *)
Definition new_Date_ymd_in (year month day : Z) : Z :=
  let yr := if (0 <=? year) && (year <=? 99) then 1900 + year else year in
  let local := MakeDay yr month day * msPerDay in
  local - zone local false.

Definition LocalTime (t : Z) : Z := t + zone t true.

Definition getFullYear_in (t : Z) : Z := YearFromTime (LocalTime t).
Definition getMonth_in (t : Z) : Z := MonthFromTime (LocalTime t).
Definition getDate_in (t : Z) : Z := DateFromTime (LocalTime t).
End Zoned.

Definition getUTCFullYear (t : Z) : Z := YearFromTime t.
Definition getUTCMonth (t : Z) : Z := MonthFromTime t.
Definition getUTCDate (t : Z) : Z := DateFromTime t.

Definition is_digit (c : ascii) : bool :=
  match digit_of c with Some _ => true | None => false end.

Definition is_leap (y : Z) : bool :=
  (y mod 4 =? 0) && (negb (y mod 100 =? 0) || (y mod 400 =? 0)).

Definition DaysInMonth (y m : Z) : Z :=
  if m =? 2 then (if is_leap y then 29 else 28)
  else if (m =? 4) || (m =? 6) || (m =? 9) || (m =? 11) then 30 else 31.

(** The date of a string of the exact shape [YYYY-MM-DD] made of digits,
    with a month from 1 to 12 and a day that exists in that month. *)
Definition iso_date (s : string) : option (Z * Z * Z) :=
  match s with
  | String y1 (String y2 (String y3 (String y4 (String "-"
      (String m1 (String m2 (String "-" (String d1 (String d2 EmptyString))))))))) =>
      if forallb is_digit [y1; y2; y3; y4; m1; m2; d1; d2] then
        match parseInt (String y1 (String y2 (String y3 (String y4 EmptyString)))),
              parseInt (String m1 (String m2 EmptyString)),
              parseInt (String d1 (String d2 EmptyString)) with
        | Num y, Num m, Num d =>
            if (1 <=? m) && (m <=? 12) && (1 <=? d) && (d <=? DaysInMonth y m)
            then Some (y, m, d) else None
        | _, _, _ => None
        end
      else None
  | _ => None
  end.

End JsDate.
Import JsDate.

(** The host the service runs on: its clock, its time zone, and what its
    [Date] constructor makes of a string that is not a date-time of the
    interchange format with in-range elements (the language leaves that to
    the implementation).  The zone of a host keeps one offset from UTC,
    [host_LocalTZA]; [isValidDate_in] below takes any zone. *)
Record Host := {
  host_now : Z;
  host_LocalTZA : Z;
  host_Date_parse : string -> option Z
}.

(** [new Date(`${dateStr}T00:00:00.000Z`)]; [None] is an invalid date. *)
Definition new_Date_utc_midnight (h : Host) (dateStr : string) : option Z :=
  match iso_date dateStr with
  | Some (y, m, d) => Some (days_from_civil y m d * msPerDay)
  | None => host_Date_parse h (dateStr ++ "T00:00:00.000Z")
  end.

(** ** Tables and records of the service *)

Inductive StatusCode :=
  AM01 | CU01 | CU02 | AC01 | AC02 | AC03 | AC04 | DT01 | SY01 | SY02 | SY03 | AP00 | AP02.

Definition STATUS_CODES (c : StatusCode) : string :=
  match c with
  | AM01 => "Amount must be a positive integer"
  | CU01 => "Account currency mismatch"
  | CU02 => "Unsupported currency. Only NGN, USD, GBP, and GHS are supported"
  | AC01 => "Insufficient funds in debit account"
  | AC02 => "Debit and credit accounts cannot be the same"
  | AC03 => "Account not found"
  | AC04 => "Invalid account ID format"
  | DT01 => "Invalid date format"
  | SY01 => "Missing required keyword"
  | SY02 => "Invalid keyword order"
  | SY03 => "Malformed instruction: unable to parse keywords"
  | AP00 => "Transaction executed successfully"
  | AP02 => "Transaction scheduled for future execution"
  end.

Definition SUPPORTED_CURRENCIES : list string := ["NGN"; "USD"; "GBP"; "GHS"].

Inductive InstructionType := DEBIT | CREDIT.
Inductive Status := successful | pending | failed.

(** An account of the caller's snapshot. *)
Record Account := {
  acc_id : string;
  acc_balance : Z;
  acc_currency : string
}.

(** An account object as the service handles it: a snapshot account, or one
    of the objects [executeTransaction] builds from it ([balance_before]
    set, [balance] computed).  [None] is a property that is not there. *)
Record AccountObj := {
  obj_id : string;
  obj_balance : JsNumber;
  obj_currency : string;
  obj_balance_before : option JsNumber
}.

Definition of_account (a : Account) : AccountObj :=
  {| obj_id := acc_id a; obj_balance := Num (acc_balance a);
     obj_currency := acc_currency a; obj_balance_before := None |}.

(** An entry of the [accounts] list of a response. *)
Record AccountView := {
  view_id : string;
  view_balance : JsNumber;
  view_currency : string;
  view_balance_before : JsNumber
}.

(** The [data] of a successful [parseDebitInstruction]/[parseCreditInstruction]. *)
Record InstructionData := {
  d_amount : string;
  d_currency : string;
  d_debit_account : string;
  d_credit_account : string;
  d_execute_by : option string   (* [None] is [null] *)
}.

(** The [data] of a successful [parseInstruction]. *)
Record ParsedFields := {
  p_type : InstructionType;
  p_amount : string;
  p_currency : string;
  p_debit_account : string;
  p_credit_account : string;
  p_execute_by : option string   (* [None] is [null] *)
}.

(** A failed parse: the object the parser returns with [success: false].
    A property the object literal does not list reads as [Undefined]. *)
Record ParseFailure := {
  f_error_message : string;
  f_error_code : StatusCode;
  f_type : JsOpt InstructionType;
  f_amount : JsOpt string;
  f_currency : JsOpt string;
  f_debit_account : JsOpt string;
  f_credit_account : JsOpt string;
  f_execute_by : JsOpt string
}.

Inductive ParseResult (D : Type) :=
| ParseOk (data : D)
| ParseFail (f : ParseFailure).
Arguments ParseOk {D} data.
Arguments ParseFail {D} f.

(** [{ success: false, error_message, error_code }] *)
Definition failure_bare (c : StatusCode) : ParseFailure :=
  {| f_error_message := STATUS_CODES c; f_error_code := c;
     f_type := Undefined; f_amount := Undefined; f_currency := Undefined;
     f_debit_account := Undefined; f_credit_account := Undefined;
     f_execute_by := Undefined |}.

(** [{ success: false, error_message, error_code, type: null, amount: null, ... }] *)
Definition failure_nulls (c : StatusCode) : ParseFailure :=
  {| f_error_message := STATUS_CODES c; f_error_code := c;
     f_type := Null; f_amount := Null; f_currency := Null;
     f_debit_account := Null; f_credit_account := Null;
     f_execute_by := Null |}.

Inductive ValidationOutcome :=
| Valid
| Invalid (error_message : string) (error_code : StatusCode).

Record SettlementResult := {
  s_status : Status;
  s_status_reason : string;
  s_status_code : StatusCode;
  s_accounts : list AccountView
}.

Record TransactionResponse := {
  r_type : JsOpt InstructionType;
  r_amount : JsOpt JsNumber;
  r_currency : JsOpt string;
  r_debit_account : JsOpt string;
  r_credit_account : JsOpt string;
  r_execute_by : JsOpt string;
  r_status : Status;
  r_status_reason : string;
  r_status_code : StatusCode;
  r_accounts : list AccountView
}.

(** ** Keyword locator and account-identifier extractor *)

(** The loop of [findKeywordIndex]: [i] runs from [startFrom] while
    [i < parts.length]; [steps] bounds the number of iterations left. *)
Fixpoint findKeywordIndex_loop (parts : list string) (keyword : string)
    (i : Z) (steps : nat) : Z :=
  match steps with
  | O => -1
  | S k =>
      match js_index parts i with
      | Some p => if String.eqb p keyword then i
                  else findKeywordIndex_loop parts keyword (i + 1) k
      | None => findKeywordIndex_loop parts keyword (i + 1) k
      end
  end.

Definition findKeywordIndex (parts : list string) (keyword : string) (startFrom : Z) : Z :=
  findKeywordIndex_loop parts keyword startFrom (Z.to_nat (js_length parts - startFrom)).

(** [extractAccountId].  Both callers pass a position of at least 1, so the
    element read in the first branch exists; the default stands for the
    [undefined] a negative position would read. *)
Definition extractAccountId (originalInstruction : string) (accountPosition : Z)
    (parts : list string) : string :=
  let normalizedParts := split_space (collapse_spaces (trim originalInstruction)) in
  if accountPosition <? js_length normalizedParts then
    match js_index normalizedParts accountPosition with
    | Some s => s
    | None => ""
    end
  else
    match js_index parts accountPosition with
    | Some s => if truthy s then s else ""
    | None => ""
    end.

(** [/[a-zA-Z0-9.@-]/.test(char)] *)
Definition account_char (c : ascii) : bool :=
  let n := N_of_ascii c in
  (((97 <=? n) && (n <=? 122)) || ((65 <=? n) && (n <=? 90)) ||
   ((48 <=? n) && (n <=? 57)) || (n =? 46) || (n =? 64) || (n =? 45))%N.

Fixpoint all_chars (f : ascii -> bool) (s : string) : bool :=
  match s with
  | EmptyString => true
  | String c s' => f c && all_chars f s'
  end.

Definition isValidAccountId (accountId : string) : bool :=
  if negb (truthy accountId) then false else all_chars account_char accountId.

(** ** Date checks *)

(** [isValidDate] in a time zone. *)
Definition isValidDate_in (zone : Zone) (dateStr : string) : bool :=
  if negb (truthy dateStr) then false
  else if negb (Z.of_nat (String.length dateStr) =? 10)
          || char_at_differs dateStr 4 "-" || char_at_differs dateStr 7 "-"
  then false
  else
    let parts := split_char "-" dateStr in
    if negb (js_length parts =? 3) then false
    else
      match parts with
      | [p0; p1; p2] =>
          match parseInt p0, parseInt p1, parseInt p2 with
          | Num year, Num month, Num day =>
              if (year <? 1000) || (9999 <? year) then false
              else if (month <? 1) || (12 <? month) then false
              else if (day <? 1) || (31 <? day) then false
              else
                let date := new_Date_ymd_in zone year (month - 1) day in
                (getFullYear_in zone date =? year)
                && (getMonth_in zone date =? month - 1)
                && (getDate_in zone date =? day)
          | _, _, _ => false     (* one of them is NaN *)
          end
      | _ => false
      end.

(** [isValidDate] on a host. *)
Definition isValidDate (h : Host) (dateStr : string) : bool :=
  isValidDate_in (fixed_zone (host_LocalTZA h)) dateStr.

(** [isDateInPastOrToday]: the target is the UTC midnight of the date; the
    date it is compared with is built by [new Date(y, m, d)] from the UTC
    components of the clock. *)
Definition isDateInPastOrToday (h : Host) (dateStr : string) : bool :=
  let targetDate := new_Date_utc_midnight h dateStr in
  let today := host_now h in
  let todayUTC :=
    new_Date_ymd (host_LocalTZA h)
      (getUTCFullYear today) (getUTCMonth today) (getUTCDate today) in
  match targetDate with
  | Some t => t <=? todayUTC
  | None => false
  end.

(** ** Response builders *)

(** The value of [payload.accounts] and of the arrays made from it: what is
    not an array has none of the array methods, and calling one throws. *)
Inductive JsArrayArg (A : Type) :=
| NotArrayFalsy
| NotArrayTruthy
| IsArray (l : list A).
Arguments NotArrayFalsy {A}.
Arguments NotArrayTruthy {A}.
Arguments IsArray {A} l.

Definition array_method {A} (v : JsArrayArg A) : Exn (list A) :=
  match v with IsArray l => Ret l | _ => Throw end.

Definition array_map {A B} (f : A -> B) (v : JsArrayArg A) : JsArrayArg B :=
  match v with
  | NotArrayFalsy => NotArrayFalsy
  | NotArrayTruthy => NotArrayTruthy
  | IsArray l => IsArray (map f l)
  end.

Definition involved (debitAccountId creditAccountId : string) (acc : AccountObj) : bool :=
  String.eqb (obj_id acc) debitAccountId || String.eqb (obj_id acc) creditAccountId.

(** The object [createAccountsResponse] pushes for one involved account. *)
Definition accountResponse (includeBalanceBefore : bool) (acc : AccountObj) : AccountView :=
  {| view_id := obj_id acc;
     view_balance := obj_balance acc;
     view_currency := toUpperCase (obj_currency acc);
     view_balance_before :=
       if includeBalanceBefore then
         match obj_balance_before acc with
         | Some b => b
         | None => obj_balance acc
         end
       else obj_balance acc |}.

Fixpoint createAccountsResponse_loop (accounts : list AccountObj)
    (debitAccountId creditAccountId : string) (includeBalanceBefore : bool)
    (result : list AccountView) : list AccountView :=
  match accounts with
  | [] => result
  | acc :: rest =>
      createAccountsResponse_loop rest debitAccountId creditAccountId includeBalanceBefore
        (if involved debitAccountId creditAccountId acc
         then result ++ [accountResponse includeBalanceBefore acc]
         else result)
  end.

Definition createAccountsResponse (accounts : JsArrayArg AccountObj)
    (debitAccountId creditAccountId : string) (includeBalanceBefore : bool)
    : Exn (list AccountView) :=
  let! l := array_method accounts in
  Ret (createAccountsResponse_loop l debitAccountId creditAccountId includeBalanceBefore []).

Definition JsOpt_truthy (v : JsOpt string) : option string :=
  match v with
  | Val s => if truthy s then Some s else None
  | _ => None
  end.

Definition createErrorResponse (type : JsOpt InstructionType) (amount currency : JsOpt string)
    (debitAccount creditAccount executeBy : JsOpt string)
    (status : Status) (statusReason : string) (statusCode : StatusCode)
    (accounts : list AccountView) : TransactionResponse :=
  let parsedAmount :=
    match JsOpt_truthy amount with
    | Some a =>
        let temp := parseInt a in
        if isNaN temp then Null else Val temp
    | None => Null
    end in
  {| r_type := type;
     r_amount := parsedAmount;
     r_currency := match JsOpt_truthy currency with
                   | Some c => Val (toUpperCase c)
                   | None => Null
                   end;
     r_debit_account := debitAccount;
     r_credit_account := creditAccount;
     r_execute_by := executeBy;
     r_status := status;
     r_status_reason := statusReason;
     r_status_code := statusCode;
     r_accounts := accounts |}.

Definition JsOpt_of_null {A} (o : option A) : JsOpt A :=
  match o with Some a => Val a | None => Null end.

Definition createSuccessResponse (parsedData : ParsedFields) (status : Status)
    (statusReason : string) (statusCode : StatusCode) (accounts : list AccountView)
    : TransactionResponse :=
  let amount := parseInt (p_amount parsedData) in
  {| r_type := Val (p_type parsedData);
     r_amount := Val amount;
     r_currency := Val (toUpperCase (p_currency parsedData));
     r_debit_account := Val (p_debit_account parsedData);
     r_credit_account := Val (p_credit_account parsedData);
     r_execute_by := JsOpt_of_null (p_execute_by parsedData);
     r_status := status;
     r_status_reason := statusReason;
     r_status_code := statusCode;
     r_accounts := accounts |}.

(** ** Grammar parser *)

(** [parts[i]] where the caller has made sure the element exists
    ([parts.length >= 8] in [parseInstruction]); the default stands for
    [undefined], which every reader of the field treats as the empty string. *)
Definition part (parts : list string) (i : Z) : string :=
  match js_index parts i with Some s => s | None => "" end.

(** [let executeBy = null; if (onIndex !== -1 && onIndex + 1 < parts.length) ...] *)
Definition read_execute_by (parts : list string) (onIndex : Z) : option string :=
  if negb (onIndex =? -1) && (onIndex + 1 <? js_length parts)
  then js_index parts (onIndex + 1)
  else None.

(** The [try] block of the two recognizers performs no operation that can
    throw on an array of strings, so their [catch] branch (SY03) is not
    represented. *)
Definition parseDebitInstruction (parts : list string) (originalInstruction : string)
    : ParseResult InstructionData :=
  let fromIndex := findKeywordIndex parts "FROM" 0 in
  let accountIndex1 := findKeywordIndex parts "ACCOUNT" fromIndex in
  let forIndex := findKeywordIndex parts "FOR" 0 in
  let creditIndex := findKeywordIndex parts "CREDIT" forIndex in
  let toIndex := findKeywordIndex parts "TO" creditIndex in
  let accountIndex2 := findKeywordIndex parts "ACCOUNT" toIndex in
  let onIndex := findKeywordIndex parts "ON" accountIndex2 in
  if (fromIndex =? -1) || (accountIndex1 =? -1) || (forIndex =? -1)
     || (creditIndex =? -1) || (toIndex =? -1) || (accountIndex2 =? -1)
  then ParseFail (failure_bare SY01)
  else if negb ((fromIndex <? accountIndex1) && (accountIndex1 <? forIndex)
                && (forIndex <? creditIndex) && (creditIndex <? toIndex)
                && (toIndex <? accountIndex2))
  then ParseFail (failure_bare SY02)
  else
    let amount := part parts 1 in
    let currency := part parts 2 in
    let debitAccount := extractAccountId originalInstruction (accountIndex1 + 1) parts in
    let creditAccount := extractAccountId originalInstruction (accountIndex2 + 1) parts in
    let executeBy := read_execute_by parts onIndex in
    ParseOk {| d_amount := amount; d_currency := currency;
               d_debit_account := debitAccount; d_credit_account := creditAccount;
               d_execute_by := executeBy |}.

Definition parseCreditInstruction (parts : list string) (originalInstruction : string)
    : ParseResult InstructionData :=
  let toIndex := findKeywordIndex parts "TO" 0 in
  let accountIndex1 := findKeywordIndex parts "ACCOUNT" toIndex in
  let forIndex := findKeywordIndex parts "FOR" 0 in
  let debitIndex := findKeywordIndex parts "DEBIT" forIndex in
  let fromIndex := findKeywordIndex parts "FROM" debitIndex in
  let accountIndex2 := findKeywordIndex parts "ACCOUNT" fromIndex in
  let onIndex := findKeywordIndex parts "ON" accountIndex2 in
  if (toIndex =? -1) || (accountIndex1 =? -1) || (forIndex =? -1)
     || (debitIndex =? -1) || (fromIndex =? -1) || (accountIndex2 =? -1)
  then ParseFail (failure_bare SY01)
  else if negb ((toIndex <? accountIndex1) && (accountIndex1 <? forIndex)
                && (forIndex <? debitIndex) && (debitIndex <? fromIndex)
                && (fromIndex <? accountIndex2))
  then ParseFail (failure_bare SY02)
  else
    let amount := part parts 1 in
    let currency := part parts 2 in
    let creditAccount := extractAccountId originalInstruction (accountIndex1 + 1) parts in
    let debitAccount := extractAccountId originalInstruction (accountIndex2 + 1) parts in
    let executeBy := read_execute_by parts onIndex in
    ParseOk {| d_amount := amount; d_currency := currency;
               d_debit_account := debitAccount; d_credit_account := creditAccount;
               d_execute_by := executeBy |}.

(** A value the service may find in [payload.instruction]. *)
Inductive JsValue :=
| JsUndefined
| JsNull
| JsBoolean (b : bool)
| JsNumberValue (n : JsNumber)
| JsString (s : string)
| JsObject.   (* an object or an array: truthy, not a string *)

Definition js_truthy (v : JsValue) : bool :=
  match v with
  | JsUndefined | JsNull => false
  | JsBoolean b => b
  | JsNumberValue NaN => false
  | JsNumberValue (Num z) => negb (z =? 0)
  | JsString s => truthy s
  | JsObject => true
  end.

Definition with_type (type : InstructionType) (data : InstructionData) : ParsedFields :=
  {| p_type := type; p_amount := d_amount data; p_currency := d_currency data;
     p_debit_account := d_debit_account data; p_credit_account := d_credit_account data;
     p_execute_by := d_execute_by data |}.

(** [parseInstruction]; nothing in its [try] block throws either. *)
Definition parseInstruction (instruction : JsValue) : ParseResult ParsedFields :=
  match instruction with
  | JsString text =>
      if negb (truthy text) then ParseFail (failure_nulls SY03)
      else
        let normalized := toUpperCase (collapse_spaces (trim text)) in
        let parts := split_space normalized in
        if js_length parts <? 8 then ParseFail (failure_nulls SY03)
        else if String.eqb (part parts 0) "DEBIT" then
          match parseDebitInstruction parts text with
          | ParseFail debitResult => ParseFail debitResult
          | ParseOk data => ParseOk (with_type DEBIT data)
          end
        else if String.eqb (part parts 0) "CREDIT" then
          match parseCreditInstruction parts text with
          | ParseFail creditResult => ParseFail creditResult
          | ParseOk data => ParseOk (with_type CREDIT data)
          end
        else ParseFail (failure_nulls SY01)
  | _ => ParseFail (failure_nulls SY03)   (* falsy, or not a string *)
  end.

(** ** Business-rule validator *)

Definition find_account (accounts : list AccountObj) (accountId : string) : option AccountObj :=
  List.find (fun acc => String.eqb (obj_id acc) accountId) accounts.

Definition string_in (s : string) (l : list string) : bool :=
  existsb (String.eqb s) l.

Definition validateBusinessRules (h : Host) (parsedData : ParsedFields)
    (accounts : JsArrayArg AccountObj) : Exn ValidationOutcome :=
  let rawAmount := p_amount parsedData in
  let currency := p_currency parsedData in
  let debitAccount := p_debit_account parsedData in
  let creditAccount := p_credit_account parsedData in
  let executeBy := p_execute_by parsedData in
  let parsedAmount := parseInt rawAmount in
  if negb (truthy rawAmount) || isNaN parsedAmount || js_le parsedAmount (Num 0)
     || includes_char "." rawAmount
  then Ret (Invalid (STATUS_CODES AM01) AM01)
  else if negb (truthy currency) || negb (string_in (toUpperCase currency) SUPPORTED_CURRENCIES)
  then Ret (Invalid (STATUS_CODES CU02) CU02)
  else if negb (isValidAccountId debitAccount) || negb (isValidAccountId creditAccount)
  then Ret (Invalid (STATUS_CODES AC04) AC04)
  else if String.eqb debitAccount creditAccount
  then Ret (Invalid (STATUS_CODES AC02) AC02)
  else
    let! l := array_method accounts in
    match find_account l debitAccount, find_account l creditAccount with
    | Some debitAcc, Some creditAcc =>
        if negb (String.eqb (toUpperCase (obj_currency debitAcc))
                            (toUpperCase (obj_currency creditAcc)))
           || negb (String.eqb (toUpperCase (obj_currency debitAcc)) (toUpperCase currency))
        then Ret (Invalid (STATUS_CODES CU01) CU01)
        else if js_lt (obj_balance debitAcc) parsedAmount
        then Ret (Invalid (STATUS_CODES AC01) AC01)
        else if match executeBy with
                | Some e => truthy e && negb (isValidDate h e)
                | None => false
                end
        then Ret (Invalid (STATUS_CODES DT01) DT01)
        else Ret Valid
    | _, _ => Ret (Invalid (STATUS_CODES AC03) AC03)
    end.

(** ** Settlement executor *)

(** The callback of [accounts.map] in [executeTransaction]. *)
Definition update_account (debitAccount creditAccount : string) (parsedAmount : JsNumber)
    (acc : AccountObj) : AccountObj :=
  if String.eqb (obj_id acc) debitAccount then
    {| obj_id := obj_id acc;
       obj_balance_before := Some (obj_balance acc);
       obj_balance := js_sub (obj_balance acc) parsedAmount;
       obj_currency := toUpperCase (obj_currency acc) |}
  else if String.eqb (obj_id acc) creditAccount then
    {| obj_id := obj_id acc;
       obj_balance_before := Some (obj_balance acc);
       obj_balance := js_add (obj_balance acc) parsedAmount;
       obj_currency := toUpperCase (obj_currency acc) |}
  else
    {| obj_id := obj_id acc;
       obj_balance_before := Some (obj_balance acc);
       obj_balance := obj_balance acc;
       obj_currency := toUpperCase (obj_currency acc) |}.

(** [!executeBy || isDateInPastOrToday(executeBy)] *)
Definition shouldExecuteNow (h : Host) (executeBy : option string) : bool :=
  match executeBy with
  | Some e => negb (truthy e) || isDateInPastOrToday h e
  | None => true
  end.

Definition executeTransaction (h : Host) (parsedData : ParsedFields)
    (accounts : JsArrayArg AccountObj) : Exn SettlementResult :=
  let rawAmount := p_amount parsedData in
  let executeBy := p_execute_by parsedData in
  let debitAccount := p_debit_account parsedData in
  let creditAccount := p_credit_account parsedData in
  let parsedAmount := parseInt rawAmount in
  if shouldExecuteNow h executeBy then
    let! l := array_method accounts in
    let updatedAccounts := map (update_account debitAccount creditAccount parsedAmount) l in
    let! views := createAccountsResponse (IsArray updatedAccounts) debitAccount creditAccount true in
    Ret {| s_status := successful; s_status_reason := STATUS_CODES AP00;
           s_status_code := AP00; s_accounts := views |}
  else
    let! views := createAccountsResponse accounts debitAccount creditAccount false in
    Ret {| s_status := pending; s_status_reason := STATUS_CODES AP02;
           s_status_code := AP02; s_accounts := views |}.

(** ** The service *)

Inductive Payload :=
| PayloadFalsy                      (* [undefined], [null], ... *)
| PayloadObject (instruction : JsValue) (accounts : JsArrayArg Account).

Definition array_truthy {A} (v : JsArrayArg A) : bool :=
  match v with NotArrayFalsy => false | _ => true end.

Definition malformed_response : TransactionResponse :=
  createErrorResponse Null Null Null Null Null Null failed (STATUS_CODES SY03) SY03 [].

(** The [try] block of [paymentInstructionService]. *)
Definition service_body (h : Host) (payload : Payload) : Exn TransactionResponse :=
  match payload with
  | PayloadFalsy => Ret malformed_response
  | PayloadObject instruction payload_accounts =>
      if negb (array_truthy payload_accounts) || negb (js_truthy instruction)
      then Ret malformed_response
      else
        let accounts := array_map of_account payload_accounts in
        match parseInstruction instruction with
        | ParseFail parseResult =>
            Ret (createErrorResponse
                   (f_type parseResult) (f_amount parseResult) (f_currency parseResult)
                   (f_debit_account parseResult) (f_credit_account parseResult)
                   (f_execute_by parseResult)
                   failed (f_error_message parseResult) (f_error_code parseResult) [])
        | ParseOk data =>
            let! validationResult := validateBusinessRules h data accounts in
            match validationResult with
            | Invalid error_message error_code =>
                let! views :=
                  createAccountsResponse accounts
                    (p_debit_account data) (p_credit_account data) false in
                Ret (createErrorResponse
                       (Val (p_type data)) (Val (p_amount data)) (Val (p_currency data))
                       (Val (p_debit_account data)) (Val (p_credit_account data))
                       (JsOpt_of_null (p_execute_by data))
                       failed error_message error_code views)
            | Valid =>
                let! executionResult := executeTransaction h data accounts in
                Ret (createSuccessResponse data
                       (s_status executionResult) (s_status_reason executionResult)
                       (s_status_code executionResult) (s_accounts executionResult))
            end
        end
  end.

(** [paymentInstructionService]: what the returned promise settles with.
    The logger called in the [catch] block is a collaborator that returns. *)
Definition paymentInstructionService (h : Host) (payload : Payload) : Exn TransactionResponse :=
  Ret (try_catch (service_body h payload) malformed_response).

(** ** The endpoint ([handler] of [createHandler], lines 12-50) *)

Inductive HttpStatus := HTTP_200_OK | HTTP_400_BAD_REQUEST | HTTP_500_INTERNAL_SERVER_ERROR.

(** What the handler returns: [{ status, data }]. *)
Record HandlerResult := {
  http_status : HttpStatus;
  http_data : TransactionResponse
}.

(** The payload of the [catch] branch of the handler. *)
Definition internal_error_data : TransactionResponse :=
  {| r_type := Null; r_amount := Null; r_currency := Null;
     r_debit_account := Null; r_credit_account := Null; r_execute_by := Null;
     r_status := failed; r_status_reason := "Internal server error";
     r_status_code := SY03; r_accounts := [] |}.

(** [handler(rc, helpers)] with [rc.body] the payload; the logger of the
    [catch] branch is a collaborator that returns. *)
Definition handler (h : Host) (payload : Payload) : HandlerResult :=
  match paymentInstructionService h payload with
  | Ret response =>
      match r_status response with
      | successful | pending =>
          {| http_status := HTTP_200_OK; http_data := response |}
      | failed =>
          {| http_status := HTTP_400_BAD_REQUEST; http_data := response |}
      end
  | Throw =>
      {| http_status := HTTP_500_INTERNAL_SERVER_ERROR; http_data := internal_error_data |}
  end.

(** * Account objects in the store

    The accounts of a request are objects the caller owns: the list is an
    array object, each account a record object, and the service holds
    references to them.  This part models the functions that handle those
    references, [createAccountsResponse] and [executeTransaction], on an
    explicit store, so that "is never mutated" and "is a fresh copy" can be
    stated. *)

Module Heap.

Local Open Scope list_scope.

(** A location is an index into the store; a new object goes to the end. *)
Abbreviation loc := nat (only parsing).

Inductive Obj :=
| ObjRecord (o : AccountObj)     (* an account, or an entry of a response *)
| ObjArray (elems : list loc).

Abbreviation store := (list Obj) (only parsing).

Definition alloc (s : store) (o : Obj) : store * loc := (s ++ [o], length s).

(** [accountResponse.balance_before = v] *)
Definition set_balance_before (s : store) (r : loc) (v : JsNumber) : option store :=
  match s !! r with
  | Some (ObjRecord o) =>
      Some (<[r := ObjRecord {| obj_id := obj_id o; obj_balance := obj_balance o;
                                obj_currency := obj_currency o;
                                obj_balance_before := Some v |}]> s)
  | _ => None
  end.

(** [result.push(x)] *)
Definition push (s : store) (arr x : loc) : option store :=
  match s !! arr with
  | Some (ObjArray xs) => Some (<[arr := ObjArray (xs ++ [x])]> s)
  | _ => None
  end.

(** The [forEach] of [createAccountsResponse] over the elements of
    [accounts]; [None] is a reference that does not hold what the code
    expects. *)
Fixpoint forEach_account (s : store) (elems : list loc) (debitAccountId creditAccountId : string)
    (includeBalanceBefore : bool) (result : loc) : option store :=
  match elems with
  | [] => Some s
  | a :: rest =>
      match s !! a with
      | Some (ObjRecord acc) =>
          if involved debitAccountId creditAccountId acc then
            let '(s1, accountResponse) :=
              alloc s (ObjRecord {| obj_id := obj_id acc; obj_balance := obj_balance acc;
                                    obj_currency := toUpperCase (obj_currency acc);
                                    obj_balance_before := None |}) in
            let v := if includeBalanceBefore
                     then match obj_balance_before acc with
                          | Some b => b
                          | None => obj_balance acc
                          end
                     else obj_balance acc in
            match set_balance_before s1 accountResponse v with
            | Some s2 =>
                match push s2 result accountResponse with
                | Some s3 =>
                    forEach_account s3 rest debitAccountId creditAccountId
                      includeBalanceBefore result
                | None => None
                end
            | None => None
            end
          else forEach_account s rest debitAccountId creditAccountId
                 includeBalanceBefore result
      | _ => None
      end
  end.

(** [createAccountsResponse]: the new store and the reference to [result]. *)
Definition createAccountsResponse (s : store) (accounts : loc)
    (debitAccountId creditAccountId : string) (includeBalanceBefore : bool)
    : option (store * loc) :=
  let '(s0, result) := alloc s (ObjArray []) in
  match s0 !! accounts with
  | Some (ObjArray elems) =>
      match forEach_account s0 elems debitAccountId creditAccountId
              includeBalanceBefore result with
      | Some s' => Some (s', result)
      | None => None
      end
  | _ => None
  end.

(** [accounts.map(...)] of [executeTransaction]: one new object per
    element; the references to them, in order. *)
Fixpoint map_update (s : store) (elems : list loc) (debitAccount creditAccount : string)
    (parsedAmount : JsNumber) : option (store * list loc) :=
  match elems with
  | [] => Some (s, [])
  | a :: rest =>
      match s !! a with
      | Some (ObjRecord acc) =>
          let '(s1, l) :=
            alloc s (ObjRecord (update_account debitAccount creditAccount parsedAmount acc)) in
          match map_update s1 rest debitAccount creditAccount parsedAmount with
          | Some (s2, ls) => Some (s2, l :: ls)
          | None => None
          end
      | _ => None
      end
  end.

(** [executeTransaction]: the new store, the status and its code, and the
    reference to the [accounts] of the result. *)
Definition executeTransaction (h : Host) (s : store) (parsedData : ParsedFields)
    (accounts : loc) : option (store * (Status * StatusCode * loc)) :=
  let debitAccount := p_debit_account parsedData in
  let creditAccount := p_credit_account parsedData in
  let parsedAmount := parseInt (p_amount parsedData) in
  if shouldExecuteNow h (p_execute_by parsedData) then
    match s !! accounts with
    | Some (ObjArray elems) =>
        match map_update s elems debitAccount creditAccount parsedAmount with
        | Some (s1, ls) =>
            let '(s2, updatedAccounts) := alloc s1 (ObjArray ls) in
            match createAccountsResponse s2 updatedAccounts debitAccount creditAccount true with
            | Some (s3, views) => Some (s3, (successful, AP00, views))
            | None => None
            end
        | None => None
        end
    | _ => None
    end
  else
    match createAccountsResponse s accounts debitAccount creditAccount false with
    | Some (s1, views) => Some (s1, (pending, AP02, views))
    | None => None
    end.

(** The account objects an array refers to. *)
Definition record_at (s : store) (a : loc) : option AccountObj :=
  match s !! a with
  | Some (ObjRecord o) => Some o
  | _ => None
  end.

Definition snapshot (s : store) (accounts : loc) : option (list AccountObj) :=
  match s !! accounts with
  | Some (ObjArray elems) => mapM (record_at s) elems
  | _ => None
  end.

(** The part of [paymentInstructionService] that handles the accounts, for
    a request whose [accounts] is an array: the new store and the
    reference to the [accounts] of the response.  The validator only
    reads ([find]); a failed parse answers with the literal [[]]. *)
Definition service_accounts (h : Host) (s : store) (instruction : JsValue) (accounts : loc)
    : option (store * loc) :=
  match parseInstruction instruction with
  | ParseFail _ => Some (alloc s (ObjArray []))
  | ParseOk data =>
      match snapshot s accounts with
      | Some l =>
          match validateBusinessRules h data (IsArray l) with
          | Ret (Invalid _ _) =>
              createAccountsResponse s accounts
                (p_debit_account data) (p_credit_account data) false
          | Ret Valid =>
              match executeTransaction h s data accounts with
              | Some (s', (_, _, views)) => Some (s', views)
              | None => None
              end
          | Throw => Some (alloc s (ObjArray []))
          end
      | None => None
      end
  end.

(** An entry of a response, read back from the store. *)
Definition read_view (s : store) (x : loc) : option AccountView :=
  match s !! x with
  | Some (ObjRecord o) =>
      match obj_balance_before o with
      | Some b => Some {| view_id := obj_id o; view_balance := obj_balance o;
                          view_currency := obj_currency o; view_balance_before := b |}
      | None => None
      end
  | _ => None
  end.

Definition read_views (s : store) (arr : loc) : option (list AccountView) :=
  match s !! arr with
  | Some (ObjArray xs) => mapM (read_view s) xs
  | _ => None
  end.

(** Puts a snapshot into an empty store: the records, then their array. *)
Definition store_of (l : list Account) : store * loc :=
  let records := map (fun a => ObjRecord (of_account a)) l in
  alloc records (ObjArray (seq 0 (length l))).

Local Open Scope nat_scope.

(** [accounts] refers to an array of records holding [objs]. *)
Definition holds_accounts (s : store) (accounts : loc) (objs : list AccountObj) : Prop :=
  exists elems,
    s !! accounts = Some (ObjArray elems)
    /\ Forall2 (fun a o => s !! a = Some (ObjRecord o)) elems objs.

(** What a call that builds the [accounts] of a response leaves behind:
    the caller's store [s] is a prefix of the new store, so no object of
    the caller has changed; the list and its entries are objects that did
    not exist before; and the entries read back as [vs]. *)
Definition fresh_views (s s' : store) (views : loc) (vs : list AccountView) : Prop :=
  (exists ext, s' = s ++ ext)
  /\ length s <= views
  /\ (exists xs, s' !! views = Some (ObjArray xs) /\ Forall (fun x => length s <= x) xs)
  /\ read_views s' views = Some vs.

(** What the loop of [createAccountsResponse] maintains: the store is the
    caller's store [base] followed by new objects; [result], one of the
    new objects, is an array of references to new records, which read
    back as [vs]. *)
Definition loop_inv (base : store) (result : loc) (s : store)
    (xs : list loc) (vs : list AccountView) : Prop :=
  (exists ext, s = base ++ ext)
  /\ length base <= result
  /\ s !! result = Some (ObjArray xs)
  /\ Forall2 (fun x v => read_view s x = Some v) xs vs
  /\ Forall (fun x => length base <= x) xs.

End Heap.

(** * Definitions for the statements *)

(** ** Anchors of the grammar *)

(** The six mandatory anchors as the recognizers resolve them, in the
    declared sequence. *)
Definition debit_anchors (parts : list string) : list Z :=
  let fromIndex := findKeywordIndex parts "FROM" 0 in
  let accountIndex1 := findKeywordIndex parts "ACCOUNT" fromIndex in
  let forIndex := findKeywordIndex parts "FOR" 0 in
  let creditIndex := findKeywordIndex parts "CREDIT" forIndex in
  let toIndex := findKeywordIndex parts "TO" creditIndex in
  let accountIndex2 := findKeywordIndex parts "ACCOUNT" toIndex in
  [fromIndex; accountIndex1; forIndex; creditIndex; toIndex; accountIndex2].

Definition credit_anchors (parts : list string) : list Z :=
  let toIndex := findKeywordIndex parts "TO" 0 in
  let accountIndex1 := findKeywordIndex parts "ACCOUNT" toIndex in
  let forIndex := findKeywordIndex parts "FOR" 0 in
  let debitIndex := findKeywordIndex parts "DEBIT" forIndex in
  let fromIndex := findKeywordIndex parts "FROM" debitIndex in
  let accountIndex2 := findKeywordIndex parts "ACCOUNT" fromIndex in
  [toIndex; accountIndex1; forIndex; debitIndex; fromIndex; accountIndex2].

Definition anchors (type : InstructionType) (parts : list string) : list Z :=
  match type with
  | DEBIT => debit_anchors parts
  | CREDIT => credit_anchors parts
  end.

(** The keywords of the six anchors, in the declared sequence. *)
Definition anchor_keywords (type : InstructionType) : list string :=
  match type with
  | DEBIT => ["FROM"; "ACCOUNT"; "FOR"; "CREDIT"; "TO"; "ACCOUNT"]
  | CREDIT => ["TO"; "ACCOUNT"; "FOR"; "DEBIT"; "FROM"; "ACCOUNT"]
  end.

Definition all_resolved (indices : list Z) : bool :=
  forallb (fun i => negb (i =? -1)) indices.

Fixpoint strictly_increasing (indices : list Z) : bool :=
  match indices with
  | i :: (j :: _) as rest => (i <? j) && strictly_increasing rest
  | _ => true
  end.

Definition leading_keyword (parts : list string) : option InstructionType :=
  if String.eqb (part parts 0) "DEBIT" then Some DEBIT
  else if String.eqb (part parts 0) "CREDIT" then Some CREDIT
  else None.

Definition parse_code {D} (r : ParseResult D) : option StatusCode :=
  match r with
  | ParseOk _ => None
  | ParseFail f => Some (f_error_code f)
  end.

(** The index the recognizers find for ON: the search starts at the last
    mandatory anchor. *)
Definition on_anchor (type : InstructionType) (parts : list string) : Z :=
  findKeywordIndex parts "ON" (nth 5 (anchors type parts) (-1)).

(** ** Exchanging two anchors of a well-formed sentence *)

Definition KEYWORDS : list string := ["DEBIT"; "CREDIT"; "FROM"; "ACCOUNT"; "FOR"; "TO"; "ON"].

Definition is_keyword (s : string) : bool := string_in s KEYWORDS.

(** The tokens of the shortest sentence of each form. *)
Definition sentence (type : InstructionType) (amount currency acct1 acct2 : string)
    : list string :=
  match type with
  | DEBIT => ["DEBIT"; amount; currency; "FROM"; "ACCOUNT"; acct1;
              "FOR"; "CREDIT"; "TO"; "ACCOUNT"; acct2]
  | CREDIT => ["CREDIT"; amount; currency; "TO"; "ACCOUNT"; acct1;
               "FOR"; "DEBIT"; "FROM"; "ACCOUNT"; acct2]
  end.

(** Where the six anchors stand in [sentence]. *)
Definition anchor_positions : list nat := [3; 4; 6; 7; 8; 9]%nat.

Definition exchange (i j : nat) (l : list string) : list string :=
  match l !! i, l !! j with
  | Some a, Some b => <[i:=b]> (<[j:=a]> l)
  | _, _ => l
  end.

Definition recognize (type : InstructionType) (parts : list string) (text : string)
    : ParseResult InstructionData :=
  match type with
  | DEBIT => parseDebitInstruction parts text
  | CREDIT => parseCreditInstruction parts text
  end.

(** A token that is no keyword is invisible to the locator. *)
Definition blank (s : string) : string := if is_keyword s then s else "_".

(** ** The rules of the validator *)

(** The rules in the words of the specification, each on its own. *)
Module Rules.

(** AM01: the amount does not parse as an integer, is not strictly
    positive, or contains a decimal point. *)
Definition amount_fails (rawAmount : string) : bool :=
  match parseInt rawAmount with
  | NaN => true
  | Num n => (n <=? 0) || includes_char "." rawAmount
  end.

Definition AM01_fails (p : ParsedFields) : bool := amount_fails (p_amount p).

(** CU02: the currency, case-folded, is not one of the supported codes. *)
Definition CU02_fails (p : ParsedFields) : bool :=
  negb (string_in (toUpperCase (p_currency p)) SUPPORTED_CURRENCIES).

(** AC04: an identifier is empty or has a character outside the class. *)
Definition AC04_fails (p : ParsedFields) : bool :=
  negb (isValidAccountId (p_debit_account p) && isValidAccountId (p_credit_account p)).

(** AC02: the two identifiers are the same string. *)
Definition AC02_fails (p : ParsedFields) : bool :=
  String.eqb (p_debit_account p) (p_credit_account p).

(** AC03: one of the identifiers names no account of the snapshot. *)
Definition AC03_fails (p : ParsedFields) (accounts : list AccountObj) : bool :=
  match find_account accounts (p_debit_account p), find_account accounts (p_credit_account p) with
  | Some _, Some _ => false
  | _, _ => true
  end.

(** CU01: the currencies of the two accounts and of the instruction do not
    all agree, case-insensitively. *)
Definition CU01_fails (p : ParsedFields) (accounts : list AccountObj) : bool :=
  match find_account accounts (p_debit_account p), find_account accounts (p_credit_account p) with
  | Some d, Some c =>
      negb (String.eqb (toUpperCase (obj_currency d)) (toUpperCase (obj_currency c))
            && String.eqb (toUpperCase (obj_currency d)) (toUpperCase (p_currency p)))
  | _, _ => false
  end.

(** AC01: the balance of the debit account is below the amount. *)
Definition AC01_fails (p : ParsedFields) (accounts : list AccountObj) : bool :=
  match find_account accounts (p_debit_account p) with
  | Some d => js_lt (obj_balance d) (parseInt (p_amount p))
  | None => false
  end.

(** DT01: an execution date is given and is not a valid date. *)
Definition DT01_fails (h : Host) (p : ParsedFields) : bool :=
  match p_execute_by p with
  | Some e => truthy e && negb (isValidDate h e)
  | None => false
  end.

(** The cascade, in its fixed order. *)
Definition cascade (h : Host) (p : ParsedFields) (accounts : list AccountObj)
    : list (StatusCode * bool) :=
  [ (AM01, AM01_fails p); (CU02, CU02_fails p); (AC04, AC04_fails p);
    (AC02, AC02_fails p); (AC03, AC03_fails p accounts); (CU01, CU01_fails p accounts);
    (AC01, AC01_fails p accounts); (DT01, DT01_fails h p) ].

(** The code of the first rule that fails, if one does. *)
Fixpoint first_failing (rules : list (StatusCode * bool)) : option StatusCode :=
  match rules with
  | [] => None
  | (code, fails) :: rest => if fails then Some code else first_failing rest
  end.

Definition outcome (o : option StatusCode) : ValidationOutcome :=
  match o with
  | Some code => Invalid (STATUS_CODES code) code
  | None => Valid
  end.

End Rules.

(** The seven rules that come before the date rule. *)
Definition rules_before_date (p : ParsedFields) (accounts : list AccountObj)
    : list (StatusCode * bool) :=
  [ (AM01, Rules.AM01_fails p); (CU02, Rules.CU02_fails p); (AC04, Rules.AC04_fails p);
    (AC02, Rules.AC02_fails p); (AC03, Rules.AC03_fails p accounts);
    (CU01, Rules.CU01_fails p accounts); (AC01, Rules.AC01_fails p accounts) ].

(** ** Returned accounts *)

Definition involved_account (debit credit : string) (a : Account) : bool :=
  involved debit credit (of_account a).

(** The accounts of a response that settles nothing. *)
Definition untouched_views (l : list Account) (p : ParsedFields) : list AccountView :=
  createAccountsResponse_loop (map of_account l)
    (p_debit_account p) (p_credit_account p) false [].

(** The accounts of a response that settles at once. *)
Definition settled_views (l : list Account) (p : ParsedFields) : list AccountView :=
  createAccountsResponse_loop
    (map (update_account (p_debit_account p) (p_credit_account p) (parseInt (p_amount p)))
         (map of_account l))
    (p_debit_account p) (p_credit_account p) true [].


(** The same in the arithmetic of the code, where the difference and the
    sum are rounded to a number of the language. *)
Definition settled_rounded (debit credit : string) (amount : Z) (a : Account)
    (v : AccountView) : Prop :=
  view_id v = acc_id a
  /\ view_currency v = toUpperCase (acc_currency a)
  /\ view_balance_before v = Num (acc_balance a)
  /\ (acc_id a = debit -> view_balance v = Num (to_double (acc_balance a - amount)))
  /\ (acc_id a = credit -> view_balance v = Num (to_double (acc_balance a + amount))).


(** The balances of the returned accounts are safe integers. *)
Definition safe_balances (views : list AccountView) : bool :=
  forallb (fun v => match view_balance v with
                    | Num b => safe_integer b
                    | NaN => false
                    end) views.

(** The balances of the snapshot are safe integers. *)
Definition safe_snapshot (l : list Account) : bool :=
  forallb (fun a => safe_integer (acc_balance a)) l.

(** How a returned account relates to its snapshot account when nothing
    is settled. *)
Definition untouched (a : Account) (v : AccountView) : Prop :=
  view_id v = acc_id a
  /\ view_currency v = toUpperCase (acc_currency a)
  /\ view_balance_before v = Num (acc_balance a)
  /\ view_balance v = Num (acc_balance a).

Definition populated {A} (v : JsOpt A) : bool :=
  match v with Undefined => false | _ => true end.

(** Every instruction-derived field of the response is there, as a value or
    as an explicit null. *)
Definition fully_populated (r : TransactionResponse) : bool :=
  populated (r_type r) && populated (r_amount r) && populated (r_currency r)
  && populated (r_debit_account r) && populated (r_credit_account r)
  && populated (r_execute_by r).

(** ** Immediate or deferred *)

(** The decision rule in the words of the specification: settle at once if
    no execution date was given, or if the date, taken as a UTC midnight,
    is not after the current UTC calendar date. *)
Module Rule.

Definition utc_date_due (h : Host) (dateStr : string) : bool :=
  match new_Date_utc_midnight h dateStr with
  | Some t => Day t <=? Day (host_now h)
  | None => false
  end.

Definition settle_now (h : Host) (executeBy : option string) : bool :=
  match executeBy with
  | Some e => negb (truthy e) || utc_date_due h e
  | None => true
  end.

End Rule.

(** ** Days of a 400-year era *)

(** Year of a 400-year era, and day of that year counted from March 1st,
    of a day of the era. *)
Definition yoe_of_doe (doe : Z) : Z :=
  (doe - doe / 1460 + doe / 36524 - doe / 146096) / 365.

Definition doy_of_doe (doe : Z) : Z :=
  let yoe := yoe_of_doe doe in
  doe - (365 * yoe + yoe / 4 - yoe / 100).

Definition era_day_ok (doe : Z) : bool :=
  let yoe := yoe_of_doe doe in
  let doy := doe - (365 * yoe + yoe / 4 - yoe / 100) in
  (0 <=? doy) && (doy <=? 365) && (0 <=? yoe) && (yoe <=? 399).

(** [check] holds of the [count] integers from [z] on. *)
Fixpoint all_from (check : Z -> bool) (count : nat) (z : Z) : bool :=
  match count with
  | O => true
  | S k => check z && all_from check k (z + 1)
  end.

(** ** Worked inputs *)

(** A host whose clock shows 2025-01-01T12:00:00Z, [tza] milliseconds east
    of Greenwich, and whose [Date] rejects what is not in the interchange
    format. *)
Definition example_host (tza : Z) : Host :=
  {| host_now := 1735732800000; host_LocalTZA := tza; host_Date_parse := fun _ => None |}.

Definition example_accounts : list Account :=
  [ {| acc_id := "A1"; acc_balance := 1000; acc_currency := "NGN" |};
    {| acc_id := "B2"; acc_balance := 200; acc_currency := "NGN" |} ].

Definition example_fields (execute_by : option string) : ParsedFields :=
  {| p_type := DEBIT; p_amount := "500"; p_currency := "NGN";
     p_debit_account := "A1"; p_credit_account := "B2"; p_execute_by := execute_by |}.

Definition example_instruction : JsValue :=
  JsString "DEBIT 500 NGN FROM ACCOUNT A1 FOR CREDIT TO ACCOUNT B2".

Definition deferred_payload : Payload :=
  PayloadObject
    (JsString "DEBIT 500 NGN FROM ACCOUNT A1 FOR CREDIT TO ACCOUNT B2 ON 2025-01-02")
    (IsArray example_accounts).

(** ** Words and sentences *)

(** A token as the tokenizer leaves it: not empty, free of white space. *)
Definition is_word (w : string) : bool :=
  truthy w && all_chars (fun c => negb (is_space c)) w.

(** The words of a sentence, one space between two of them. *)
Fixpoint join_space (words : list string) : string :=
  match words with
  | [] => ""
  | [w] => w
  | w :: rest => w ++ String " " (join_space rest)
  end.

(** No leading, trailing or doubled white space; [prev_space] tells that
    a white-space character would follow another one (or open the string). *)
Fixpoint well_spaced (prev_space : bool) (s : string) : bool :=
  match s with
  | EmptyString => negb prev_space
  | String c s' =>
      if is_space c then negb prev_space && well_spaced true s'
      else well_spaced false s'
  end.

(** The only white-space character is the space. *)
Definition only_space (s : string) : bool :=
  all_chars (fun c => negb (is_space c) || Ascii.eqb c " ") s.

(** The account identifiers of a parse, upper-cased. *)
Definition upper_accounts (r : ParseResult ParsedFields) : ParseResult ParsedFields :=
  match r with
  | ParseOk p =>
      ParseOk {| p_type := p_type p; p_amount := p_amount p; p_currency := p_currency p;
                 p_debit_account := toUpperCase (p_debit_account p);
                 p_credit_account := toUpperCase (p_credit_account p);
                 p_execute_by := p_execute_by p |}
  | ParseFail f => ParseFail f
  end.

(** An account with its currency upper-cased. *)
Definition upper_currency (a : Account) : Account :=
  {| acc_id := acc_id a; acc_balance := acc_balance a;
     acc_currency := toUpperCase (acc_currency a) |}.

(** The test [isValidDate] makes with a [Date] object, on the numbers it
    has parsed. *)
Definition date_object_agrees (zone : Zone) (year month day : Z) : bool :=
  let date := new_Date_ymd_in zone year (month - 1) day in
  (getFullYear_in zone date =? year) && (getMonth_in zone date =? month - 1)
  && (getDate_in zone date =? day).

(** Every local midnight of the zone converts to UTC and back to itself:
    the offset in force at the UTC time it converts to is the offset it was
    converted with. *)
Definition midnights_round_trip (zone : Zone) : Prop :=
  forall days,
    let local := days * msPerDay in
    zone (local - zone local false) true = zone local false.

(** A zone that moves from 10 hours behind UTC to 14 hours ahead of it at
    2011-12-30T10:00:00Z, as Pacific/Apia did: the local day 2011-12-30 is
    skipped. *)
Definition date_line_zone : Zone :=
  fun t isUTC =>
    let change := days_from_civil 2011 12 30 * msPerDay + 10 * 3600000 in
    if isUTC
    then (if t <? change then -10 * 3600000 else 14 * 3600000)
    else (if t <? change + 14 * 3600000 then -10 * 3600000 else 14 * 3600000).

(** The optional date clause of a sentence. *)
Definition date_clause (date : option string) : list string :=
  match date with
  | Some d => ["ON"; d]
  | None => []
  end.

(** A character of the ASCII range, and a string made of such characters. *)
Definition is_ascii (c : ascii) : bool := (N_of_ascii c <? 128)%N.

Definition ascii_only (s : string) : bool := all_chars is_ascii s.

(** A word that is not a keyword, whatever its case. *)
Definition plain_word (w : string) : bool :=
  is_word w && negb (is_keyword (toUpperCase w)).

(** ** Calendar dates *)

(** What [isValidDate] requires of the three numbers it has parsed. *)
Definition calendar_date (year month day : JsNumber) : bool :=
  match year, month, day with
  | Num y, Num m, Num d =>
      (1000 <=? y) && (y <=? 9999) && (1 <=? m) && (m <=? 12)
      && (1 <=? d) && (d <=? DaysInMonth y m)
  | _, _, _ => false
  end.

(** ** Status, status code and HTTP status *)

(** The codes a response of each status may carry. *)
Definition codes_of (s : Status) : list StatusCode :=
  match s with
  | successful => [AP00]
  | pending => [AP02]
  | failed => [SY01; SY02; SY03; AM01; CU01; CU02; AC01; AC02; AC03; AC04; DT01]
  end.

(** The HTTP status that goes with a status code. *)
Definition http_of_code (c : StatusCode) : HttpStatus :=
  match c with
  | AP00 | AP02 => HTTP_200_OK
  | _ => HTTP_400_BAD_REQUEST
  end.

(** The answer to a failed parse. *)
Definition parse_failure_response (f : ParseFailure) : TransactionResponse :=
  createErrorResponse (f_type f) (f_amount f) (f_currency f)
    (f_debit_account f) (f_credit_account f) (f_execute_by f)
    failed (f_error_message f) (f_error_code f) [].

(** * Properties *)

(** The calendar and [parseInt] on a few inputs. *)
Example civil_ex :
  days_from_civil 1970 1 1 = 0 /\ civil_from_days 19723 = (2024, 1, 1) /\
  days_from_civil 2024 1 1 = 19723 /\ civil_from_days (-1) = (1969, 12, 31) /\
  parseInt "12ab" = Num 12 /\ parseInt "-7" = Num (-7) /\ parseInt "x" = NaN /\
  parseInt "" = NaN /\ parseInt "10.5" = Num 10.
Proof. repeat split; reflexivity. Qed.

(** ** Normalizer *)

Section Normalizer.

Lemma is_space_upper_char c : is_space (upper_char c) = is_space c.
Proof. destruct c as [[] [] [] [] [] [] [] []]; reflexivity. Qed.

Lemma upper_char_idem c : upper_char (upper_char c) = upper_char c.
Proof. destruct c as [[] [] [] [] [] [] [] []]; reflexivity. Qed.

Lemma upper_char_of_space c : is_space c = true -> upper_char c = c.
Proof. destruct c as [[] [] [] [] [] [] [] []]; simpl; intro H; try reflexivity; discriminate H. Qed.

Lemma toUpperCase_idem s : toUpperCase (toUpperCase s) = toUpperCase s.
Proof. induction s as [|c s IH]; simpl; [reflexivity|]. now rewrite upper_char_idem, IH. Qed.

Lemma toUpperCase_trimStart s : toUpperCase (trimStart s) = trimStart (toUpperCase s).
Proof.
  induction s as [|c s IH]; simpl; [reflexivity|].
  rewrite is_space_upper_char. destruct (is_space c); [exact IH | reflexivity].
Qed.

Lemma toUpperCase_trimEnd s : toUpperCase (trimEnd s) = trimEnd (toUpperCase s).
Proof.
  induction s as [|c s IH]; simpl; [reflexivity|].
  rewrite <- IH, is_space_upper_char.
  destruct (trimEnd s); simpl; [destruct (is_space c)|]; reflexivity.
Qed.

Lemma toUpperCase_collapse b s :
  toUpperCase (collapse_from b s) = collapse_from b (toUpperCase s).
Proof.
  revert b; induction s as [|c s IH]; intro b; simpl; [reflexivity|].
  rewrite is_space_upper_char.
  destruct (is_space c); [destruct b|]; simpl; now rewrite IH.
Qed.

(** Collapsing is idempotent, whatever the state it was started in. *)
Lemma collapse_from_idem s :
  collapse_from true (collapse_from true s) = collapse_from true s /\
  forall b, collapse_from false (collapse_from b s) = collapse_from b s.
Proof.
  induction s as [|c s [IHt IHf]]; simpl; [split; reflexivity|].
  destruct (is_space c) eqn:Hc.
  - split; [exact IHt|]. intros [|]; [apply IHf|].
    simpl. now rewrite IHt.
  - split; [|intros b]; simpl; rewrite Hc; now rewrite IHf.
Qed.

Lemma collapse_from_empty b s : collapse_from b s = "" -> trimEnd s = "".
Proof.
  revert b; induction s as [|c s IH]; intro b; simpl; [reflexivity|].
  destruct (is_space c) eqn:Hc; [destruct b|]; try discriminate.
  intro H. now rewrite (IH _ H).
Qed.

(** A string without trailing white space keeps that property. *)
Lemma trimEnd_collapse_fixed s :
  trimEnd s = s -> forall b, trimEnd (collapse_from b s) = collapse_from b s.
Proof.
  induction s as [|c s IH]; simpl; [reflexivity|].
  destruct (trimEnd s) as [|d r] eqn:Hr.
  - destruct (is_space c) eqn:Hc; [discriminate|].
    intros H b. injection H as <-. simpl. now rewrite Hc.
  - intros H b. injection H as Hs. specialize (IH Hs).
    destruct (is_space c) eqn:Hc; [destruct b|]; simpl.
    + apply IH.
    + rewrite (IH true).
      destruct (collapse_from true s) eqn:Hx; [|reflexivity].
      apply collapse_from_empty in Hx. congruence.
    + rewrite (IH false). rewrite Hc.
      now destruct (collapse_from false s).
Qed.

Lemma trimEnd_idem s : trimEnd (trimEnd s) = trimEnd s.
Proof.
  induction s as [|c s IH]; simpl; [reflexivity|].
  destruct (trimEnd s) as [|d r] eqn:Hr.
  - destruct (is_space c) eqn:Hc; simpl; [reflexivity | now rewrite Hc].
  - simpl in *. now rewrite IH.
Qed.

Lemma trimStart_trim s : trimStart (trim s) = trim s.
Proof.
  unfold trim. induction s as [|c s IH]; simpl; [reflexivity|].
  destruct (is_space c) eqn:Hc; [exact IH|].
  simpl. destruct (trimEnd s); rewrite ?Hc; simpl; now rewrite Hc.
Qed.

Lemma trimStart_collapse_fixed s :
  trimStart s = s -> trimStart (collapse_spaces s) = collapse_spaces s.
Proof.
  unfold collapse_spaces. destruct s as [|c s]; simpl; [reflexivity|].
  destruct (is_space c) eqn:Hc; simpl; [|now rewrite Hc].
  intro H. exfalso.
  assert (Hlen : forall u, (String.length (trimStart u) <= String.length u)%nat).
  { induction u as [|d u IHu]; simpl; [lia|]. destruct (is_space d); simpl; lia. }
  specialize (Hlen s). rewrite H in Hlen. simpl in Hlen. lia.
Qed.

(** The string the normalizer produces before case folding is a fixed
    point of trimming and of collapsing. *)
Lemma trim_collapse_fixed s :
  let t := collapse_spaces (trim s) in
  trim t = t /\ collapse_spaces t = t.
Proof.
  intro t; subst t. split.
  - unfold trim at 1.
    rewrite (trimStart_collapse_fixed _ (trimStart_trim s)).
    apply trimEnd_collapse_fixed. unfold trim. apply trimEnd_idem.
  - apply (proj2 (collapse_from_idem _)).
Qed.

End Normalizer.

(** C9. Normalization (trim, collapse every run of white space to one
    space, upper-case) is idempotent: normalizing a normalized string gives
    the same string, and so its token sequence is the same as well. *)
Theorem C9_normalize_idempotent (s : string) :
  normalize (normalize s) = normalize s /\
  tokens (normalize s) = tokens s.
Proof.
  assert (H : normalize (normalize s) = normalize s).
  { unfold normalize.
    destruct (trim_collapse_fixed s) as [Ht Hc].
    unfold trim in *.
    rewrite <- toUpperCase_trimStart, <- toUpperCase_trimEnd.
    unfold collapse_spaces in *.
    rewrite <- toUpperCase_collapse.
    rewrite Ht, Hc. apply toUpperCase_idem. }
  split; [exact H|]. unfold tokens. now rewrite H.
Qed.

(** ** Keyword locator *)

Section KeywordLocator.

Lemma findKeywordIndex_loop_cases parts keyword n : forall i,
  let r := findKeywordIndex_loop parts keyword i n in
  r = -1 \/ (i <= r < i + Z.of_nat n /\ js_index parts r = Some keyword).
Proof.
  induction n as [|k IH]; intro i; simpl; [now left|].
  destruct (js_index parts i) as [p|] eqn:Hp.
  - destruct (String.eqb p keyword) eqn:He.
    + right. apply String.eqb_eq in He. subst p. split; [lia | exact Hp].
    + destruct (IH (i + 1)) as [H | [H1 H2]]; [now left | right].
      split; [lia | exact H2].
  - destruct (IH (i + 1)) as [H | [H1 H2]]; [now left | right].
    split; [lia | exact H2].
Qed.

(** The locator returns the sentinel or an index, not before [startFrom],
    at which the keyword stands. *)
Lemma findKeywordIndex_cases parts keyword startFrom :
  let r := findKeywordIndex parts keyword startFrom in
  r = -1 \/ (startFrom <= r /\ 0 <= r < js_length parts /\ js_index parts r = Some keyword).
Proof.
  unfold findKeywordIndex.
  destruct (findKeywordIndex_loop_cases parts keyword
              (Z.to_nat (js_length parts - startFrom)) startFrom) as [H | [H1 H2]];
    [now left | right].
  split; [lia|]. split; [|exact H2].
  unfold js_index in H2. destruct (_ <? 0) eqn:Hneg; [discriminate|].
  apply Z.ltb_ge in Hneg.
  unfold js_length. split; [exact Hneg|].
  assert (Hlt : (Z.to_nat (findKeywordIndex_loop parts keyword startFrom
                             (Z.to_nat (Z.of_nat (length parts) - startFrom))) < length parts)%nat).
  { apply nth_error_Some. unfold js_length in H2. rewrite H2. discriminate. }
  unfold js_length in *. lia.
Qed.

(** A search that starts at an index holding another keyword, and finds
    its own, finds it strictly later. *)
Lemma findKeywordIndex_after parts k1 k2 i :
  k1 <> k2 -> js_index parts i = Some k1 ->
  findKeywordIndex parts k2 i <> -1 -> i < findKeywordIndex parts k2 i.
Proof.
  intros Hk Hi Hr.
  destruct (findKeywordIndex_cases parts k2 i) as [H | (H1 & _ & H3)]; [contradiction|].
  assert (findKeywordIndex parts k2 i <> i) by (intro E; rewrite E in H3; congruence).
  lia.
Qed.

End KeywordLocator.

(** ** Grammar parser: presence and order of the anchors *)

Section Anchors.

Lemma parseDebitInstruction_code parts text :
  parse_code (parseDebitInstruction parts text) =
    if negb (all_resolved (debit_anchors parts)) then Some SY01
    else if negb (strictly_increasing (debit_anchors parts)) then Some SY02
    else None.
Proof.
  unfold parseDebitInstruction, debit_anchors, all_resolved. cbn [forallb strictly_increasing].
  repeat match goal with |- context [findKeywordIndex ?p ?k ?s] =>
    let x := fresh "ix" in set (x := findKeywordIndex p k s) end.
  destruct (ix =? -1), (ix0 =? -1), (ix1 =? -1), (ix2 =? -1), (ix3 =? -1), (ix4 =? -1);
    cbn; try reflexivity.
  rewrite !andb_true_r.
  destruct ((ix <? ix0) && (ix0 <? ix1) && (ix1 <? ix2) && (ix2 <? ix3) && (ix3 <? ix4)) eqn:E;
    rewrite <- !andb_assoc in E; rewrite E; reflexivity.
Qed.

Lemma parseCreditInstruction_code parts text :
  parse_code (parseCreditInstruction parts text) =
    if negb (all_resolved (credit_anchors parts)) then Some SY01
    else if negb (strictly_increasing (credit_anchors parts)) then Some SY02
    else None.
Proof.
  unfold parseCreditInstruction, credit_anchors, all_resolved. cbn [forallb strictly_increasing].
  repeat match goal with |- context [findKeywordIndex ?p ?k ?s] =>
    let x := fresh "ix" in set (x := findKeywordIndex p k s) end.
  destruct (ix =? -1), (ix0 =? -1), (ix1 =? -1), (ix2 =? -1), (ix3 =? -1), (ix4 =? -1);
    cbn; try reflexivity.
  rewrite !andb_true_r.
  destruct ((ix <? ix0) && (ix0 <? ix1) && (ix1 <? ix2) && (ix2 <? ix3) && (ix3 <? ix4)) eqn:E;
    rewrite <- !andb_assoc in E; rewrite E; reflexivity.
Qed.

(** What [parseInstruction] answers for a sentence of at least 8 tokens
    that opens with DEBIT or CREDIT. *)
Lemma parseInstruction_code text type :
  8 <= js_length (tokens text) ->
  leading_keyword (tokens text) = Some type ->
  parse_code (parseInstruction (JsString text)) =
    if negb (all_resolved (anchors type (tokens text))) then Some SY01
    else if negb (strictly_increasing (anchors type (tokens text))) then Some SY02
    else None.
Proof.
  intros Hlen Hlead. unfold parseInstruction.
  destruct (truthy text) eqn:Ht.
  2:{ destruct text; [|discriminate]. vm_compute in Hlen. now contradict Hlen. }
  cbn [negb]. fold (normalize text). fold (tokens text).
  destruct (js_length (tokens text) <? 8) eqn:Hl; [apply Z.ltb_lt in Hl; lia|].
  unfold leading_keyword in Hlead.
  destruct (String.eqb (part (tokens text) 0) "DEBIT").
  - injection Hlead as <-. cbn [anchors].
    rewrite <- parseDebitInstruction_code with (text := text).
    now destruct (parseDebitInstruction (tokens text) text).
  - destruct (String.eqb (part (tokens text) 0) "CREDIT"); [|discriminate].
    injection Hlead as <-. cbn [anchors].
    rewrite <- parseCreditInstruction_code with (text := text).
    now destruct (parseCreditInstruction (tokens text) text).
Qed.

End Anchors.

Section AnchorOrder.

Local Ltac after_step H :=
  apply findKeywordIndex_after with (k1 := H); [discriminate | assumption | assumption].

Lemma resolved_holds parts keyword startFrom :
  findKeywordIndex parts keyword startFrom <> -1 ->
  js_index parts (findKeywordIndex parts keyword startFrom) = Some keyword.
Proof.
  intro H. destruct (findKeywordIndex_cases parts keyword startFrom) as [E | (_ & _ & E)];
    [contradiction | exact E].
Qed.

(** Once the six anchors are resolved, four of the five comparisons hold
    by the way the searches are chained; the order is decided by the
    second and the third anchor alone. *)
Lemma resolved_order type parts :
  all_resolved (anchors type parts) = true ->
  strictly_increasing (anchors type parts)
  = (nth 1 (anchors type parts) (-1) <? nth 2 (anchors type parts) (-1)).
Proof.
  destruct type; unfold anchors, debit_anchors, credit_anchors, all_resolved;
    cbn [forallb strictly_increasing nth];
    repeat match goal with |- context [findKeywordIndex ?p ?k ?s] =>
      let x := fresh "ix" in set (x := findKeywordIndex p k s) end;
    rewrite !andb_true_iff, !negb_true_iff, !Z.eqb_neq;
    intros (H0 & H1 & H2 & H3 & H4 & H5 & _).
  - assert (A0 := resolved_holds _ _ _ H0). assert (A2 := resolved_holds _ _ _ H2).
    assert (A3 := resolved_holds _ _ _ H3). assert (A4 := resolved_holds _ _ _ H4).
    fold ix in A0. fold ix1 in A2. fold ix2 in A3. fold ix3 in A4.
    assert (ix < ix0) by (after_step "FROM").
    assert (ix1 < ix2) by (after_step "FOR").
    assert (ix2 < ix3) by (after_step "CREDIT").
    assert (ix3 < ix4) by (after_step "TO").
    rewrite (proj2 (Z.ltb_lt ix ix0)), (proj2 (Z.ltb_lt ix1 ix2)), (proj2 (Z.ltb_lt ix2 ix3)),
      (proj2 (Z.ltb_lt ix3 ix4)) by assumption.
    cbn [andb]. apply andb_true_r.
  - assert (A0 := resolved_holds _ _ _ H0). assert (A2 := resolved_holds _ _ _ H2).
    assert (A3 := resolved_holds _ _ _ H3). assert (A4 := resolved_holds _ _ _ H4).
    fold ix in A0. fold ix1 in A2. fold ix2 in A3. fold ix3 in A4.
    assert (ix < ix0) by (after_step "TO").
    assert (ix1 < ix2) by (after_step "FOR").
    assert (ix2 < ix3) by (after_step "DEBIT").
    assert (ix3 < ix4) by (after_step "FROM").
    rewrite (proj2 (Z.ltb_lt ix ix0)), (proj2 (Z.ltb_lt ix1 ix2)), (proj2 (Z.ltb_lt ix2 ix3)),
      (proj2 (Z.ltb_lt ix3 ix4)) by assumption.
    cbn [andb]. apply andb_true_r.
Qed.

End AnchorOrder.

(** ** Exchanging two anchors of a well-formed sentence *)

Section Exchange.

Lemma eqb_blank p keyword :
  is_keyword keyword = true -> String.eqb (blank p) keyword = String.eqb p keyword.
Proof.
  unfold blank. destruct (is_keyword p) eqn:Hp; [reflexivity|].
  unfold is_keyword, string_in, KEYWORDS in *. cbn [existsb] in *.
  rewrite !orb_false_iff in Hp. destruct Hp as (P1 & P2 & P3 & P4 & P5 & P6 & P7 & _).
  rewrite !orb_true_iff, !String.eqb_eq.
  intros [-> | [-> | [-> | [-> | [-> | [-> | [-> | H]]]]]]]; try discriminate H;
    symmetry; assumption.
Qed.

Lemma js_index_map {A B} (f : A -> B) (l : list A) i :
  js_index (map f l) i = option_map f (js_index l i).
Proof. unfold js_index. destruct (i <? 0); [reflexivity | apply nth_error_map]. Qed.

Lemma findKeywordIndex_blank parts keyword startFrom :
  is_keyword keyword = true ->
  findKeywordIndex (map blank parts) keyword startFrom
  = findKeywordIndex parts keyword startFrom.
Proof.
  intro Hk. unfold findKeywordIndex, js_length. rewrite length_map.
  generalize (Z.to_nat (Z.of_nat (length parts) - startFrom)) as n.
  intro n; revert startFrom; induction n as [|k IH]; intro i; simpl; [reflexivity|].
  rewrite js_index_map. destruct (js_index parts i) as [p|]; simpl; [|apply IH].
  rewrite (eqb_blank p keyword Hk). destruct (String.eqb p keyword); [reflexivity | apply IH].
Qed.

Lemma anchors_blank type parts : anchors type (map blank parts) = anchors type parts.
Proof.
  destruct type; unfold anchors, debit_anchors, credit_anchors;
    now rewrite !findKeywordIndex_blank by reflexivity.
Qed.

Lemma recognize_code type parts text :
  parse_code (recognize type parts text) =
    if negb (all_resolved (anchors type parts)) then Some SY01
    else if negb (strictly_increasing (anchors type parts)) then Some SY02
    else None.
Proof.
  destruct type; [apply parseDebitInstruction_code | apply parseCreditInstruction_code].
Qed.

(** Exchanging two different anchors of a well-formed sentence never
    parses.  The result is SY02 when both anchors are among the first
    three, and SY01 otherwise: a search that starts at the index found
    for the previous anchor no longer meets its keyword. *)
Lemma exchange_code type amount currency acct1 acct2 i j text :
  is_keyword amount = false -> is_keyword currency = false ->
  is_keyword acct1 = false -> is_keyword acct2 = false ->
  In i anchor_positions -> In j anchor_positions -> (i < j)%nat ->
  (i, j) <> (4, 9)%nat ->
  parse_code (recognize type (exchange i j (sentence type amount currency acct1 acct2)) text)
  = Some (if (j <=? 6)%nat then SY02 else SY01).
Proof.
  intros Ha Hc H1 H2 Hi Hj Hlt Hne.
  rewrite recognize_code, <- anchors_blank.
  assert (Ba : blank amount = "_") by (unfold blank; now rewrite Ha).
  assert (Bc : blank currency = "_") by (unfold blank; now rewrite Hc).
  assert (B1 : blank acct1 = "_") by (unfold blank; now rewrite H1).
  assert (B2 : blank acct2 = "_") by (unfold blank; now rewrite H2).
  unfold anchor_positions in Hi, Hj. cbn [In] in Hi, Hj.
  destruct Hi as [<- | [<- | [<- | [<- | [<- | [<- | []]]]]]];
    destruct Hj as [<- | [<- | [<- | [<- | [<- | [<- | []]]]]]];
    try (exfalso; lia); try (exfalso; apply Hne; reflexivity);
    destruct type; cbn [exchange sentence lookup list_lookup insert list_insert map];
    rewrite ?Ba, ?Bc, ?B1, ?B2; reflexivity.
Qed.

End Exchange.

(** What the two recognizers answer.  For a sentence of at least 8 tokens
    that opens with DEBIT or CREDIT: if one of the six mandatory anchors
    does not resolve, the parser answers SY01; if all resolve but their
    indices are not strictly increasing in the declared sequence, it answers
    SY02.  Each search starts at the index found for the previous anchor
    (FOR is searched from the start), so SY02 is answered exactly when all
    six resolve and FOR stands before the first ACCOUNT: of the five order
    comparisons only that one can fail.  An exchange of two different
    anchors of a well-formed sentence is answered SY02 when both are among
    the first three anchors, and SY01 otherwise. *)
Lemma anchor_presence_and_order :
  (forall (text : string) (type : InstructionType),
     8 <= js_length (tokens text) ->
     leading_keyword (tokens text) = Some type ->
     let ix := anchors type (tokens text) in
     let code := parse_code (parseInstruction (JsString text)) in
     (all_resolved ix = false -> code = Some SY01) /\
     (all_resolved ix = true -> strictly_increasing ix = false -> code = Some SY02) /\
     (code = Some SY02 <-> all_resolved ix = true /\ nth 2 ix (-1) < nth 1 ix (-1)))
  /\
  (forall (type : InstructionType) (amount currency acct1 acct2 : string)
          (i j : nat) (text : string),
     is_keyword amount = false -> is_keyword currency = false ->
     is_keyword acct1 = false -> is_keyword acct2 = false ->
     In i anchor_positions -> In j anchor_positions -> (i < j)%nat ->
     (i, j) <> (4, 9)%nat ->
     parse_code (recognize type (exchange i j (sentence type amount currency acct1 acct2)) text)
     = Some (if (j <=? 6)%nat then SY02 else SY01)).
Proof.
  split; [|exact exchange_code].
  intros text type Hlen Hlead ix code.
  assert (Hcode := parseInstruction_code text type Hlen Hlead).
  fold ix in Hcode. fold code in Hcode.
  split; [|split].
  - intro H. now rewrite Hcode, H.
  - intros H1 H2. now rewrite Hcode, H1, H2.
  - rewrite Hcode. destruct (all_resolved ix) eqn:Hr; cbn [negb].
    2:{ split; [discriminate | intros [? _]; discriminate]. }
    subst ix. rewrite (resolved_order _ _ Hr).
    set (a1 := nth 1 _ _) in *. set (a2 := nth 2 _ _) in *.
    assert (Hne : a1 <> a2).
    { subst a1 a2. clear Hcode code.
      unfold all_resolved in Hr.
      destruct type; unfold anchors, debit_anchors, credit_anchors in *;
        cbn [forallb nth] in *;
        rewrite !andb_true_iff, !negb_true_iff, !Z.eqb_neq in Hr;
        destruct Hr as (_ & R1 & R2 & _);
        apply resolved_holds in R1; apply resolved_holds in R2;
        intro E; rewrite E in R1; rewrite R1 in R2; discriminate. }
    destruct (a1 <? a2) eqn:E; cbn [negb].
    + apply Z.ltb_lt in E. split; [discriminate | intros [_ ?]; lia].
    + apply Z.ltb_ge in E. split; [intros _; split; [reflexivity | lia] | reflexivity].
Qed.

Example anchor_presence_and_order_examples :
  parse_code (parseInstruction (JsString "DEBIT 1 NGN FOR FROM ACCOUNT a CREDIT TO ACCOUNT b"))
  = Some SY02
  /\ parse_code (parseInstruction (JsString "CREDIT 1 NGN TO ACCOUNT a FOR DEBIT ACCOUNT b x"))
     = Some SY01
  /\ parse_code (recognize DEBIT (exchange 7 8 (sentence DEBIT "1" "NGN" "A" "B")) "")
     = Some SY01.
Proof.
  split; [|split].
  - assert (H1 : 8 <= js_length (tokens "DEBIT 1 NGN FOR FROM ACCOUNT a CREDIT TO ACCOUNT b"))
      by (vm_compute; discriminate).
    assert (H2 : leading_keyword (tokens "DEBIT 1 NGN FOR FROM ACCOUNT a CREDIT TO ACCOUNT b")
                 = Some DEBIT) by (vm_compute; reflexivity).
    apply (proj1 (proj2 (proj1 anchor_presence_and_order _ DEBIT H1 H2)));
      vm_compute; reflexivity.
  - assert (H1 : 8 <= js_length (tokens "CREDIT 1 NGN TO ACCOUNT a FOR DEBIT ACCOUNT b x"))
      by (vm_compute; discriminate).
    assert (H2 : leading_keyword (tokens "CREDIT 1 NGN TO ACCOUNT a FOR DEBIT ACCOUNT b x")
                 = Some CREDIT) by (vm_compute; reflexivity).
    apply (proj1 (proj1 anchor_presence_and_order _ CREDIT H1 H2));
      vm_compute; reflexivity.
  - apply (proj2 anchor_presence_and_order DEBIT "1" "NGN" "A" "B" 7%nat 8%nat "");
      try (vm_compute; reflexivity); try (cbn; tauto); try lia; discriminate.
Qed.

(** C3 (the code departs from the specification).  All six mandatory
    keywords of the DEBIT form are present and FOR and CREDIT have changed
    places: the order comparison of the recognizer is never reached, because
    CREDIT, searched from the index of FOR on, is not found; the parser
    answers SY01 and the service says that a required keyword is missing,
    where the sentence violates the order and the claim says SY02. *)
Theorem C3_swapped_anchors_missing_keyword :
  let text := "DEBIT 500 NGN FROM ACCOUNT A1 CREDIT FOR TO ACCOUNT B2" in
  tokens text
  = exchange 6 7 (tokens "DEBIT 500 NGN FROM ACCOUNT A1 FOR CREDIT TO ACCOUNT B2")
  /\ Forall (fun k => In k (tokens text)) (anchor_keywords DEBIT)
  /\ findKeywordIndex (tokens text) "FOR" 0 = 7
  /\ findKeywordIndex (tokens text) "CREDIT" 7 = -1
  /\ parse_code (parseInstruction (JsString text)) = Some SY01
  /\ parse_code (parseInstruction (JsString text)) <> Some SY02
  /\ exists r,
       paymentInstructionService (example_host 0)
         (PayloadObject (JsString text) (IsArray example_accounts)) = Ret r
       /\ r_status r = failed /\ r_status_code r = SY01
       /\ r_status_reason r = "Missing required keyword".
Proof.
  cbv zeta. split; [vm_compute; reflexivity|].
  split.
  { vm_compute.
    repeat (apply Forall_cons_2; [repeat (first [left; reflexivity | right])|]).
    apply Forall_nil_2. }
  split; [vm_compute; reflexivity|]. split; [vm_compute; reflexivity|].
  split; [vm_compute; reflexivity|]. split; [vm_compute; discriminate|].
  eexists. split; [vm_compute; reflexivity|]. repeat split.
Qed.

(** ** Business-rule validator *)

Section Validator.

Lemma parseInt_empty : parseInt "" = NaN.
Proof. reflexivity. Qed.

(** The first test of [validateBusinessRules] is the amount rule. *)
Lemma amount_test_fails rawAmount :
  negb (truthy rawAmount) || isNaN (parseInt rawAmount)
    || js_le (parseInt rawAmount) (Num 0) || includes_char "." rawAmount
  = Rules.amount_fails rawAmount.
Proof.
  unfold Rules.amount_fails. destruct rawAmount as [|c s]; [reflexivity|].
  cbn [truthy negb orb]. destruct (parseInt (String c s)); reflexivity.
Qed.

Lemma currency_test_fails currency :
  negb (truthy currency) || negb (string_in (toUpperCase currency) SUPPORTED_CURRENCIES)
  = negb (string_in (toUpperCase currency) SUPPORTED_CURRENCIES).
Proof. destruct currency; reflexivity. Qed.

(** [validateBusinessRules] on an array of accounts is the cascade. *)
Lemma validateBusinessRules_cascade h p l :
  validateBusinessRules h p (IsArray l)
  = Ret (Rules.outcome (Rules.first_failing (Rules.cascade h p l))).
Proof.
  unfold validateBusinessRules, Rules.cascade. cbn [Rules.first_failing].
  rewrite amount_test_fails, currency_test_fails.
  unfold Rules.AM01_fails, Rules.CU02_fails, Rules.AC04_fails, Rules.AC02_fails,
    Rules.AC03_fails, Rules.CU01_fails, Rules.AC01_fails, Rules.DT01_fails.
  destruct (Rules.amount_fails (p_amount p)); [reflexivity|].
  destruct (negb (string_in _ _)); [reflexivity|].
  rewrite negb_andb.
  destruct (negb (isValidAccountId (p_debit_account p)) || _); [reflexivity|].
  destruct (String.eqb (p_debit_account p) (p_credit_account p)); [reflexivity|].
  cbn [array_method bind].
  destruct (find_account l (p_debit_account p)) as [d|]; [|reflexivity].
  destruct (find_account l (p_credit_account p)) as [c|]; [|reflexivity].
  rewrite negb_andb.
  destruct (negb (String.eqb _ _) || _); [reflexivity|].
  destruct (js_lt _ _); [reflexivity|].
  destruct (p_execute_by p) as [e|]; [|reflexivity].
  destruct (truthy e && negb (isValidDate h e)); reflexivity.
Qed.

(** The four rules that do not look at the accounts are decided before
    the accounts are touched, whatever [payload.accounts] holds. *)
Lemma validateBusinessRules_early h p (accounts : JsArrayArg AccountObj) code :
  Rules.first_failing
    [ (AM01, Rules.AM01_fails p); (CU02, Rules.CU02_fails p);
      (AC04, Rules.AC04_fails p); (AC02, Rules.AC02_fails p) ] = Some code ->
  validateBusinessRules h p accounts = Ret (Invalid (STATUS_CODES code) code).
Proof.
  unfold validateBusinessRules. cbn [Rules.first_failing].
  rewrite amount_test_fails, currency_test_fails.
  unfold Rules.AM01_fails, Rules.CU02_fails, Rules.AC04_fails, Rules.AC02_fails.
  destruct (Rules.amount_fails (p_amount p)); [now intros [= <-]|].
  destruct (negb (string_in _ _)); [now intros [= <-]|].
  rewrite negb_andb.
  destruct (negb (isValidAccountId (p_debit_account p)) || _); [now intros [= <-]|].
  destruct (String.eqb (p_debit_account p) (p_credit_account p)); [now intros [= <-]|].
  discriminate.
Qed.

End Validator.

(** ** The paths of the service *)

Section ServicePaths.

Lemma parseInstruction_ok_string instruction data :
  parseInstruction instruction = ParseOk data ->
  exists text, instruction = JsString text /\ truthy text = true.
Proof.
  destruct instruction as [| | b | n | text |]; try discriminate.
  intro H. exists text. split; [reflexivity|].
  unfold parseInstruction in H. destruct (truthy text); [reflexivity | discriminate].
Qed.

Lemma service_parse_failure h instruction accounts f :
  array_truthy accounts = true -> js_truthy instruction = true ->
  parseInstruction instruction = ParseFail f ->
  paymentInstructionService h (PayloadObject instruction accounts)
  = Ret (createErrorResponse (f_type f) (f_amount f) (f_currency f)
           (f_debit_account f) (f_credit_account f) (f_execute_by f)
           failed (f_error_message f) (f_error_code f) []).
Proof.
  intros Ha Hi Hp. unfold paymentInstructionService, service_body.
  now rewrite Ha, Hi, Hp.
Qed.

Lemma service_invalid h instruction l p msg code :
  parseInstruction instruction = ParseOk p ->
  validateBusinessRules h p (IsArray (map of_account l)) = Ret (Invalid msg code) ->
  paymentInstructionService h (PayloadObject instruction (IsArray l))
  = Ret (createErrorResponse
           (Val (p_type p)) (Val (p_amount p)) (Val (p_currency p))
           (Val (p_debit_account p)) (Val (p_credit_account p))
           (JsOpt_of_null (p_execute_by p))
           failed msg code (untouched_views l p)).
Proof.
  intros Hp Hv. destruct (parseInstruction_ok_string _ _ Hp) as (text & -> & Ht).
  unfold paymentInstructionService, service_body.
  cbn [array_truthy negb js_truthy orb array_map]. rewrite Ht, Hp. cbn [negb].
  rewrite Hv. reflexivity.
Qed.

Lemma service_valid h instruction l p :
  parseInstruction instruction = ParseOk p ->
  validateBusinessRules h p (IsArray (map of_account l)) = Ret Valid ->
  paymentInstructionService h (PayloadObject instruction (IsArray l))
  = Ret (if shouldExecuteNow h (p_execute_by p)
         then createSuccessResponse p successful (STATUS_CODES AP00) AP00 (settled_views l p)
         else createSuccessResponse p pending (STATUS_CODES AP02) AP02 (untouched_views l p)).
Proof.
  intros Hp Hv. destruct (parseInstruction_ok_string _ _ Hp) as (text & -> & Ht).
  unfold paymentInstructionService, service_body.
  cbn [array_truthy negb js_truthy orb array_map]. rewrite Ht, Hp. cbn [negb].
  rewrite Hv. cbn [bind]. unfold executeTransaction.
  destruct (shouldExecuteNow h (p_execute_by p)); reflexivity.
Qed.

(** [forEach] with [push] keeps the involved accounts, in their order. *)
Lemma createAccountsResponse_loop_filter l debit credit flag result :
  createAccountsResponse_loop l debit credit flag result
  = (result ++ map (accountResponse flag) (List.filter (involved debit credit) l))%list.
Proof.
  revert result; induction l as [|a l IH]; intro result; simpl.
  - now rewrite app_nil_r.
  - rewrite IH. destruct (involved debit credit a); simpl; [|reflexivity].
    now rewrite <- app_assoc.
Qed.

End ServicePaths.

Section Cascade.

Lemma first_failing_Some rules code :
  Rules.first_failing rules = Some code <->
  exists before after,
    rules = (before ++ (code, true) :: after)%list /\
    Forall (fun r => snd r = false) before.
Proof.
  induction rules as [|[c b] rules IH]; simpl.
  - split; [discriminate|]. intros (before & after & H & _). now destruct before.
  - destruct b.
    + split.
      * intros [= <-]. exists [], rules. split; [reflexivity | constructor].
      * intros (before & after & H & Hb). destruct before as [|[c' b'] before].
        -- injection H as E _. now rewrite E.
        -- injection H as E1 E2 E3. subst b'.
           apply Forall_cons_1 in Hb as [Hb _]. discriminate Hb.
    + rewrite IH. split.
      * intros (before & after & -> & Hb). exists ((c, false) :: before), after.
        split; [reflexivity | now constructor].
      * intros (before & after & H & Hb). destruct before as [|[c' b'] before].
        -- discriminate H.
        -- injection H as E1 E2 E3. subst rules.
           apply Forall_cons_1 in Hb as [_ Hb]. eauto.
Qed.

Lemma first_failing_None rules :
  Rules.first_failing rules = None <-> Forall (fun r => snd r = false) rules.
Proof.
  induction rules as [|[c b] rules IH]; simpl.
  - split; [constructor | reflexivity].
  - destruct b.
    + split; [discriminate|]. intros H. apply Forall_cons_1 in H as [H _]. discriminate H.
    + rewrite IH. split; [now constructor|]. intros H. now apply Forall_cons_1 in H as [_ H].
Qed.

End Cascade.

(** C4.  The validator evaluates the eight rules in the order AM01, CU02,
    AC04, AC02, AC03, CU01, AC01, DT01, and answers with the code of the
    first rule that fails: a code is surfaced exactly when its rule fails
    and every rule before it passes, and the instruction is valid exactly
    when all eight pass.  In particular a self-transfer that passes the
    three rules before AC02 is answered with AC02 whatever the snapshot
    holds. *)
Theorem C4_validation_cascade (h : Host) (p : ParsedFields) (l : list AccountObj) :
  map fst (Rules.cascade h p l) = [AM01; CU02; AC04; AC02; AC03; CU01; AC01; DT01]
  /\ (forall code,
        validateBusinessRules h p (IsArray l) = Ret (Invalid (STATUS_CODES code) code) <->
        exists before after,
          Rules.cascade h p l = (before ++ (code, true) :: after)%list /\
          Forall (fun r => snd r = false) before)
  /\ (validateBusinessRules h p (IsArray l) = Ret Valid <->
      Forall (fun r => snd r = false) (Rules.cascade h p l))
  /\ (forall accounts : JsArrayArg AccountObj,
        Rules.AM01_fails p = false -> Rules.CU02_fails p = false ->
        Rules.AC04_fails p = false ->
        p_debit_account p = p_credit_account p ->
        validateBusinessRules h p accounts = Ret (Invalid (STATUS_CODES AC02) AC02)).
Proof.
  split; [reflexivity|]. split; [|split].
  - intro code. rewrite <- first_failing_Some, validateBusinessRules_cascade.
    destruct (Rules.first_failing _) as [c|]; simpl.
    + split; [intros [= _ ->]; reflexivity | intros [= ->]; reflexivity].
    + split; discriminate.
  - rewrite <- first_failing_None, validateBusinessRules_cascade.
    destruct (Rules.first_failing _) as [c|]; simpl; split; try discriminate; reflexivity.
  - intros accounts H1 H2 H3 H4. apply validateBusinessRules_early.
    cbn [Rules.first_failing]. rewrite H1, H2, H3.
    unfold Rules.AC02_fails. rewrite H4, String.eqb_refl. reflexivity.
Qed.

(** C6.  Rule AM01 fails exactly when the amount does not parse as an
    integer, is not strictly positive, or contains a decimal point; an
    amount with a decimal point is answered with AM01 whatever the rest of
    the instruction and the accounts are; and an amount the rule accepts
    parses to a strictly positive integer. *)
Theorem C6_amount_rule (h : Host) (p : ParsedFields) (accounts : JsArrayArg AccountObj) :
  let rawAmount := p_amount p in
  let AM01_answer := validateBusinessRules h p accounts = Ret (Invalid (STATUS_CODES AM01) AM01) in
  (AM01_answer <->
     parseInt rawAmount = NaN
     \/ (exists n, parseInt rawAmount = Num n /\ n <= 0)
     \/ includes_char "." rawAmount = true)
  /\ (includes_char "." rawAmount = true -> AM01_answer)
  /\ (~ AM01_answer ->
      exists n, parseInt rawAmount = Num n /\ 0 < n /\ includes_char "." rawAmount = false).
Proof.
  intros rawAmount AM01_answer.
  assert (Hiff : AM01_answer <-> Rules.amount_fails rawAmount = true).
  { subst AM01_answer rawAmount. split.
    - unfold validateBusinessRules. rewrite amount_test_fails.
      destruct (Rules.amount_fails (p_amount p)); [reflexivity|].
      destruct (negb (truthy _) || _); [discriminate|].
      destruct (negb (isValidAccountId (p_debit_account p)) || _); [discriminate|].
      destruct (String.eqb _ _); [discriminate|].
      destruct accounts as [| | l]; try discriminate. cbn [array_method bind].
      destruct (find_account l (p_debit_account p)); [|discriminate].
      destruct (find_account l (p_credit_account p)); [|discriminate].
      destruct (negb (String.eqb _ _) || _); [discriminate|].
      destruct (js_lt _ _); [discriminate|].
      destruct (match p_execute_by p with Some _ => _ | None => _ end); discriminate.
    - intro H. apply validateBusinessRules_early. cbn [Rules.first_failing].
      unfold Rules.AM01_fails. now rewrite H. }
  assert (Hrule : Rules.amount_fails rawAmount = true <->
                  parseInt rawAmount = NaN
                  \/ (exists n, parseInt rawAmount = Num n /\ n <= 0)
                  \/ includes_char "." rawAmount = true).
  { unfold Rules.amount_fails. destruct (parseInt rawAmount) as [|n].
    - split; [now left | reflexivity].
    - rewrite orb_true_iff, Z.leb_le. split.
      + intros [H | H]; [right; left; eauto | right; right; exact H].
      + intros [H | [(m & [= <-] & H) | H]]; [discriminate | now left | now right]. }
  split; [now rewrite Hiff|]. split.
  - intro H. apply Hiff, Hrule. now right; right.
  - intro H. rewrite Hiff in H. apply not_true_is_false in H.
    unfold Rules.amount_fails in H. destruct (parseInt rawAmount) as [|n]; [discriminate|].
    apply orb_false_iff in H as [H1 H2]. apply Z.leb_gt in H1. eauto.
Qed.

(** ** Settlement *)

Section Settlement.

(** What a valid instruction is known to satisfy. *)
Lemma valid_facts h p l :
  validateBusinessRules h p (IsArray l) = Ret Valid ->
  (exists amount, parseInt (p_amount p) = Num amount /\ 0 < amount)
  /\ p_debit_account p <> p_credit_account p
  /\ (exists d, find_account l (p_debit_account p) = Some d)
  /\ (exists c, find_account l (p_credit_account p) = Some c)
  /\ Rules.DT01_fails h p = false.
Proof.
  rewrite validateBusinessRules_cascade. intro H.
  assert (Hn : Rules.first_failing (Rules.cascade h p l) = None).
  { destruct (Rules.first_failing _); [discriminate H | reflexivity]. }
  clear H. unfold Rules.cascade in Hn. cbn [Rules.first_failing] in Hn.
  destruct (Rules.AM01_fails p) eqn:H1; [discriminate|].
  destruct (Rules.CU02_fails p); [discriminate|].
  destruct (Rules.AC04_fails p); [discriminate|].
  destruct (Rules.AC02_fails p) eqn:H4; [discriminate|].
  destruct (Rules.AC03_fails p l) eqn:H5; [discriminate|].
  destruct (Rules.CU01_fails p l); [discriminate|].
  destruct (Rules.AC01_fails p l); [discriminate|].
  destruct (Rules.DT01_fails h p); [discriminate|].
  split; [|split; [|split; [|split; [|reflexivity]]]].
  - unfold Rules.AM01_fails, Rules.amount_fails in H1.
    destruct (parseInt (p_amount p)) as [|n]; [discriminate|].
    apply orb_false_iff in H1 as [H1 _]. apply Z.leb_gt in H1. eauto.
  - unfold Rules.AC02_fails in H4. now apply String.eqb_neq in H4.
  - unfold Rules.AC03_fails in H5.
    destruct (find_account l (p_debit_account p)); [eauto | discriminate].
  - unfold Rules.AC03_fails in H5.
    destruct (find_account l (p_debit_account p)); [|discriminate].
    destruct (find_account l (p_credit_account p)); [eauto | discriminate].
Qed.

Lemma find_account_In l accountId a :
  find_account l accountId = Some a -> In a l /\ obj_id a = accountId.
Proof.
  unfold find_account. intro H. apply find_some in H as [H1 H2].
  split; [exact H1 | now apply String.eqb_eq].
Qed.

Lemma update_account_id debit credit amount a :
  obj_id (update_account debit credit amount a) = obj_id a.
Proof.
  unfold update_account.
  destruct (String.eqb (obj_id a) debit); [reflexivity|].
  destruct (String.eqb (obj_id a) credit); reflexivity.
Qed.

Lemma involved_update debit credit amount a :
  involved debit credit (update_account debit credit amount a) = involved debit credit a.
Proof. unfold involved. now rewrite update_account_id. Qed.

(** An integer of magnitude up to 2^53 is a number of the language. *)
Lemma to_double_exact z : Z.abs z <= 2 ^ 53 -> to_double z = z.
Proof.
  intro H. unfold to_double. cbv zeta.
  now replace (Z.abs z <=? 2 ^ 53) with true by (symmetry; now apply Z.leb_le).
Qed.


(** Rounding does not turn a larger integer into a safe one. *)
Lemma to_double_large z : 2 ^ 53 < Z.abs z -> 2 ^ 53 <= Z.abs (to_double z).
Proof.
  intro H. unfold to_double. cbv zeta.
  replace (Z.abs z <=? 2 ^ 53) with false by (symmetry; now apply Z.leb_gt).
  set (a := Z.abs z) in *. set (k := Z.log2 a - 52).
  assert (Hlog : 53 <= Z.log2 a).
  { change 53 with (Z.log2 (2 ^ 53)). apply Z.log2_le_mono. lia. }
  assert (Hk : 1 <= k) by (subst k; lia).
  assert (Hpow : 2 ^ (52 + k) <= a).
  { replace (52 + k) with (Z.log2 a) by (subst k; lia).
    apply Z.log2_spec. lia. }
  assert (H2k : 2 <= 2 ^ k).
  { change 2 with (2 ^ 1) at 1. apply Z.pow_le_mono_r; lia. }
  rewrite Z.pow_add_r in Hpow by lia.
  assert (Hq : 2 ^ 52 <= a / 2 ^ k).
  { apply Z.div_le_lower_bound; lia. }
  set (q := a / 2 ^ k) in *.
  match goal with
  | |- context [if ?c then q else q + 1] => set (q' := if c then q else q + 1)
  end.
  assert (Hq' : q <= q') by (subst q'; destruct (_ || _); lia).
  assert (Hsgn : Z.abs (Z.sgn z) = 1).
  { subst a. destruct z; cbn in *; try reflexivity. lia. }
  rewrite Z.abs_mul, Hsgn, Z.mul_1_l, Z.abs_eq by nia.
  change (2 ^ 53) with (2 ^ 52 * 2). nia.
Qed.

Lemma safe_integer_to_double z : safe_integer (to_double z) = true -> to_double z = z.
Proof.
  intro H. destruct (Z.le_gt_cases (Z.abs z) (2 ^ 53)) as [Hle | Hgt].
  - now apply to_double_exact.
  - apply to_double_large in Hgt. unfold safe_integer in H. apply Z.ltb_lt in H. lia.
Qed.

(** What [executeTransaction] returns for the involved accounts, in the
    arithmetic of the code. *)
Lemma settled_views_rounded l p amount :
  parseInt (p_amount p) = Num amount ->
  p_debit_account p <> p_credit_account p ->
  Forall2 (settled_rounded (p_debit_account p) (p_credit_account p) amount)
    (List.filter (involved_account (p_debit_account p) (p_credit_account p)) l)
    (settled_views l p).
Proof.
  intros Ha Hne. unfold settled_views. rewrite Ha, createAccountsResponse_loop_filter.
  cbn [app]. induction l as [|a l IH]; [constructor|].
  cbn [map List.filter]. rewrite involved_update. unfold involved_account at 1.
  destruct (involved _ _ (of_account a)) eqn:Hi; [|exact IH].
  cbn [map]. constructor; [|exact IH].
  unfold settled_rounded, accountResponse, update_account. cbn [of_account obj_id].
  destruct (String.eqb (acc_id a) (p_debit_account p)) eqn:Hd.
  - apply String.eqb_eq in Hd. cbn. repeat split; try reflexivity.
    + now rewrite toUpperCase_idem.
    + intro Hc. congruence.
  - apply String.eqb_neq in Hd.
    destruct (String.eqb (acc_id a) (p_credit_account p)) eqn:Hc; cbn.
    + repeat split; try reflexivity; [now rewrite toUpperCase_idem | contradiction].
    + unfold involved in Hi. cbn in Hi. apply String.eqb_neq in Hd.
      rewrite Hd, Hc in Hi. discriminate Hi.
Qed.

Lemma settled_rounded_view_id debit credit amount a v :
  settled_rounded debit credit amount a v -> view_id v = acc_id a.
Proof. now intros (H & _). Qed.


Lemma untouched_views_untouched l p :
  Forall2 untouched
    (List.filter (involved_account (p_debit_account p) (p_credit_account p)) l)
    (untouched_views l p).
Proof.
  unfold untouched_views. rewrite createAccountsResponse_loop_filter. cbn [app].
  induction l as [|a l IH]; [constructor|].
  cbn [map List.filter]. unfold involved_account at 1.
  destruct (involved _ _ (of_account a)); [|exact IH].
  cbn [map]. constructor; [|exact IH]. repeat split.
Qed.

Lemma find_account_involved l debit credit accountId a :
  find_account (map of_account l) accountId = Some a ->
  accountId = debit \/ accountId = credit ->
  exists b, In b (List.filter (involved_account debit credit) l) /\ acc_id b = accountId.
Proof.
  intros Hf Hor. apply find_account_In in Hf as [Hin Hid].
  apply in_map_iff in Hin as (b & <- & Hb). exists b. split; [|exact Hid].
  apply filter_In. split; [exact Hb|].
  unfold involved_account, involved. cbn in *. apply orb_true_iff.
  destruct Hor as [<- | <-]; [left | right]; now apply String.eqb_eq.
Qed.

Lemma Forall2_In_l {A B} (R : A -> B -> Prop) la lb a :
  Forall2 R la lb -> In a la -> exists b, In b lb /\ R a b.
Proof.
  induction 1 as [|x y la lb Hxy HF IH]; [intros []|].
  intros [<- | Hin]; [exists y; split; [now left | exact Hxy]|].
  destruct (IH Hin) as (b & Hb & HR). exists b. split; [now right | exact HR].
Qed.

Lemma Forall2_In_r {A B} (R : A -> B -> Prop) la lb b :
  Forall2 R la lb -> In b lb -> exists a, In a la /\ R a b.
Proof.
  induction 1 as [|x y la lb Hxy HF IH]; [intros []|].
  intros [<- | Hin]; [exists x; split; [now left | exact Hxy]|].
  destruct (IH Hin) as (a & Ha & HR). exists a. split; [now right | exact HR].
Qed.

End Settlement.

Section ServiceInversion.

(** A response says [successful] only on the immediate path. *)
Lemma service_successful_inv h payload r :
  paymentInstructionService h payload = Ret r ->
  r_status r = successful ->
  exists instruction l p,
    payload = PayloadObject instruction (IsArray l)
    /\ parseInstruction instruction = ParseOk p
    /\ validateBusinessRules h p (IsArray (map of_account l)) = Ret Valid
    /\ shouldExecuteNow h (p_execute_by p) = true
    /\ r = createSuccessResponse p successful (STATUS_CODES AP00) AP00 (settled_views l p).
Proof.
  unfold paymentInstructionService. intros [= <-] Hs.
  destruct payload as [|instruction accounts]; [discriminate Hs|].
  unfold service_body in Hs |- *.
  destruct (negb (array_truthy accounts) || negb (js_truthy instruction)) eqn:Hg;
    [discriminate Hs|].
  destruct (parseInstruction instruction) as [p|f] eqn:Hp; [|discriminate Hs].
  destruct accounts as [| | l].
  - discriminate Hg.
  - exfalso. cbn [array_map] in Hs.
    destruct (validateBusinessRules h p NotArrayTruthy) as [[|msg code]|];
      cbn [bind try_catch] in Hs; unfold executeTransaction in Hs;
      try destruct (shouldExecuteNow h (p_execute_by p)); discriminate Hs.
  - cbn [array_map] in Hs |- *.
    destruct (validateBusinessRules h p (IsArray (map of_account l))) as [[|msg code]|] eqn:Hv;
      cbn [bind try_catch] in Hs |- *; try discriminate Hs.
    exists instruction, l, p.
    split; [reflexivity|]. split; [exact Hp|]. split; [exact Hv|].
    unfold executeTransaction in Hs |- *.
    destruct (shouldExecuteNow h (p_execute_by p)); [|discriminate Hs].
    split; reflexivity.
Qed.

End ServiceInversion.



(** C8 (as amended).  When the service answers [successful] and the
    balances it returns are safe integers, the debit and the credit account
    are both returned, and for every returned debit account and every
    returned credit account the balances before add up to the balances
    after. *)
Theorem C8_conservation (h : Host) (payload : Payload) (r : TransactionResponse) :
  paymentInstructionService h payload = Ret r ->
  r_status r = successful ->
  safe_balances (r_accounts r) = true ->
  exists debit credit,
    r_debit_account r = Val debit /\ r_credit_account r = Val credit
    /\ (exists d, In d (r_accounts r) /\ view_id d = debit)
    /\ (exists c, In c (r_accounts r) /\ view_id c = credit)
    /\ forall d c,
         In d (r_accounts r) -> In c (r_accounts r) ->
         view_id d = debit -> view_id c = credit ->
         exists debit_before credit_before debit_after credit_after,
           view_balance_before d = Num debit_before
           /\ view_balance_before c = Num credit_before
           /\ view_balance d = Num debit_after
           /\ view_balance c = Num credit_after
           /\ debit_before + credit_before = debit_after + credit_after.
Proof.
  intros Hr Hs Hsafe.
  destruct (service_successful_inv _ _ _ Hr Hs) as (instruction & l & p & -> & Hp & Hv & He & ->).
  destruct (valid_facts _ _ _ Hv) as ((amount & Ha & Hpos) & Hne & (d0 & Hd) & (c0 & Hc) & _).
  assert (HF := settled_views_rounded l p amount Ha Hne).
  exists (p_debit_account p), (p_credit_account p).
  cbn [createSuccessResponse r_debit_account r_credit_account r_accounts] in Hsafe |- *.
  assert (Hall := proj1 (forallb_forall _ _) Hsafe).
  repeat split.
  - destruct (find_account_involved l _ (p_credit_account p) _ _ Hd (or_introl eq_refl))
      as (b & Hb & Hid).
    destruct (Forall2_In_l _ _ _ _ HF Hb) as (v & Hin & Hsv).
    exists v. split; [exact Hin|]. destruct Hsv as (-> & _). exact Hid.
  - destruct (find_account_involved l (p_debit_account p) _ _ _ Hc (or_intror eq_refl))
      as (b & Hb & Hid).
    destruct (Forall2_In_l _ _ _ _ HF Hb) as (v & Hin & Hsv).
    exists v. split; [exact Hin|]. destruct Hsv as (-> & _). exact Hid.
  - intros d c Hind Hinc Hdid Hcid.
    destruct (Forall2_In_r _ _ _ _ HF Hind) as (a & _ & (Ia & _ & Ba & Da & _)).
    destruct (Forall2_In_r _ _ _ _ HF Hinc) as (b & _ & (Ib & _ & Bb & _ & Cb)).
    assert (Da' : view_balance d = Num (to_double (acc_balance a - amount)))
      by (apply Da; congruence).
    assert (Cb' : view_balance c = Num (to_double (acc_balance b + amount)))
      by (apply Cb; congruence).
    assert (Sd := Hall d Hind). assert (Sc := Hall c Hinc). cbv beta in Sd, Sc.
    rewrite Da' in Sd. rewrite Cb' in Sc.
    apply safe_integer_to_double in Sd. apply safe_integer_to_double in Sc.
    exists (acc_balance a), (acc_balance b), (acc_balance a - amount), (acc_balance b + amount).
    repeat split; try assumption.
    + now rewrite Da', Sd.
    + now rewrite Cb', Sc.
    + lia.
Qed.

(** Beyond the safe integers the sum is not conserved: a debit account that
    holds 2^53 + 2 and is debited 1 is returned with 2^53, while the credit
    account gains 1. *)
Lemma C8_rounded_sum_counterexample :
  exists r d c,
    paymentInstructionService (example_host 0)
      (PayloadObject (JsString "DEBIT 1 NGN FROM ACCOUNT A1 FOR CREDIT TO ACCOUNT B2")
         (IsArray [ {| acc_id := "A1"; acc_balance := 9007199254740994;
                       acc_currency := "NGN" |};
                    {| acc_id := "B2"; acc_balance := 0; acc_currency := "NGN" |} ])) = Ret r
    /\ r_status r = successful
    /\ r_debit_account r = Val "A1" /\ r_credit_account r = Val "B2"
    /\ In d (r_accounts r) /\ In c (r_accounts r)
    /\ view_id d = "A1" /\ view_id c = "B2"
    /\ view_balance_before d = Num 9007199254740994
    /\ view_balance_before c = Num 0
    /\ view_balance d = Num 9007199254740992
    /\ view_balance c = Num 1
    /\ 9007199254740994 + 0 <> 9007199254740992 + 1.
Proof.
  eexists. eexists. eexists. split; [vm_compute; reflexivity|].
  split; [reflexivity|]. split; [reflexivity|]. split; [reflexivity|].
  split; [left; reflexivity|]. split; [right; left; reflexivity|].
  repeat split. discriminate.
Qed.

(** The worked example of the specification. *)
Example settlement_example :
  paymentInstructionService (example_host 0)
    (PayloadObject example_instruction (IsArray example_accounts))
  = Ret {| r_type := Val DEBIT; r_amount := Val (Num 500); r_currency := Val "NGN";
           r_debit_account := Val "A1"; r_credit_account := Val "B2";
           r_execute_by := Null;
           r_status := successful; r_status_reason := STATUS_CODES AP00;
           r_status_code := AP00;
           r_accounts :=
             [ {| view_id := "A1"; view_balance := Num 500; view_currency := "NGN";
                  view_balance_before := Num 1000 |};
               {| view_id := "B2"; view_balance := Num 700; view_currency := "NGN";
                  view_balance_before := Num 200 |} ] |}.
Proof. vm_compute. reflexivity. Qed.

(** Two more of its examples: insufficient funds, and an unknown leading
    keyword. *)
Example insufficient_funds_example :
  exists r,
    paymentInstructionService (example_host 0)
      (PayloadObject example_instruction
         (IsArray [ {| acc_id := "A1"; acc_balance := 100; acc_currency := "NGN" |};
                    {| acc_id := "B2"; acc_balance := 200; acc_currency := "NGN" |} ])) = Ret r
    /\ r_status r = failed /\ r_status_code r = AC01.
Proof. eexists. split; [vm_compute; reflexivity|]. split; reflexivity. Qed.

Example unknown_keyword_example :
  exists r,
    paymentInstructionService (example_host 0)
      (PayloadObject (JsString "PAY 100 NGN FROM ACCOUNT A1 FOR CREDIT TO ACCOUNT B2")
         (IsArray example_accounts)) = Ret r
    /\ r_status r = failed /\ r_status_code r = SY01.
Proof. eexists. split; [vm_compute; reflexivity|]. split; reflexivity. Qed.


Lemma C8_conservation_witness :
  exists debit credit,
    let r := try_catch (service_body (example_host 0)
                          (PayloadObject example_instruction (IsArray example_accounts)))
                       malformed_response in
    r_debit_account r = Val debit /\ r_credit_account r = Val credit
    /\ (exists d, In d (r_accounts r) /\ view_id d = debit)
    /\ (exists c, In c (r_accounts r) /\ view_id c = credit)
    /\ forall d c,
         In d (r_accounts r) -> In c (r_accounts r) ->
         view_id d = debit -> view_id c = credit ->
         exists debit_before credit_before debit_after credit_after,
           view_balance_before d = Num debit_before
           /\ view_balance_before c = Num credit_before
           /\ view_balance d = Num debit_after
           /\ view_balance c = Num credit_after
           /\ debit_before + credit_before = debit_after + credit_after.
Proof.
  apply (C8_conservation (example_host 0)
           (PayloadObject example_instruction (IsArray example_accounts)));
    [reflexivity | vm_compute; reflexivity | vm_compute; reflexivity].
Defined.

Lemma C4_validation_cascade_witness :
  validateBusinessRules (example_host 0)
    {| p_type := CREDIT; p_amount := "100"; p_currency := "USD";
       p_debit_account := "X"; p_credit_account := "X"; p_execute_by := None |}
    NotArrayTruthy
  = Ret (Invalid (STATUS_CODES AC02) AC02).
Proof.
  apply (proj2 (proj2 (proj2 (C4_validation_cascade (example_host 0) _ [])))); reflexivity.
Defined.

(** The self-transfer of the specification, whatever the snapshot holds. *)
Example self_transfer_example (h : Host) (l : list Account) :
  exists r,
    paymentInstructionService h
      (PayloadObject (JsString "CREDIT 100 USD TO ACCOUNT X FOR DEBIT FROM ACCOUNT X") (IsArray l))
    = Ret r
    /\ r_status r = failed /\ r_status_code r = AC02.
Proof.
  eexists. split.
  - eapply service_invalid; [vm_compute; reflexivity|].
    apply validateBusinessRules_early. vm_compute. reflexivity.
  - split; reflexivity.
Qed.

Lemma C6_amount_rule_witness :
  validateBusinessRules (example_host 0)
    {| p_type := DEBIT; p_amount := "10.5"; p_currency := "NGN";
       p_debit_account := "A1"; p_credit_account := "B2"; p_execute_by := None |}
    (IsArray (map of_account example_accounts))
  = Ret (Invalid (STATUS_CODES AM01) AM01)
  /\ exists n, parseInt "500" = Num n /\ 0 < n /\ includes_char "." "500" = false.
Proof.
  split.
  - apply (proj1 (proj2 (C6_amount_rule (example_host 0) _ _))). reflexivity.
  - apply (proj2 (proj2 (C6_amount_rule (example_host 0) (example_fields None)
                           (IsArray (map of_account example_accounts))))).
    vm_compute. discriminate.
Defined.

(** ** The optional ON anchor *)

Section OnAnchor.

Lemma read_execute_by_last parts onIndex :
  onIndex = js_length parts - 1 -> read_execute_by parts onIndex = None.
Proof.
  intros ->. unfold read_execute_by.
  replace (js_length parts - 1 + 1 <? js_length parts) with false
    by (symmetry; apply Z.ltb_ge; lia).
  now rewrite andb_false_r.
Qed.

Lemma parseInstruction_execute_by text p :
  parseInstruction (JsString text) = ParseOk p ->
  p_execute_by p = read_execute_by (tokens text) (on_anchor (p_type p) (tokens text)).
Proof.
  unfold parseInstruction. destruct (truthy text); [|discriminate]. cbn [negb].
  fold (normalize text). fold (tokens text).
  destruct (js_length (tokens text) <? 8); [discriminate|].
  destruct (String.eqb (part (tokens text) 0) "DEBIT").
  - unfold parseDebitInstruction.
    destruct (_ || _); [discriminate|]. destruct (negb _); [discriminate|].
    intros [= <-]. reflexivity.
  - destruct (String.eqb (part (tokens text) 0) "CREDIT"); [|discriminate].
    unfold parseCreditInstruction.
    destruct (_ || _); [discriminate|]. destruct (negb _); [discriminate|].
    intros [= <-]. reflexivity.
Qed.

End OnAnchor.

(** The date rule of the validator passes when no date was read. *)
Lemma validateBusinessRules_no_date h p (accounts : JsArrayArg AccountObj) msg :
  p_execute_by p = None ->
  validateBusinessRules h p accounts <> Ret (Invalid msg DT01).
Proof.
  intro He. unfold validateBusinessRules. rewrite He.
  destruct (negb (truthy (p_amount p)) || _ || _ || _); [discriminate|].
  destruct (negb (truthy (p_currency p)) || _); [discriminate|].
  destruct (negb (isValidAccountId (p_debit_account p)) || _); [discriminate|].
  destruct (String.eqb _ _); [discriminate|].
  destruct accounts as [| | l]; try discriminate. cbn [array_method bind].
  destruct (find_account l (p_debit_account p)); [|discriminate].
  destruct (find_account l (p_credit_account p)); [|discriminate].
  destruct (negb (String.eqb _ _) || _); [discriminate|].
  destruct (js_lt _ _); discriminate.
Qed.

(** C10.  When an instruction parses and the ON anchor it resolves is the
    final token, [execute_by] is null; the validator then never answers
    DT01, whatever the host and the accounts, and if the seven rules that
    come before the date rule pass, the validator accepts the instruction
    and the service settles it at once: [successful], AP00, with a null
    [execute_by] in the response. *)
Theorem C10_trailing_on (text : string) (p : ParsedFields) :
  parseInstruction (JsString text) = ParseOk p ->
  on_anchor (p_type p) (tokens text) = js_length (tokens text) - 1 ->
  p_execute_by p = None
  /\ (forall h (accounts : JsArrayArg AccountObj) msg,
        validateBusinessRules h p accounts <> Ret (Invalid msg DT01))
  /\ (forall h l,
        Rules.first_failing (rules_before_date p (map of_account l)) = None ->
        validateBusinessRules h p (IsArray (map of_account l)) = Ret Valid
        /\ exists r,
             paymentInstructionService h (PayloadObject (JsString text) (IsArray l)) = Ret r
             /\ r_status r = successful /\ r_status_code r = AP00
             /\ r_execute_by r = Null
             /\ r_accounts r = settled_views l p).
Proof.
  intros Hp Hon.
  assert (He : p_execute_by p = None).
  { rewrite (parseInstruction_execute_by _ _ Hp). now apply read_execute_by_last. }
  split; [exact He|]. split.
  - intros h accounts msg. now apply validateBusinessRules_no_date.
  - intros h l Hrules.
    assert (Hv : validateBusinessRules h p (IsArray (map of_account l)) = Ret Valid).
    { rewrite validateBusinessRules_cascade. unfold Rules.cascade.
      unfold rules_before_date in Hrules. cbn [Rules.first_failing] in Hrules |- *.
      destruct (Rules.AM01_fails p); [discriminate|].
      destruct (Rules.CU02_fails p); [discriminate|].
      destruct (Rules.AC04_fails p); [discriminate|].
      destruct (Rules.AC02_fails p); [discriminate|].
      destruct (Rules.AC03_fails p _); [discriminate|].
      destruct (Rules.CU01_fails p _); [discriminate|].
      destruct (Rules.AC01_fails p _); [discriminate|].
      unfold Rules.DT01_fails. rewrite He. reflexivity. }
    split; [exact Hv|]. eexists. split.
    + rewrite (service_valid _ _ _ _ Hp Hv), He. reflexivity.
    + cbn. rewrite He. repeat split.
Qed.

Lemma C10_trailing_on_witness :
  let text := "DEBIT 500 NGN FROM ACCOUNT A1 FOR CREDIT TO ACCOUNT B2 ON" in
  p_execute_by (example_fields None) = None
  /\ (forall h (accounts : JsArrayArg AccountObj) msg,
        validateBusinessRules h (example_fields None) accounts <> Ret (Invalid msg DT01))
  /\ validateBusinessRules (example_host 0) (example_fields None)
       (IsArray (map of_account example_accounts)) = Ret Valid
  /\ exists r,
       paymentInstructionService (example_host 0)
         (PayloadObject (JsString text) (IsArray example_accounts)) = Ret r
       /\ r_status r = successful /\ r_status_code r = AP00
       /\ r_execute_by r = Null
       /\ r_accounts r
          = [ {| view_id := "A1"; view_balance := Num 500; view_currency := "NGN";
                 view_balance_before := Num 1000 |};
              {| view_id := "B2"; view_balance := Num 700; view_currency := "NGN";
                 view_balance_before := Num 200 |} ].
Proof.
  cbv zeta.
  assert (Hp : parseInstruction
                 (JsString "DEBIT 500 NGN FROM ACCOUNT A1 FOR CREDIT TO ACCOUNT B2 ON")
               = ParseOk (example_fields None)) by (vm_compute; reflexivity).
  assert (Hon : on_anchor (p_type (example_fields None))
                  (tokens "DEBIT 500 NGN FROM ACCOUNT A1 FOR CREDIT TO ACCOUNT B2 ON")
                = js_length (tokens "DEBIT 500 NGN FROM ACCOUNT A1 FOR CREDIT TO ACCOUNT B2 ON")
                  - 1) by (vm_compute; reflexivity).
  destruct (C10_trailing_on _ _ Hp Hon) as (He & Hdate & Hsettle).
  split; [exact He|]. split; [exact Hdate|].
  assert (Hrules : Rules.first_failing
                     (rules_before_date (example_fields None)
                        (map of_account example_accounts)) = None)
    by (vm_compute; reflexivity).
  destruct (Hsettle (example_host 0) example_accounts Hrules)
    as (Hv & r & Hr & Hs & Hc & Hx & Ha).
  split; [exact Hv|]. exists r. split; [exact Hr|]. split; [exact Hs|].
  split; [exact Hc|]. split; [exact Hx|]. rewrite Ha. vm_compute. reflexivity.
Defined.

(** ** Immediate or deferred *)

Section Calendar.

Lemma all_from_spec check count : forall z i,
  all_from check count z = true -> z <= i < z + Z.of_nat count -> check i = true.
Proof.
  induction count as [|k IH]; intros z i H Hi; [lia|].
  cbn [all_from] in H. apply andb_true_iff in H as [H0 H1].
  destruct (Z.eq_dec i z) as [-> | Hne]; [exact H0|].
  apply (IH (z + 1)); [exact H1 | lia].
Qed.

(** Checked by evaluation on the 146097 days of an era. *)
Lemma era_days_ok : all_from era_day_ok (Z.to_nat 146097) 0 = true.
Proof. vm_cast_no_check (eq_refl true). Qed.

Lemma era_day_bounds doe :
  0 <= doe < 146097 ->
  0 <= doy_of_doe doe <= 365 /\ 0 <= yoe_of_doe doe <= 399.
Proof.
  intro H.
  assert (Hok : era_day_ok doe = true).
  { apply (all_from_spec _ _ 0 doe era_days_ok). rewrite Z2Nat.id; lia. }
  unfold era_day_ok in Hok. cbv zeta in Hok. unfold doy_of_doe. cbv zeta.
  rewrite !andb_true_iff, !Z.leb_le in Hok. lia.
Qed.

(** The civil date of a day number has a month from 1 to 12, and its day
    number is the one it came from. *)
Lemma civil_roundtrip z :
  let '(y, m, d) := civil_from_days z in
  days_from_civil y m d = z /\ 1 <= m <= 12 /\ (0 <= z -> 1600 <= y).
Proof.
  unfold civil_from_days. cbv zeta.
  set (z' := z + 719468). set (era := z' / 146097). set (doe := z' - era * 146097).
  assert (Hdoe : 0 <= doe < 146097).
  { subst doe era. assert (H := Z.div_mod z' 146097 ltac:(lia)).
    assert (0 <= z' mod 146097 < 146097) by (apply Z.mod_pos_bound; lia). lia. }
  destruct (era_day_bounds doe Hdoe) as [Hdoy Hyoe].
  unfold doy_of_doe, yoe_of_doe in Hdoy, Hyoe. cbv zeta in Hdoy.
  set (yoe := (doe - doe / 1460 + doe / 36524 - doe / 146096) / 365) in *.
  set (doy := doe - (365 * yoe + yoe / 4 - yoe / 100)) in *.
  set (mp := (5 * doy + 2) / 153).
  assert (Hmp : 0 <= mp <= 11).
  { subst mp. split; [apply Z.div_pos; lia|].
    apply Z.lt_succ_r. apply Z.div_lt_upper_bound; lia. }
  assert (Ez : z' = era * 146097 + doe) by (subst doe; lia).
  assert (Edoy : doy = doe - (365 * yoe + yoe / 4 - yoe / 100)) by reflexivity.
  assert (Hera4 : 0 <= z -> 4 <= era)
    by (intro; subst era z'; apply Z.div_le_lower_bound; lia).
  clearbody mp doy yoe doe era. subst z'.
  assert (Hera : (yoe + era * 400) / 400 = era)
    by (symmetry; apply Z.div_unique with (r := yoe); lia).
  unfold days_from_civil.
  destruct (mp <? 10) eqn:Hlt; [apply Z.ltb_lt in Hlt | apply Z.ltb_ge in Hlt].
  - replace (mp + 3 <=? 2) with false by (symmetry; apply Z.leb_gt; lia).
    replace (2 <? mp + 3) with true by (symmetry; apply Z.ltb_lt; lia).
    rewrite Hera. split; [|lia]. replace (mp + 3 - 3) with mp by lia.
    replace (yoe + era * 400 - era * 400) with yoe by lia. lia.
  - replace (mp - 9 <=? 2) with true by (symmetry; apply Z.leb_le; lia).
    replace (2 <? mp - 9) with false by (symmetry; apply Z.ltb_ge; lia).
    replace (yoe + era * 400 + 1 - 1) with (yoe + era * 400) by lia.
    rewrite Hera. split; [|lia]. replace (mp - 9 + 9) with mp by lia.
    replace (yoe + era * 400 - era * 400) with yoe by lia. lia.
Qed.

(** The date [isDateInPastOrToday] builds from the UTC components of the
    clock is the midnight of the current UTC day, read in LOCAL time. *)
Lemma todayUTC_value tza now :
  0 <= now ->
  new_Date_ymd tza (getUTCFullYear now) (getUTCMonth now) (getUTCDate now)
  = Day now * msPerDay - tza.
Proof.
  intro Hnow. unfold getUTCFullYear, getUTCMonth, getUTCDate,
    YearFromTime, MonthFromTime, DateFromTime.
  assert (Hday : 0 <= Day now) by (apply Z.div_pos; [exact Hnow | reflexivity]).
  assert (H := civil_roundtrip (Day now)).
  destruct (civil_from_days (Day now)) as [[y m] d]. cbn [fst snd].
  destruct H as (Hrt & Hm & Hy). specialize (Hy Hday).
  unfold new_Date_ymd.
  replace ((0 <=? y) && (y <=? 99)) with false
    by (symmetry; apply andb_false_iff; right; apply Z.leb_gt; lia).
  unfold MakeDay.
  replace ((m - 1) / 12) with 0 by (symmetry; apply Z.div_small; lia).
  replace ((m - 1) mod 12) with (m - 1) by (symmetry; apply Z.mod_small; lia).
  replace (y + 0) with y by lia. replace (m - 1 + 1) with m by lia.
  assert (Hlin : days_from_civil y m 1 + d - 1 = days_from_civil y m d)
    by (unfold days_from_civil; lia).
  now rewrite Hlin, Hrt.
Qed.

(** What the code decides for a date of the interchange format: whether
    its UTC midnight is not after the LOCAL midnight of the current UTC
    day. *)
Lemma isDateInPastOrToday_iso h e y m d :
  0 <= host_now h -> iso_date e = Some (y, m, d) ->
  isDateInPastOrToday h e
  = (days_from_civil y m d * msPerDay <=? Day (host_now h) * msPerDay - host_LocalTZA h)
  /\ Rule.utc_date_due h e = (days_from_civil y m d <=? Day (host_now h)).
Proof.
  intros Hnow He. unfold isDateInPastOrToday, Rule.utc_date_due, new_Date_utc_midnight.
  rewrite He, (todayUTC_value _ _ Hnow). split; [reflexivity|].
  unfold Day at 1. now rewrite Z.div_mul by discriminate.
Qed.

(** On a host at or west of Greenwich the code decides as the rule says. *)
Lemma isDateInPastOrToday_west h e y m d :
  0 <= host_now h -> iso_date e = Some (y, m, d) ->
  - msPerDay < host_LocalTZA h <= 0 ->
  isDateInPastOrToday h e = Rule.utc_date_due h e.
Proof.
  intros Hnow He Htz. destruct (isDateInPastOrToday_iso h e y m d Hnow He) as [-> ->].
  unfold msPerDay in *. apply eq_true_iff_eq. rewrite !Z.leb_le. lia.
Qed.

(** On a host east of Greenwich the current UTC day is not due. *)
Lemma isDateInPastOrToday_east h e y m d :
  0 <= host_now h -> iso_date e = Some (y, m, d) ->
  0 < host_LocalTZA h <= msPerDay ->
  isDateInPastOrToday h e = (days_from_civil y m d <? Day (host_now h)).
Proof.
  intros Hnow He Htz. destruct (isDateInPastOrToday_iso h e y m d Hnow He) as [-> _].
  unfold msPerDay in *. apply eq_true_iff_eq. rewrite Z.leb_le, Z.ltb_lt. lia.
Qed.

End Calendar.

(** C2 (the code departs from the rule).  On a host one hour east of
    Greenwich, at 2025-01-01T12:00:00Z, the instruction with execution date
    2025-01-01 passes parsing and validation and its date is due by the rule
    (it is the current UTC date), yet the service defers it: [pending],
    AP02, balances unchanged.  The same request on a UTC host settles at
    once. *)
Theorem C2_same_day_deferred_east_of_utc :
  let instruction :=
    JsString "DEBIT 500 NGN FROM ACCOUNT A1 FOR CREDIT TO ACCOUNT B2 ON 2025-01-01" in
  let p := example_fields (Some "2025-01-01") in
  let east := example_host 3600000 in
  parseInstruction instruction = ParseOk p
  /\ validateBusinessRules east p (IsArray (map of_account example_accounts)) = Ret Valid
  /\ Rule.settle_now east (p_execute_by p) = true
  /\ shouldExecuteNow east (p_execute_by p) = false
  /\ (exists r,
        paymentInstructionService east (PayloadObject instruction (IsArray example_accounts))
        = Ret r
        /\ r_status r = pending /\ r_status_code r = AP02)
  /\ (exists r,
        paymentInstructionService (example_host 0)
          (PayloadObject instruction (IsArray example_accounts))
        = Ret r
        /\ r_status r = successful /\ r_status_code r = AP00).
Proof.
  cbv zeta. repeat split; try (vm_compute; reflexivity);
    eexists; (split; [vm_compute; reflexivity|]); split; reflexivity.
Qed.

(** ** The boundary of the service *)

Section Boundary.

(** The promise of the service never rejects. *)
Lemma service_returns h payload :
  exists r, paymentInstructionService h payload = Ret r.
Proof. unfold paymentInstructionService. eauto. Qed.

Lemma malformed_response_shape :
  r_status malformed_response = failed
  /\ r_status_code malformed_response = SY03
  /\ r_accounts malformed_response = []
  /\ fully_populated malformed_response = true.
Proof. repeat split. Qed.

(** An instruction that is absent, is not a string, or has fewer than 8
    tokens is answered with the malformed-instruction response. *)
Lemma service_malformed h instruction accounts :
  (forall text, instruction = JsString text -> js_length (tokens text) < 8) ->
  paymentInstructionService h (PayloadObject instruction accounts) = Ret malformed_response.
Proof.
  intro Hshort. unfold paymentInstructionService, service_body. f_equal.
  destruct (negb (array_truthy accounts) || negb (js_truthy instruction)); [reflexivity|].
  assert (Hp : parseInstruction instruction = ParseFail (failure_nulls SY03)).
  { destruct instruction as [| | b | n | text |]; try reflexivity.
    unfold parseInstruction. destruct (truthy text); [|reflexivity]. cbn [negb].
    fold (normalize text). fold (tokens text).
    specialize (Hshort text eq_refl). apply Z.ltb_lt in Hshort. now rewrite Hshort. }
  rewrite Hp. reflexivity.
Qed.

(** An exception thrown inside the service is answered the same way. *)
Lemma service_internal_error h payload :
  service_body h payload = Throw ->
  paymentInstructionService h payload = Ret malformed_response.
Proof. unfold paymentInstructionService. now intros ->. Qed.

Lemma service_internal_error_example :
  service_body (example_host 0) (PayloadObject example_instruction NotArrayTruthy) = Throw.
Proof. vm_compute. reflexivity. Qed.

(** A failed parse is one of four objects: the two that
    [parseInstruction] builds itself list the six fields as nulls, the two
    that come from a recognizer do not list them. *)
Lemma parseInstruction_failure instruction f :
  parseInstruction instruction = ParseFail f ->
  f = failure_nulls SY03 \/ f = failure_nulls SY01
  \/ f = failure_bare SY01 \/ f = failure_bare SY02.
Proof.
  destruct instruction as [| | b | n | text |]; try (intros [= <-]; now left).
  unfold parseInstruction. destruct (truthy text); [|intros [= <-]; now left]. cbn [negb].
  destruct (_ <? 8); [intros [= <-]; now left|].
  destruct (String.eqb _ "DEBIT").
  - unfold parseDebitInstruction.
    destruct (_ || _); [intros [= <-]; right; right; now left|].
    destruct (negb _); [intros [= <-]; right; right; now right | discriminate].
  - destruct (String.eqb _ "CREDIT"); [|intros [= <-]; right; now left].
    unfold parseCreditInstruction.
    destruct (_ || _); [intros [= <-]; right; right; now left|].
    destruct (negb _); [intros [= <-]; right; right; now right | discriminate].
Qed.

Lemma createErrorResponse_populated type amount currency debit credit executeBy
    status reason code accounts :
  populated type = true -> populated debit = true -> populated credit = true ->
  populated executeBy = true ->
  fully_populated (createErrorResponse type amount currency debit credit executeBy
                     status reason code accounts) = true.
Proof.
  intros Ht Hd Hc He. unfold fully_populated, createErrorResponse.
  cbn [r_type r_amount r_currency r_debit_account r_credit_account r_execute_by].
  rewrite Ht, Hd, Hc, He.
  destruct (JsOpt_truthy amount); [destruct (isNaN _)|];
    destruct (JsOpt_truthy currency); reflexivity.
Qed.

(** Every response is fully populated, except the answers to a failure of
    a recognizer (SY01 or SY02 of a sentence that opens with DEBIT or
    CREDIT), whose [type] is [undefined]. *)
Lemma service_populated h payload r :
  paymentInstructionService h payload = Ret r ->
  fully_populated r = true
  \/ ((r_status_code r = SY01 \/ r_status_code r = SY02) /\ r_type r = Undefined).
Proof.
  unfold paymentInstructionService. intros [= <-].
  destruct payload as [|instruction accounts]; [now left|].
  unfold service_body.
  destruct (negb (array_truthy accounts) || negb (js_truthy instruction)); [now left|].
  destruct (parseInstruction instruction) as [p|f] eqn:Hp.
  - left.
    destruct (validateBusinessRules h p (array_map of_account accounts)) as [[|msg code]|];
      cbn [bind try_catch]; [| |reflexivity].
    + destruct (executeTransaction h p (array_map of_account accounts)) as [e|];
        cbn [bind try_catch]; [|reflexivity].
      unfold fully_populated. cbn. now destruct (p_execute_by p).
    + destruct (createAccountsResponse _ _ _ _) as [views|]; cbn [bind try_catch];
        [|reflexivity].
      apply createErrorResponse_populated; try reflexivity. now destruct (p_execute_by p).
  - cbn [try_catch].
    destruct (parseInstruction_failure _ _ Hp) as [-> | [-> | [-> | ->]]];
      [now left | now left | right | right]; split; auto.
Qed.

End Boundary.

(** C7 (the code departs from the specification).  A DEBIT sentence without its TO
    anchor is answered with SY01 and a response whose [type],
    [debit_account], [credit_account] and [execute_by] are [undefined], not
    null: the failure object of the recognizer does not list them.  The
    sibling failure of [parseInstruction] itself, an unknown leading
    keyword, also SY01, lists them as nulls. *)
Theorem C7_keyword_error_fields_undefined :
  (exists r,
     paymentInstructionService (example_host 0)
       (PayloadObject (JsString "DEBIT 500 NGN FROM ACCOUNT A1 FOR CREDIT ACCOUNT B2")
          (IsArray example_accounts)) = Ret r
     /\ r_status r = failed /\ r_status_code r = SY01
     /\ r_type r = Undefined /\ r_debit_account r = Undefined
     /\ r_credit_account r = Undefined /\ r_execute_by r = Undefined
     /\ fully_populated r = false)
  /\ (exists r,
        paymentInstructionService (example_host 0)
          (PayloadObject (JsString "PAY 500 NGN FROM ACCOUNT A1 FOR CREDIT ACCOUNT B2")
             (IsArray example_accounts)) = Ret r
        /\ r_status r = failed /\ r_status_code r = SY01
        /\ fully_populated r = true).
Proof.
  split; eexists; (split; [vm_compute; reflexivity|]); repeat split.
Qed.

Section HeapProperties.

Import Heap.
Local Open Scope list_scope.
Local Open Scope nat_scope.

(** One involved account: a new record at the end, and its reference
    appended to [result]. *)
Lemma involved_step (s : store) (result : loc) (xs : list loc) (o : AccountObj) (v : JsNumber) :
  s !! result = Some (ObjArray xs) ->
  let '(s1, r) := alloc s (ObjRecord {| obj_id := obj_id o; obj_balance := obj_balance o;
                                        obj_currency := toUpperCase (obj_currency o);
                                        obj_balance_before := None |}) in
  match set_balance_before s1 r v with
  | Some s2 => push s2 result r
  | None => None
  end
  = Some (<[result := ObjArray (xs ++ [length s])]> s
          ++ [ObjRecord {| obj_id := obj_id o; obj_balance := obj_balance o;
                           obj_currency := toUpperCase (obj_currency o);
                           obj_balance_before := Some v |}]).
Proof.
  intro Hres. assert (Hlt := lookup_lt_Some _ _ _ Hres).
  unfold alloc. cbv beta iota zeta. unfold set_balance_before.
  rewrite list_lookup_middle by reflexivity. cbn [obj_id obj_balance obj_currency].
  rewrite insert_app_r_alt by lia. rewrite Nat.sub_diag. cbn [insert list_insert].
  unfold push. rewrite lookup_app_l by exact Hlt. rewrite Hres.
  now rewrite insert_app_l by exact Hlt.
Qed.

Lemma read_view_frame (s : store) (result : loc) (ys : list loc) (o : Obj) (x : loc) :
  x <> result ->
  x < length s ->
  read_view (<[result := ObjArray ys]> s ++ [o]) x = read_view s x.
Proof.
  intros Hne Hlt. unfold read_view.
  rewrite lookup_app_l by (rewrite length_insert; exact Hlt).
  now rewrite list_lookup_insert_ne by auto.
Qed.

Lemma forEach_account_spec (base : store) (result : loc) debit credit flag
    (elems : list loc) (objs : list AccountObj) :
  Forall2 (fun a o => base !! a = Some (ObjRecord o)) elems objs ->
  forall s xs vs,
    loop_inv base result s xs vs ->
    exists s' xs',
      forEach_account s elems debit credit flag result = Some s'
      /\ loop_inv base result s' xs'
           (vs ++ map (accountResponse flag) (List.filter (involved debit credit) objs)).
Proof.
  induction 1 as [|a o elems objs Ha HF IH]; intros s xs vs Hinv.
  - exists s, xs. split; [reflexivity|]. cbn. now rewrite app_nil_r.
  - destruct Hinv as ((ext & ->) & Hres & Hlook & Hviews & Hfresh).
    cbn [forEach_account List.filter].
    rewrite (lookup_app_l_Some _ _ _ _ Ha).
    destruct (involved debit credit o) eqn:Hinv.
    2:{ apply (IH _ xs vs). repeat split; eauto. }
    set (v := if flag then match obj_balance_before o with
                           | Some b => b | None => obj_balance o end
              else obj_balance o).
    assert (Hstep := involved_step (base ++ ext) result xs o v Hlook).
    unfold alloc in Hstep |- *. cbv beta iota zeta in Hstep |- *. fold v.
    destruct (set_balance_before _ _ v) as [s2|]; [|discriminate Hstep].
    rewrite Hstep.
    assert (Hlt := lookup_lt_Some _ _ _ Hlook).
    edestruct (IH (<[result := ObjArray (xs ++ [length (base ++ ext)])]> (base ++ ext)
                   ++ [ObjRecord {| obj_id := obj_id o; obj_balance := obj_balance o;
                                    obj_currency := toUpperCase (obj_currency o);
                                    obj_balance_before := Some v |}])
                  (xs ++ [length (base ++ ext)])
                  (vs ++ [accountResponse flag o])) as (s' & xs' & Hrun & Hinv').
    { split; [|split; [exact Hres|split; [|split]]].
      - rewrite insert_app_r_alt by exact Hres. rewrite <- app_assoc. eauto.
      - rewrite lookup_app_l by (rewrite length_insert; exact Hlt).
        now apply list_lookup_insert_eq.
      - apply Forall2_app.
        + eapply Forall2_impl; [exact Hviews|]. intros x w Hx. cbn beta in Hx |- *.
          rewrite read_view_frame; [exact Hx| |].
          * intros ->. unfold read_view in Hx. rewrite Hlook in Hx. discriminate Hx.
          * unfold read_view in Hx. destruct (_ !! x) eqn:E; [|discriminate Hx].
            exact (lookup_lt_Some _ _ _ E).
        + constructor; [|constructor]. unfold read_view.
          rewrite list_lookup_middle by (now rewrite length_insert).
          cbn. reflexivity.
      - apply Forall_app. split; [exact Hfresh|]. constructor; [|constructor].
        rewrite length_app. lia. }
    exists s', xs'. split; [exact Hrun|].
    cbn [map] in *. now rewrite <- app_assoc in Hinv'.
Qed.

Lemma snapshot_holds (s : store) (accounts : loc) (objs : list AccountObj) :
  snapshot s accounts = Some objs <-> holds_accounts s accounts objs.
Proof.
  unfold snapshot, holds_accounts. split.
  - destruct (s !! accounts) as [[o|elems]|]; try discriminate.
    intro H. exists elems. split; [reflexivity|].
    apply mapM_Some in H. eapply Forall2_impl; [exact H|].
    intros a o. unfold record_at. cbn beta.
    destruct (s !! a) as [[o'|]|]; try discriminate. now intros [= ->].
  - intros (elems & -> & H). apply mapM_Some.
    eapply Forall2_impl; [exact H|]. intros a o Ha. cbn beta in *.
    unfold record_at. now rewrite Ha.
Qed.

Lemma fresh_views_empty (s : store) : fresh_views s (s ++ [ObjArray []]) (length s) [].
Proof.
  split; [eauto|]. split; [lia|]. split.
  - exists []. split; [now apply list_lookup_middle | constructor].
  - unfold read_views. now rewrite list_lookup_middle by reflexivity.
Qed.

Lemma createAccountsResponse_spec (s : store) (accounts : loc) objs debit credit flag :
  holds_accounts s accounts objs ->
  exists s',
    createAccountsResponse s accounts debit credit flag = Some (s', length s)
    /\ fresh_views s s' (length s) (createAccountsResponse_loop objs debit credit flag []).
Proof.
  intros (elems & Harr & Hobjs). unfold createAccountsResponse, alloc. cbv beta iota zeta.
  rewrite (lookup_app_l_Some _ _ _ _ Harr).
  destruct (forEach_account_spec s (length s) debit credit flag elems objs Hobjs
              (s ++ [ObjArray []]) [] []) as (s' & xs' & Hrun & Hinv).
  { split; [eauto|]. split; [lia|]. split; [now apply list_lookup_middle|].
    split; constructor. }
  rewrite Hrun. exists s'. split; [reflexivity|].
  destruct Hinv as (Hext & Hres & Hlook & Hviews & Hfresh).
  rewrite createAccountsResponse_loop_filter.
  split; [exact Hext|]. split; [lia|]. split; [eauto|].
  unfold read_views. rewrite Hlook. now apply mapM_Some.
Qed.

Lemma map_update_spec (base : store) debit credit amount
    (elems : list loc) (objs : list AccountObj) :
  Forall2 (fun a o => base !! a = Some (ObjRecord o)) elems objs ->
  forall ext,
    map_update (base ++ ext) elems debit credit amount
    = Some (base ++ ext
              ++ map (fun o => ObjRecord (update_account debit credit amount o)) objs,
            seq (length (base ++ ext)) (length objs)).
Proof.
  induction 1 as [|a o elems objs Ha HF IH]; intro ext.
  - cbn. now rewrite app_nil_r.
  - cbn [map_update]. rewrite (lookup_app_l_Some _ _ _ _ Ha).
    unfold alloc. cbv beta iota zeta.
    rewrite <- (app_assoc base ext). rewrite IH.
    rewrite <- !app_assoc. cbn [map app length seq].
    rewrite !length_app. cbn [length]. do 4 f_equal. lia.
Qed.

Lemma records_at_seq (g : AccountObj -> AccountObj) (objs : list AccountObj) :
  forall (pre post : list Obj),
    Forall2 (fun a o => (pre ++ map (fun o => ObjRecord (g o)) objs ++ post) !! a
                        = Some (ObjRecord o))
      (seq (length pre) (length objs)) (map g objs).
Proof.
  induction objs as [|o objs IH]; intros pre post; [constructor|].
  cbn [length seq map]. constructor.
  - now apply list_lookup_middle.
  - specialize (IH (pre ++ [ObjRecord (g o)]) post).
    rewrite length_app, Nat.add_1_r, <- app_assoc in IH. exact IH.
Qed.

Lemma executeTransaction_spec h (s : store) p (accounts : loc) objs :
  holds_accounts s accounts objs ->
  let debit := p_debit_account p in
  let credit := p_credit_account p in
  exists s' views,
    Heap.executeTransaction h s p accounts
    = Some (s', (if shouldExecuteNow h (p_execute_by p)
                 then (successful, AP00, views) else (pending, AP02, views)))
    /\ fresh_views s s' views
         (if shouldExecuteNow h (p_execute_by p)
          then createAccountsResponse_loop
                 (map (update_account debit credit (parseInt (p_amount p))) objs)
                 debit credit true []
          else createAccountsResponse_loop objs debit credit false []).
Proof.
  intros Hacc debit credit. unfold Heap.executeTransaction.
  fold debit. fold credit.
  destruct (shouldExecuteNow h (p_execute_by p)).
  - destruct Hacc as (elems & Harr & Hobjs). rewrite Harr.
    set (amount := parseInt (p_amount p)).
    set (f := fun o => ObjRecord (update_account debit credit amount o)).
    assert (Hmap := map_update_spec s debit credit amount elems objs Hobjs []).
    rewrite app_nil_r in Hmap. rewrite Hmap. cbn [app].
    unfold alloc. cbv beta iota zeta. fold f.
    set (s1 := s ++ map f objs).
    set (ls := seq (length s) (length objs)).
    destruct (createAccountsResponse_spec (s1 ++ [ObjArray ls]) (length s1)
                (map (update_account debit credit amount) objs) debit credit true)
      as (s3 & Hrun & (ext & ->) & Hle & (xs & Hxs & Hfresh) & Hread).
    { exists ls. split; [now apply list_lookup_middle|].
      subst s1 ls f. rewrite <- app_assoc. apply records_at_seq. }
    rewrite Hrun. eexists _, _. split; [reflexivity|].
    assert (Hlen : length s <= length (s1 ++ [ObjArray ls]))
      by (subst s1; rewrite !length_app; lia).
    split; [|split; [exact Hlen|split]].
    + subst s1. rewrite <- !app_assoc. eauto.
    + exists xs. split; [exact Hxs|].
      eapply Forall_impl; [exact Hfresh|]. intros x Hx. cbn beta in *. lia.
    + exact Hread.
  - destruct (createAccountsResponse_spec s accounts objs debit credit false Hacc)
      as (s' & Hrun & Hfv).
    rewrite Hrun. eauto.
Qed.

Lemma service_accounts_spec h (s : store) instruction (accounts : loc) (l : list Account) :
  snapshot s accounts = Some (map of_account l) ->
  exists s' views r,
    Heap.service_accounts h s instruction accounts = Some (s', views)
    /\ paymentInstructionService h (PayloadObject instruction (IsArray l)) = Ret r
    /\ fresh_views s s' views (r_accounts r).
Proof.
  intro Hsnap. assert (Hacc := proj1 (snapshot_holds _ _ _) Hsnap).
  unfold Heap.service_accounts.
  destruct (parseInstruction instruction) as [p|f] eqn:Hp.
  - rewrite Hsnap, validateBusinessRules_cascade.
    destruct (Rules.outcome _) as [|msg code] eqn:Hv.
    + assert (Hvalid : validateBusinessRules h p (IsArray (map of_account l)) = Ret Valid)
        by (now rewrite validateBusinessRules_cascade, Hv).
      destruct (executeTransaction_spec h s p accounts _ Hacc) as (s' & views & Hrun & Hfv).
      rewrite Hrun. exists s', views. eexists. split.
      { now destruct (shouldExecuteNow h (p_execute_by p)). }
      split; [exact (service_valid _ _ _ _ Hp Hvalid)|].
      destruct (shouldExecuteNow h (p_execute_by p)); exact Hfv.
    + assert (Hinvalid : validateBusinessRules h p (IsArray (map of_account l))
                         = Ret (Invalid msg code))
        by (now rewrite validateBusinessRules_cascade, Hv).
      destruct (createAccountsResponse_spec s accounts _
                  (p_debit_account p) (p_credit_account p) false Hacc) as (s' & Hrun & Hfv).
      rewrite Hrun. exists s', (length s). eexists. split; [reflexivity|].
      split; [exact (service_invalid _ _ _ _ _ _ Hp Hinvalid)|]. exact Hfv.
  - exists (s ++ [ObjArray []]), (length s). eexists. split; [reflexivity|].
    split; [reflexivity|].
    unfold service_body. cbn [array_truthy negb orb].
    destruct (negb (js_truthy instruction)); [apply fresh_views_empty|].
    rewrite Hp. apply fresh_views_empty.
Qed.

Lemma fresh_views_frame (s s' : store) (views : loc) vs :
  fresh_views s s' views vs ->
  (forall a o, s !! a = Some o -> s' !! a = Some o)
  /\ s !! views = None
  /\ (exists xs, s' !! views = Some (ObjArray xs) /\ Forall (fun x => s !! x = None) xs)
  /\ read_views s' views = Some vs.
Proof.
  intros ((ext & ->) & Hle & (xs & Hxs & Hfresh) & Hread).
  split; [intros a o; apply lookup_app_l_Some|].
  split; [now apply lookup_ge_None|].
  split; [|exact Hread]. exists xs. split; [exact Hxs|].
  eapply Forall_impl; [exact Hfresh|]. intros x Hx. now apply lookup_ge_None.
Qed.

Lemma snapshot_frame (s s' : store) (accounts : loc) objs :
  (forall a o, s !! a = Some o -> s' !! a = Some o) ->
  snapshot s accounts = Some objs -> snapshot s' accounts = Some objs.
Proof.
  intros Hframe Hsnap. apply snapshot_holds. apply snapshot_holds in Hsnap.
  destruct Hsnap as (elems & Harr & Hobjs). exists elems. split; [now apply Hframe|].
  eapply Forall2_impl; [exact Hobjs|]. intros a o Ha. now apply Hframe.
Qed.

End HeapProperties.

Section Unsettled.

(** A response that does not say [successful] lists no account, or lists
    the involved accounts as the snapshot has them. *)
Lemma service_not_successful h payload r :
  paymentInstructionService h payload = Ret r ->
  r_status r <> successful ->
  r_accounts r = []
  \/ exists instruction l p,
       payload = PayloadObject instruction (IsArray l)
       /\ parseInstruction instruction = ParseOk p
       /\ r_accounts r = untouched_views l p.
Proof.
  unfold paymentInstructionService. intros [= <-] Hs.
  destruct payload as [|instruction accounts]; [now left|].
  unfold service_body in Hs |- *.
  destruct (negb (array_truthy accounts) || negb (js_truthy instruction)); [now left|].
  destruct (parseInstruction instruction) as [p|f] eqn:Hp; [|now left].
  destruct accounts as [| | l]; cbn [array_map] in Hs |- *.
  - destruct (validateBusinessRules h p NotArrayFalsy) as [[|msg code]|];
      cbn [bind try_catch]; unfold executeTransaction;
      try destruct (shouldExecuteNow h (p_execute_by p)); now left.
  - destruct (validateBusinessRules h p NotArrayTruthy) as [[|msg code]|];
      cbn [bind try_catch]; unfold executeTransaction;
      try destruct (shouldExecuteNow h (p_execute_by p)); now left.
  - destruct (validateBusinessRules h p (IsArray (map of_account l))) as [[|msg code]|];
      cbn [bind try_catch] in Hs |- *; [| |now left].
    + unfold executeTransaction in Hs |- *.
      destruct (shouldExecuteNow h (p_execute_by p)); [now contradiction Hs|].
      right. now exists instruction, l, p.
    + right. now exists instruction, l, p.
Qed.

End Unsettled.

(** C5.  On the deferred path and on every failure path no balance
    changes: a response that does not say [successful] returns each account
    with [balance_before] equal to its balance, both equal to the balance of
    the snapshot account it was made from.  On every path, success
    included, the store of the caller is left as it was: every object it
    held, the list of accounts and the account records among them, holds
    the same value afterwards; the list the response returns and each of
    its entries are objects that did not exist before the call; and those
    entries read back as the accounts of the response. *)
Theorem C5_accounts_never_mutated :
  (forall h payload r,
     paymentInstructionService h payload = Ret r ->
     r_status r <> successful ->
     Forall (fun v => view_balance_before v = view_balance v) (r_accounts r)
     /\ forall instruction l,
          payload = PayloadObject instruction (IsArray l) ->
          forall v, In v (r_accounts r) -> exists a, In a l /\ untouched a v)
  /\
  (forall h (s : list Heap.Obj) instruction (accounts : nat) (l : list Account),
     Heap.snapshot s accounts = Some (map of_account l) ->
     exists s' views r,
       Heap.service_accounts h s instruction accounts = Some (s', views)
       /\ paymentInstructionService h (PayloadObject instruction (IsArray l)) = Ret r
       /\ (forall a o, s !! a = Some o -> s' !! a = Some o)
       /\ Heap.snapshot s' accounts = Some (map of_account l)
       /\ s !! views = None
       /\ (exists xs, s' !! views = Some (Heap.ObjArray xs)
                      /\ Forall (fun x => s !! x = None) xs)
       /\ Heap.read_views s' views = Some (r_accounts r)).
Proof.
  split.
  - intros h payload r Hr Hs.
    destruct (service_not_successful _ _ _ Hr Hs) as [-> | (instruction & l & p & -> & Hp & ->)].
    + split; [constructor|]. intros _ _ _ v [].
    + assert (HF := untouched_views_untouched l p). split.
      * clear -HF. induction HF as [|a v la lv (_ & _ & Hb & Hbal) _ IH]; constructor;
          [congruence | exact IH].
      * intros instruction' l' [= _ <-] v Hv.
        destruct (Forall2_In_r _ _ _ _ HF Hv) as (a & Ha & Hu).
        exists a. split; [|exact Hu]. now apply filter_In in Ha as [Ha _].
  - intros h s instruction accounts l Hsnap.
    destruct (service_accounts_spec h s instruction accounts l Hsnap)
      as (s' & views & r & Hrun & Hr & Hfv).
    apply fresh_views_frame in Hfv as (Hframe & Hnew & Hxs & Hread).
    exists s', views, r. repeat split; try assumption.
    now apply (snapshot_frame s s').
Qed.

Lemma C5_accounts_never_mutated_witness :
  (let r := try_catch (service_body (example_host 0) deferred_payload) malformed_response in
   Forall (fun v => view_balance_before v = view_balance v) (r_accounts r)
   /\ forall instruction l,
        deferred_payload = PayloadObject instruction (IsArray l) ->
        forall v, In v (r_accounts r) -> exists a, In a l /\ untouched a v)
  /\
  (let s := fst (Heap.store_of example_accounts) in
   let accounts := snd (Heap.store_of example_accounts) in
   exists s' views r,
     Heap.service_accounts (example_host 0) s example_instruction accounts = Some (s', views)
     /\ paymentInstructionService (example_host 0)
          (PayloadObject example_instruction (IsArray example_accounts)) = Ret r
     /\ (forall a o, s !! a = Some o -> s' !! a = Some o)
     /\ Heap.snapshot s' accounts = Some (map of_account example_accounts)
     /\ s !! views = None
     /\ (exists xs, s' !! views = Some (Heap.ObjArray xs)
                    /\ Forall (fun x => s !! x = None) xs)
     /\ Heap.read_views s' views = Some (r_accounts r)).
Proof.
  split.
  - apply (proj1 C5_accounts_never_mutated (example_host 0) deferred_payload);
      [reflexivity | vm_compute; discriminate].
  - apply (proj2 C5_accounts_never_mutated (example_host 0)
             (fst (Heap.store_of example_accounts)) example_instruction
             (snd (Heap.store_of example_accounts)) example_accounts).
    vm_compute. reflexivity.
Defined.


(** * Further properties of the code *)

(** ** Keyword locator *)

Section FirstMatch.

Lemma findKeywordIndex_loop_least parts keyword n : forall i,
  let r := findKeywordIndex_loop parts keyword i n in
  (r = -1 -> forall j, i <= j < i + Z.of_nat n -> js_index parts j <> Some keyword)
  /\ (r <> -1 -> forall j, i <= j < r -> js_index parts j <> Some keyword).
Proof.
  induction n as [|k IH]; intro i; cbn [findKeywordIndex_loop].
  - split; [intros _ j Hj; lia | intros H; contradiction].
  - destruct (IH (i + 1)) as [IHn IHf].
    assert (Hstep : js_index parts i <> Some keyword ->
      (findKeywordIndex_loop parts keyword (i + 1) k = -1 ->
       forall j, i <= j < i + Z.of_nat (S k) -> js_index parts j <> Some keyword)
      /\ (findKeywordIndex_loop parts keyword (i + 1) k <> -1 ->
          forall j, i <= j < findKeywordIndex_loop parts keyword (i + 1) k ->
                    js_index parts j <> Some keyword)).
    { intro Hi. split.
      - intros Hr j Hj. destruct (Z.eq_dec j i) as [-> | Hne]; [exact Hi|].
        apply (IHn Hr). lia.
      - intros Hr j Hj. destruct (Z.eq_dec j i) as [-> | Hne]; [exact Hi|].
        apply (IHf Hr). lia. }
    destruct (js_index parts i) as [p|] eqn:Hp.
    + destruct (String.eqb p keyword) eqn:He.
      * split; [|intros _ j Hj; lia].
        intros ->. unfold js_index in Hp. discriminate Hp.
      * apply Hstep. intros [= ->]. rewrite String.eqb_refl in He. discriminate He.
    + apply Hstep. discriminate.
Qed.

(** The locator answers with the first index, from [startFrom] on, at which
    the keyword stands, and with -1 exactly when there is none. *)
Lemma findKeywordIndex_least parts keyword startFrom :
  let r := findKeywordIndex parts keyword startFrom in
  (r = -1 /\ forall j, startFrom <= j -> js_index parts j <> Some keyword)
  \/ (startFrom <= r /\ 0 <= r < js_length parts /\ js_index parts r = Some keyword
      /\ forall j, startFrom <= j < r -> js_index parts j <> Some keyword).
Proof.
  cbv zeta.
  destruct (findKeywordIndex_loop_least parts keyword
              (Z.to_nat (js_length parts - startFrom)) startFrom) as [Hn Hf].
  fold (findKeywordIndex parts keyword startFrom) in Hn, Hf.
  destruct (findKeywordIndex_cases parts keyword startFrom) as [Hr | (H1 & H2 & H3)].
  - left. split; [exact Hr|]. intros j Hj.
    destruct (Z.lt_ge_cases j (js_length parts)) as [Hlt | Hge].
    + apply (Hn Hr). lia.
    + unfold js_index. destruct (j <? 0); [discriminate|].
      assert (Hnone : nth_error parts (Z.to_nat j) = None)
        by (apply nth_error_None; unfold js_length in Hge; lia).
      rewrite Hnone. discriminate.
  - right. repeat split; try assumption; try lia.
    apply Hf. lia.
Qed.

Lemma js_index_negative {A} (parts : list A) j : j < 0 -> js_index parts j = None.
Proof. intro H. unfold js_index. now apply Z.ltb_lt in H as ->. Qed.

Lemma findKeywordIndex_from_sentinel parts keyword startFrom :
  startFrom <= 0 ->
  findKeywordIndex parts keyword startFrom = findKeywordIndex parts keyword 0.
Proof.
  intro Hs.
  destruct (findKeywordIndex_least parts keyword startFrom)
    as [(Hr & Hn) | (H1 & H2 & H3 & H4)];
    destruct (findKeywordIndex_least parts keyword 0)
      as [(Hr0 & Hn0) | (G1 & G2 & G3 & G4)].
  - congruence.
  - exfalso. apply (Hn (findKeywordIndex parts keyword 0)); [lia | exact G3].
  - exfalso. apply (Hn0 (findKeywordIndex parts keyword startFrom)); [lia | exact H3].
  - destruct (Z.lt_trichotomy (findKeywordIndex parts keyword startFrom)
                              (findKeywordIndex parts keyword 0)) as [Hlt | [Heq | Hgt]].
    + exfalso. apply (G4 (findKeywordIndex parts keyword startFrom)); [lia | exact H3].
    + exact Heq.
    + exfalso. apply (H4 (findKeywordIndex parts keyword 0)); [lia | exact G3].
Qed.

End FirstMatch.

(** X1.  [findKeywordIndex] answers with the first index, from [startFrom]
    on, at which the keyword stands, and with -1 exactly when the keyword
    stands at no index from [startFrom] on. *)
Theorem X1_findKeywordIndex_first_match (parts : list string) (keyword : string)
    (startFrom : Z) :
  let r := findKeywordIndex parts keyword startFrom in
  (r = -1 /\ forall j, startFrom <= j -> js_index parts j <> Some keyword)
  \/ (startFrom <= r /\ 0 <= r < js_length parts /\ js_index parts r = Some keyword
      /\ forall j, startFrom <= j < r -> js_index parts j <> Some keyword).
Proof. apply findKeywordIndex_least. Qed.

(** X2.  A search that starts at the sentinel -1 (the previous anchor was
    not found), or anywhere before the sentence, is the search from its
    start: a later anchor still resolves when an earlier one is missing. *)
Theorem X2_search_from_sentinel (parts : list string) (keyword : string) (startFrom : Z) :
  startFrom <= 0 ->
  findKeywordIndex parts keyword startFrom = findKeywordIndex parts keyword 0.
Proof. apply findKeywordIndex_from_sentinel. Qed.

Lemma X2_search_from_sentinel_witness :
  findKeywordIndex ["DEBIT"; "1"; "NGN"; "ACCOUNT"] "ACCOUNT"
    (findKeywordIndex ["DEBIT"; "1"; "NGN"; "ACCOUNT"] "FROM" 0)
  = findKeywordIndex ["DEBIT"; "1"; "NGN"; "ACCOUNT"] "ACCOUNT" 0.
Proof.
  apply (X2_search_from_sentinel ["DEBIT"; "1"; "NGN"; "ACCOUNT"] "ACCOUNT").
  vm_compute. discriminate.
Defined.

(** ** Tokens *)

Section Tokens.

Lemma eqb_space_upper_char c : Ascii.eqb (upper_char c) " " = Ascii.eqb c " ".
Proof. destruct c as [[] [] [] [] [] [] [] []]; reflexivity. Qed.

Lemma space_is_space c : Ascii.eqb c " " = true -> is_space c = true.
Proof. intro H. apply Ascii.eqb_eq in H. now subst c. Qed.

(** Case folding does not move the spaces. *)
Lemma split_space_toUpperCase s :
  split_space (toUpperCase s) = map toUpperCase (split_space s).
Proof.
  unfold split_space. induction s as [|c s IH]; [reflexivity|].
  cbn [toUpperCase split_char]. rewrite eqb_space_upper_char, IH.
  destruct (Ascii.eqb c " "); [reflexivity|].
  destruct (split_char " " s); reflexivity.
Qed.

(** The tokens are the words [extractAccountId] reads, case-folded. *)
Lemma tokens_original text :
  tokens text = map toUpperCase (split_space (collapse_spaces (trim text))).
Proof. unfold tokens, normalize. apply split_space_toUpperCase. Qed.

Lemma only_space_collapse b s : only_space (collapse_from b s) = true.
Proof.
  unfold only_space. revert b; induction s as [|c s IH]; intro b; [reflexivity|].
  cbn [collapse_from]. destruct (is_space c) eqn:Hc; [destruct b|]; cbn [all_chars].
  - apply IH.
  - now rewrite IH.
  - now rewrite Hc, IH.
Qed.

Lemma trimEnd_fixed_cons c s :
  trimEnd (String c s) = String c s ->
  (s = "" /\ is_space c = false) \/ (s <> "" /\ trimEnd s = s).
Proof.
  cbn [trimEnd]. destruct (trimEnd s) as [|d r] eqn:Hr.
  - destruct (is_space c); [discriminate|]. intros [= <-]. now left.
  - intros [= <-]. right. split; [discriminate | reflexivity].
Qed.

Lemma well_spaced_collapse s : forall b,
  trimEnd s = s -> s <> "" -> well_spaced b (collapse_from b s) = true.
Proof.
  induction s as [|c s IH]; intros b Hfix Hne; [contradiction|].
  destruct (trimEnd_fixed_cons _ _ Hfix) as [[-> Hc] | [Hs Hfs]]; cbn [collapse_from].
  - rewrite Hc. cbn. now rewrite Hc.
  - destruct (is_space c) eqn:Hc; [destruct b|].
    + now apply IH.
    + cbn [well_spaced]. replace (is_space " ") with true by reflexivity.
      cbn [negb andb]. now apply IH.
    + cbn [well_spaced]. rewrite Hc. now apply IH.
Qed.

Lemma well_spaced_start s :
  trimStart s = s -> well_spaced false s = true -> s <> "" -> well_spaced true s = true.
Proof.
  destruct s as [|c s]; [contradiction|]. cbn [trimStart well_spaced].
  destruct (is_space c) eqn:Hc; [|tauto].
  intros H _ _. exfalso.
  assert (Hlen : forall u, (String.length (trimStart u) <= String.length u)%nat).
  { induction u as [|d u IHu]; cbn; [lia|]. destruct (is_space d); cbn; lia. }
  specialize (Hlen s). rewrite H in Hlen. cbn in Hlen. lia.
Qed.

(** The string the tokenizer splits, before case folding: empty, or
    single-spaced with no space at either end. *)
Lemma normal_form text :
  let t := collapse_spaces (trim text) in
  only_space t = true /\ (t = "" \/ well_spaced true t = true).
Proof.
  cbv zeta. split; [apply only_space_collapse|].
  destruct (collapse_spaces (trim text)) as [|c r] eqn:Ht; [now left | right].
  rewrite <- Ht.
  assert (Hu : trim text <> "") by (intro E; rewrite E in Ht; discriminate Ht).
  apply well_spaced_start.
  - apply trimStart_collapse_fixed, trimStart_trim.
  - apply well_spaced_collapse; [|exact Hu]. unfold trim. apply trimEnd_idem.
  - rewrite Ht. discriminate.
Qed.

Lemma is_word_cons c w :
  is_space c = false -> all_chars (fun c => negb (is_space c)) w = true ->
  is_word (String c w) = true.
Proof. intros Hc Hw. unfold is_word. cbn. now rewrite Hc, Hw. Qed.

(** Splitting a single-spaced string gives words, except that the first
    piece is empty when the string opens with its separator. *)
Lemma split_well_spaced s : forall prev,
  only_space s = true -> well_spaced prev s = true ->
  exists first rest,
    split_space s = first :: rest
    /\ all_chars (fun c => negb (is_space c)) first = true
    /\ Forall (fun w => is_word w = true) rest
    /\ (prev = true -> first <> "").
Proof.
  unfold split_space, only_space.
  induction s as [|c s IH]; intros prev Ho Hw.
  - exists "", []. cbn in *. repeat split; [constructor|].
    intros ->. discriminate Hw.
  - cbn [all_chars] in Ho. apply andb_true_iff in Ho as [Hc Ho].
    cbn [well_spaced] in Hw. cbn [split_char].
    destruct (is_space c) eqn:Hs.
    + cbn in Hc. rewrite Hc. apply andb_true_iff in Hw as [Hp Hw].
      destruct (IH true Ho Hw) as (f & r & Hsplit & Hf & Hr & Hne).
      exists "", (f :: r). rewrite Hsplit. repeat split.
      * constructor; [|exact Hr]. unfold is_word. rewrite Hf, andb_true_r.
        destruct f; [now contradiction Hne | reflexivity].
      * intros ->. discriminate Hp.
    + assert (He : Ascii.eqb c " " = false).
      { destruct (Ascii.eqb c " ") eqn:E; [|reflexivity].
        apply space_is_space in E. congruence. }
      rewrite He. destruct (IH false Ho Hw) as (f & r & Hsplit & Hf & Hr & _).
      rewrite Hsplit. exists (String c f), r. repeat split; try assumption.
      * cbn. now rewrite Hs, Hf.
      * discriminate.
Qed.

Lemma toUpperCase_word w : is_word w = true -> is_word (toUpperCase w) = true.
Proof.
  unfold is_word. intro H. apply andb_true_iff in H as [Ht Hw].
  apply andb_true_iff. split; [now destruct w|].
  clear Ht. induction w as [|c w IH]; [reflexivity|].
  cbn in *. rewrite is_space_upper_char.
  apply andb_true_iff in Hw as [-> Hw]. now rewrite IH.
Qed.

(** The tokens of an instruction: one empty token when the instruction is
    white space only, otherwise upper-case words. *)
Lemma tokens_words text :
  (trim text = "" /\ tokens text = [""])
  \/ Forall (fun w => is_word w = true /\ toUpperCase w = w) (tokens text).
Proof.
  destruct (normal_form text) as [Ho Hw]. cbv zeta in *.
  rewrite tokens_original.
  destruct Hw as [Ht | Hw].
  - left. rewrite Ht. split; [|reflexivity].
    destruct (trim text) as [|c r] eqn:Hu; [reflexivity|]. exfalso.
    unfold collapse_spaces in Ht. cbn in Ht.
    destruct (is_space c); discriminate Ht.
  - right. destruct (split_well_spaced _ true Ho Hw) as (f & r & -> & Hf & Hr & Hne).
    cbn [map]. constructor.
    + split; [|apply toUpperCase_idem]. apply toUpperCase_word.
      unfold is_word. rewrite Hf, andb_true_r. destruct f; [now contradiction Hne | reflexivity].
    + clear -Hr. induction Hr as [|w r Hw _ IH]; cbn [map]; constructor; [|exact IH].
      split; [now apply toUpperCase_word | apply toUpperCase_idem].
Qed.

End Tokens.

(** X3.  The tokens the parser works on are upper-case words, none empty
    and none with white space in it; the one exception is an instruction of
    white space only, which has the single empty token. *)
Theorem X3_tokens_are_words (text : string) :
  (trim text = "" /\ tokens text = [""])
  \/ Forall (fun w => is_word w = true /\ toUpperCase w = w) (tokens text).
Proof. apply tokens_words. Qed.

(** ** Account identifiers and the case of the instruction *)

Section OriginalCase.

Lemma part_map_toUpperCase (l : list string) pos :
  part (map toUpperCase l) pos = toUpperCase (part l pos).
Proof.
  unfold part. rewrite js_index_map. now destruct (js_index l pos).
Qed.

Lemma js_index_beyond {A} (l : list A) pos : js_length l <= pos -> js_index l pos = None.
Proof.
  intro H. unfold js_index. destruct (pos <? 0); [reflexivity|].
  apply nth_error_None. unfold js_length in H. lia.
Qed.

(** [extractAccountId] reads the word of the instruction at the position,
    in its original case; there is none beyond the last word. *)
Lemma extractAccountId_original text pos :
  extractAccountId text pos (tokens text)
  = part (split_space (collapse_spaces (trim text))) pos.
Proof.
  unfold extractAccountId. rewrite tokens_original.
  set (orig := split_space (collapse_spaces (trim text))).
  destruct (pos <? js_length orig) eqn:Hlt; [reflexivity|].
  apply Z.ltb_ge in Hlt. unfold part.
  rewrite (js_index_beyond orig pos Hlt).
  rewrite js_index_beyond; [reflexivity|].
  unfold js_length in *. now rewrite length_map.
Qed.

Lemma normalize_idem s : normalize (normalize s) = normalize s.
Proof.
  unfold normalize. destruct (trim_collapse_fixed s) as [Ht Hc].
  unfold trim in *. rewrite <- toUpperCase_trimStart, <- toUpperCase_trimEnd.
  unfold collapse_spaces in *. rewrite <- toUpperCase_collapse.
  rewrite Ht, Hc. apply toUpperCase_idem.
Qed.

Lemma normalize_fixed s :
  collapse_spaces (trim (normalize s)) = normalize s.
Proof.
  unfold normalize. destruct (trim_collapse_fixed s) as [Ht Hc].
  unfold trim in *. rewrite <- toUpperCase_trimStart, <- toUpperCase_trimEnd.
  unfold collapse_spaces in *. rewrite <- toUpperCase_collapse.
  now rewrite Ht, Hc.
Qed.

Lemma tokens_normalize s : tokens (normalize s) = tokens s.
Proof. unfold tokens. now rewrite normalize_idem. Qed.

Lemma extractAccountId_normalize text pos :
  extractAccountId (normalize text) pos (tokens text)
  = toUpperCase (extractAccountId text pos (tokens text)).
Proof.
  rewrite <- (tokens_normalize text) at 1. rewrite !extractAccountId_original.
  rewrite normalize_fixed. fold (tokens text). rewrite tokens_original.
  apply part_map_toUpperCase.
Qed.

Lemma normalize_empty text : normalize text = "" -> js_length (tokens text) < 8.
Proof. intro H. unfold tokens. rewrite H. vm_compute. reflexivity. Qed.

(** Parsing the normalized instruction gives the parse of the instruction
    with the account identifiers case-folded. *)
Lemma parseInstruction_normalize text :
  parseInstruction (JsString (normalize text)) = upper_accounts (parseInstruction (JsString text)).
Proof.
  unfold parseInstruction.
  fold (normalize (normalize text)). fold (normalize text).
  rewrite normalize_idem. fold (tokens text).
  destruct (truthy (normalize text)) eqn:Hn.
  - assert (Ht : truthy text = true).
    { destruct text; [discriminate Hn | reflexivity]. }
    rewrite Ht. cbn [negb].
    destruct (js_length (tokens text) <? 8); [reflexivity|].
    destruct (String.eqb (part (tokens text) 0) "DEBIT").
    + unfold parseDebitInstruction.
      destruct (_ || _); [reflexivity|]. destruct (negb _); [reflexivity|].
      cbn [upper_accounts with_type p_type p_amount p_currency p_debit_account
             p_credit_account p_execute_by d_amount d_currency d_debit_account
             d_credit_account d_execute_by].
      now rewrite !extractAccountId_normalize.
    + destruct (String.eqb (part (tokens text) 0) "CREDIT"); [|reflexivity].
      unfold parseCreditInstruction.
      destruct (_ || _); [reflexivity|]. destruct (negb _); [reflexivity|].
      cbn [upper_accounts with_type p_type p_amount p_currency p_debit_account
             p_credit_account p_execute_by d_amount d_currency d_debit_account
             d_credit_account d_execute_by].
      now rewrite !extractAccountId_normalize.
  - assert (He : normalize text = "") by (destruct (normalize text); [reflexivity | discriminate]).
    apply normalize_empty in He. apply Z.ltb_lt in He. rewrite He.
    cbn [negb]. now destruct (truthy text).
Qed.

Lemma tokens_empty_text : js_length (tokens "") < 8.
Proof. vm_compute. reflexivity. Qed.

(** [parseInstruction] answers SY03 for what is not a string of at least
    8 tokens, and for nothing else. *)
Lemma parseInstruction_SY03 instruction :
  parse_code (parseInstruction instruction) = Some SY03
  <-> (forall text, instruction = JsString text -> js_length (tokens text) < 8).
Proof.
  split.
  - intros H text ->. unfold parseInstruction in H.
    destruct (truthy text) eqn:Ht.
    2:{ destruct text; [apply tokens_empty_text | discriminate Ht]. }
    cbn [negb] in H. fold (normalize text) in H. fold (tokens text) in H.
    destruct (js_length (tokens text) <? 8) eqn:Hl; [now apply Z.ltb_lt|].
    exfalso. destruct (String.eqb (part (tokens text) 0) "DEBIT").
    + assert (Hc := parseDebitInstruction_code (tokens text) text).
      destruct (parseDebitInstruction (tokens text) text); cbn [parse_code] in *;
        [discriminate H|].
      rewrite H in Hc. destruct (negb _); [discriminate Hc|].
      destruct (negb _); discriminate Hc.
    + destruct (String.eqb (part (tokens text) 0) "CREDIT"); [|discriminate H].
      assert (Hc := parseCreditInstruction_code (tokens text) text).
      destruct (parseCreditInstruction (tokens text) text); cbn [parse_code] in *;
        [discriminate H|].
      rewrite H in Hc. destruct (negb _); [discriminate Hc|].
      destruct (negb _); discriminate Hc.
  - intro Hshort. destruct instruction as [| | b | n | text |]; try reflexivity.
    unfold parseInstruction. destruct (truthy text); [|reflexivity]. cbn [negb].
    fold (normalize text). fold (tokens text).
    specialize (Hshort text eq_refl). apply Z.ltb_lt in Hshort. now rewrite Hshort.
Qed.

End OriginalCase.

(** X4.  [extractAccountId] returns the word of the instruction at the
    position in its original case: its upper-case form is the token at that
    position, and it is the empty string when there is no token there. *)
Theorem X4_extractAccountId_original_case (text : string) (pos : Z) :
  let word := extractAccountId text pos (tokens text) in
  word = part (split_space (collapse_spaces (trim text))) pos
  /\ toUpperCase word = part (tokens text) pos
  /\ (js_index (tokens text) pos = None -> word = "").
Proof.
  cbv zeta. rewrite extractAccountId_original. split; [reflexivity|]. split.
  - rewrite tokens_original. symmetry. apply part_map_toUpperCase.
  - rewrite tokens_original, js_index_map. unfold part.
    now destruct (js_index _ pos).
Qed.

Lemma X4_extractAccountId_original_case_witness :
  extractAccountId "debit 1 ngn from account" 9 (tokens "debit 1 ngn from account") = "".
Proof.
  apply (proj2 (proj2 (X4_extractAccountId_original_case "debit 1 ngn from account" 9))).
  vm_compute. reflexivity.
Defined.

(** X5.  Keywords, amount, currency and date are matched without regard to
    case and to the amount of white space: parsing the normalized
    instruction gives the same result as parsing the instruction, except
    that the account identifiers, which keep the case they were written in,
    come out upper-cased. *)
Theorem X5_parse_of_normalized (text : string) :
  parseInstruction (JsString (normalize text)) = upper_accounts (parseInstruction (JsString text)).
Proof. apply parseInstruction_normalize. Qed.

(** X6.  [parseInstruction] answers SY03 exactly for an instruction that is
    not a string or has fewer than 8 tokens (the empty string has one, the
    empty token). *)
Theorem X6_SY03_exactly_when_short (instruction : JsValue) :
  parse_code (parseInstruction instruction) = Some SY03
  <-> (forall text, instruction = JsString text -> js_length (tokens text) < 8).
Proof. apply parseInstruction_SY03. Qed.

(** ** Well-formed sentences *)

Section Sentences.

Lemma word_chars c w : is_word (String c w) = true ->
  is_space c = false /\ all_chars (fun c => negb (is_space c)) w = true.
Proof.
  unfold is_word. cbn. intro H. apply andb_true_iff in H as [H1 H2].
  apply negb_true_iff in H1. auto.
Qed.

Lemma not_space_eqb c : is_space c = false -> Ascii.eqb c " " = false.
Proof.
  intro H. destruct (Ascii.eqb c " ") eqn:E; [|reflexivity].
  apply space_is_space in E. congruence.
Qed.

(** A word followed by more text. *)
Lemma trimEnd_app_word w s :
  all_chars (fun c => negb (is_space c)) w = true -> trimEnd s = s -> s <> "" ->
  trimEnd (w ++ s) = w ++ s.
Proof.
  intros Hw Hs Hne. induction w as [|c w IH]; [exact Hs|].
  cbn in Hw. apply andb_true_iff in Hw as [Hc Hw]. specialize (IH Hw).
  cbn [append trimEnd]. rewrite IH.
  destruct (w ++ s) eqn:E; [|reflexivity].
  destruct w; cbn in E; [contradiction | discriminate].
Qed.

Lemma trimEnd_word w : is_word w = true -> trimEnd w = w.
Proof.
  unfold is_word. intro H. apply andb_true_iff in H as [_ Hw].
  induction w as [|c w IH]; [reflexivity|].
  cbn in Hw. apply andb_true_iff in Hw as [Hc Hw]. apply negb_true_iff in Hc.
  cbn [trimEnd]. rewrite (IH Hw), Hc. now destruct w.
Qed.

Lemma collapse_app_word w s b :
  is_word w = true -> collapse_from b (w ++ s) = w ++ collapse_from false s.
Proof.
  destruct w as [|c w]; [discriminate|]. intro H. apply word_chars in H as [Hc Hw].
  cbn [append collapse_from]. rewrite Hc. f_equal.
  induction w as [|d w IH]; [reflexivity|].
  cbn in Hw. apply andb_true_iff in Hw as [Hd Hw]. apply negb_true_iff in Hd.
  cbn [append collapse_from]. rewrite Hd. f_equal. exact (IH Hw).
Qed.

Lemma collapse_word w :
  all_chars (fun c => negb (is_space c)) w = true -> collapse_spaces w = w.
Proof.
  unfold collapse_spaces. intro Hw. induction w as [|c w IH]; [reflexivity|].
  cbn in Hw. apply andb_true_iff in Hw as [Hc Hw]. apply negb_true_iff in Hc.
  cbn [collapse_from]. now rewrite Hc, (IH Hw).
Qed.

Lemma split_app_word w s :
  all_chars (fun c => negb (is_space c)) w = true ->
  split_space (w ++ String " " s) = w :: split_space s.
Proof.
  unfold split_space. intro Hw. induction w as [|c w IH]; [reflexivity|].
  cbn in Hw. apply andb_true_iff in Hw as [Hc Hw]. apply negb_true_iff in Hc.
  cbn [append split_char]. now rewrite (not_space_eqb c Hc), (IH Hw).
Qed.

Lemma split_word w :
  all_chars (fun c => negb (is_space c)) w = true -> split_space w = [w].
Proof.
  unfold split_space. intro Hw. induction w as [|c w IH]; [reflexivity|].
  cbn in Hw. apply andb_true_iff in Hw as [Hc Hw]. apply negb_true_iff in Hc.
  cbn [split_char]. now rewrite (not_space_eqb c Hc), (IH Hw).
Qed.

Lemma join_space_cons w1 w2 rest :
  join_space (w1 :: w2 :: rest) = w1 ++ String " " (join_space (w2 :: rest)).
Proof. reflexivity. Qed.

(** A sentence written with single spaces is read back word for word. *)
Lemma join_space_fixed words :
  Forall (fun w => is_word w = true) words -> words <> [] ->
  join_space words <> ""
  /\ trimStart (join_space words) = join_space words
  /\ trimEnd (join_space words) = join_space words
  /\ collapse_spaces (join_space words) = join_space words
  /\ split_space (join_space words) = words.
Proof.
  induction 1 as [|w words Hw HF IH]; [contradiction|]. intros _.
  assert (Hw' := Hw). destruct w as [|c w]; [discriminate|].
  apply word_chars in Hw' as [Hc Hcs].
  assert (Hall : all_chars (fun c => negb (is_space c)) (String c w) = true)
    by (cbn; now rewrite Hc, Hcs).
  destruct words as [|w2 rest].
  - cbn [join_space]. split; [discriminate|]. split; [cbn; now rewrite Hc|].
    split; [now apply trimEnd_word|]. split.
    + apply collapse_word. exact Hall.
    + now apply split_word.
  - destruct IH as (Hne & Hs & He & Hcol & Hsplit); [discriminate|].
    rewrite join_space_cons. set (r := join_space (w2 :: rest)) in *.
    split; [discriminate|]. split; [cbn; now rewrite Hc|]. split; [|split].
    + apply trimEnd_app_word; [exact Hall| |discriminate].
      cbn [trimEnd]. rewrite He. destruct r; [contradiction | reflexivity].
    + unfold collapse_spaces in *. rewrite collapse_app_word by exact Hw.
      cbn [collapse_from]. replace (is_space " ") with true by reflexivity.
      f_equal. f_equal.
      destruct r as [|d r']; [contradiction|]. cbn [trimStart] in Hs.
      cbn [collapse_from] in Hcol |- *.
      destruct (is_space d) eqn:Hd; [|exact Hcol].
      exfalso.
      assert (Hlen : forall u, (String.length (trimStart u) <= String.length u)%nat).
      { induction u as [|e u IHu]; cbn; [lia|]. destruct (is_space e); cbn; lia. }
      specialize (Hlen r'). rewrite Hs in Hlen. cbn in Hlen. lia.
    + rewrite split_app_word by exact Hall. now rewrite Hsplit.
Qed.

Lemma tokens_join_space words :
  Forall (fun w => is_word w = true) words -> words <> [] ->
  split_space (collapse_spaces (trim (join_space words))) = words
  /\ tokens (join_space words) = map toUpperCase words.
Proof.
  intros HF Hne. destruct (join_space_fixed words HF Hne) as (_ & Hs & He & Hc & Hsplit).
  assert (H : split_space (collapse_spaces (trim (join_space words))) = words).
  { unfold trim. now rewrite Hs, He, Hc. }
  split; [exact H|]. now rewrite tokens_original, H.
Qed.

End Sentences.

Section SentenceParse.

Variables amount currency acct1 acct2 : string.
Hypothesis amount_word : is_word amount = true.
Hypothesis currency_word : is_word currency = true.
Hypothesis acct1_word : is_word acct1 = true.
Hypothesis acct2_word : is_word acct2 = true.
Hypothesis amount_plain : is_keyword (toUpperCase amount) = false.
Hypothesis currency_plain : is_keyword (toUpperCase currency) = false.
Hypothesis acct1_plain : is_keyword (toUpperCase acct1) = false.
Hypothesis acct2_plain : is_keyword (toUpperCase acct2) = false.

Lemma blank_plain w : is_keyword w = false -> blank w = "_".
Proof. intro H. unfold blank. now rewrite H. Qed.

Local Ltac locate :=
  rewrite <- findKeywordIndex_blank by reflexivity;
  cbn [map sentence date_clause app];
  rewrite ?(blank_plain _ amount_plain), ?(blank_plain _ currency_plain),
    ?(blank_plain _ acct1_plain), ?(blank_plain _ acct2_plain);
  repeat match goal with H : is_keyword _ = false |- _ => rewrite ?(blank_plain _ H) end;
  vm_compute; reflexivity.

Lemma sentence_parses type (date : option string) :
  match date with
  | Some d => is_word d = true /\ is_keyword (toUpperCase d) = false
  | None => True
  end ->
  parseInstruction
    (JsString (join_space (sentence type amount currency acct1 acct2 ++ date_clause date)%list))
  = ParseOk
      {| p_type := type;
         p_amount := toUpperCase amount;
         p_currency := toUpperCase currency;
         p_debit_account := match type with DEBIT => acct1 | CREDIT => acct2 end;
         p_credit_account := match type with DEBIT => acct2 | CREDIT => acct1 end;
         p_execute_by := option_map toUpperCase date |}.
Proof.
  intro Hdate.
  set (words := (sentence type amount currency acct1 acct2 ++ date_clause date)%list).
  assert (Hwords : Forall (fun w => is_word w = true) words).
  { subst words. destruct type, date as [d|]; cbn [sentence date_clause app];
      repeat (apply Forall_cons_2; [first [assumption | reflexivity | apply Hdate]|]);
      apply Forall_nil_2. }
  assert (Hne : words <> []) by (subst words; destruct type; discriminate).
  destruct (tokens_join_space words Hwords Hne) as [Horig Htok].
  destruct (join_space_fixed words Hwords Hne) as (Hjoin & _).
  unfold parseInstruction.
  replace (truthy (join_space words)) with true
    by (destruct (join_space words); [contradiction | reflexivity]).
  cbn [negb]. fold (normalize (join_space words)). fold (tokens (join_space words)).
  unfold parseDebitInstruction, parseCreditInstruction.
  rewrite !extractAccountId_original, Horig, Htok.
  subst words.
  destruct type, date as [d|];
    [destruct Hdate as [Hd Hdp] | | destruct Hdate as [Hd Hdp] | ].
  - replace (findKeywordIndex _ "FROM" 0) with 3 by (symmetry; locate).
    replace (findKeywordIndex _ "ACCOUNT" 3) with 4 by (symmetry; locate).
    replace (findKeywordIndex _ "FOR" 0) with 6 by (symmetry; locate).
    replace (findKeywordIndex _ "CREDIT" 6) with 7 by (symmetry; locate).
    replace (findKeywordIndex _ "TO" 7) with 8 by (symmetry; locate).
    replace (findKeywordIndex _ "ACCOUNT" 8) with 9 by (symmetry; locate).
    replace (findKeywordIndex _ "ON" 9) with 11 by (symmetry; locate).
    reflexivity.
  - replace (findKeywordIndex _ "FROM" 0) with 3 by (symmetry; locate).
    replace (findKeywordIndex _ "ACCOUNT" 3) with 4 by (symmetry; locate).
    replace (findKeywordIndex _ "FOR" 0) with 6 by (symmetry; locate).
    replace (findKeywordIndex _ "CREDIT" 6) with 7 by (symmetry; locate).
    replace (findKeywordIndex _ "TO" 7) with 8 by (symmetry; locate).
    replace (findKeywordIndex _ "ACCOUNT" 8) with 9 by (symmetry; locate).
    replace (findKeywordIndex _ "ON" 9) with (-1) by (symmetry; locate).
    reflexivity.
  - replace (findKeywordIndex _ "TO" 0) with 3 by (symmetry; locate).
    replace (findKeywordIndex _ "ACCOUNT" 3) with 4 by (symmetry; locate).
    replace (findKeywordIndex _ "FOR" 0) with 6 by (symmetry; locate).
    replace (findKeywordIndex _ "DEBIT" 6) with 7 by (symmetry; locate).
    replace (findKeywordIndex _ "FROM" 7) with 8 by (symmetry; locate).
    replace (findKeywordIndex _ "ACCOUNT" 8) with 9 by (symmetry; locate).
    replace (findKeywordIndex _ "ON" 9) with 11 by (symmetry; locate).
    reflexivity.
  - replace (findKeywordIndex _ "TO" 0) with 3 by (symmetry; locate).
    replace (findKeywordIndex _ "ACCOUNT" 3) with 4 by (symmetry; locate).
    replace (findKeywordIndex _ "FOR" 0) with 6 by (symmetry; locate).
    replace (findKeywordIndex _ "DEBIT" 6) with 7 by (symmetry; locate).
    replace (findKeywordIndex _ "FROM" 7) with 8 by (symmetry; locate).
    replace (findKeywordIndex _ "ACCOUNT" 8) with 9 by (symmetry; locate).
    replace (findKeywordIndex _ "ON" 9) with (-1) by (symmetry; locate).
    reflexivity.
Qed.

End SentenceParse.

(** X7.  A well-formed sentence is parsed to its fields: amount, currency
    and date upper-cased, the account identifiers as written.  In the DEBIT
    form the first identifier is the debit account and the second the
    credit account; in the CREDIT form it is the other way round. *)
Theorem X7_well_formed_sentence_parses (type : InstructionType)
    (amount currency acct1 acct2 : string) (date : option string) :
  Forall (fun w => plain_word w = true) [amount; currency; acct1; acct2] ->
  Forall (fun w => plain_word w = true) (match date with Some d => [d] | None => [] end) ->
  parseInstruction
    (JsString (join_space (sentence type amount currency acct1 acct2 ++ date_clause date)%list))
  = ParseOk
      {| p_type := type;
         p_amount := toUpperCase amount;
         p_currency := toUpperCase currency;
         p_debit_account := match type with DEBIT => acct1 | CREDIT => acct2 end;
         p_credit_account := match type with DEBIT => acct2 | CREDIT => acct1 end;
         p_execute_by := option_map toUpperCase date |}.
Proof.
  intros Hw Hd.
  assert (Hsplit : forall w, plain_word w = true ->
                     is_word w = true /\ is_keyword (toUpperCase w) = false).
  { intros w H. unfold plain_word in H. apply andb_true_iff in H as [H1 H2].
    now apply negb_true_iff in H2. }
  apply Forall_cons_1 in Hw as [Ha Hw]. apply Forall_cons_1 in Hw as [Hc Hw].
  apply Forall_cons_1 in Hw as [H1 Hw]. apply Forall_cons_1 in Hw as [H2 _].
  apply Hsplit in Ha as [? ?], Hc as [? ?], H1 as [? ?], H2 as [? ?].
  apply sentence_parses; try assumption.
  destruct date as [d|]; [|exact I].
  apply Forall_cons_1 in Hd as [Hd _]. now apply Hsplit.
Qed.

Lemma X7_well_formed_sentence_parses_witness :
  parseInstruction
    (JsString "CREDIT 500 ngn TO ACCOUNT a1 FOR DEBIT FROM ACCOUNT b2 ON 2025-01-01")
  = ParseOk {| p_type := CREDIT; p_amount := "500"; p_currency := "NGN";
               p_debit_account := "b2"; p_credit_account := "a1";
               p_execute_by := Some "2025-01-01" |}.
Proof.
  apply (X7_well_formed_sentence_parses CREDIT "500" "ngn" "a1" "b2" (Some "2025-01-01"));
    repeat (apply Forall_cons_2; [vm_compute; reflexivity|]); apply Forall_nil_2.
Defined.

(** ** Validator: edge cases *)

Section ValidatorEdges.

Lemma parseInstruction_accounts text p :
  parseInstruction (JsString text) = ParseOk p ->
  let ix := anchors (p_type p) (tokens text) in
  let first := extractAccountId text (nth 1 ix (-1) + 1) (tokens text) in
  let second := extractAccountId text (nth 5 ix (-1) + 1) (tokens text) in
  match p_type p with
  | DEBIT => p_debit_account p = first /\ p_credit_account p = second
  | CREDIT => p_credit_account p = first /\ p_debit_account p = second
  end.
Proof.
  unfold parseInstruction. destruct (truthy text); [|discriminate]. cbn [negb].
  fold (normalize text). fold (tokens text).
  destruct (js_length (tokens text) <? 8); [discriminate|].
  destruct (String.eqb (part (tokens text) 0) "DEBIT").
  - unfold parseDebitInstruction.
    destruct (_ || _); [discriminate|]. destruct (negb _); [discriminate|].
    intros [= <-]. split; reflexivity.
  - destruct (String.eqb (part (tokens text) 0) "CREDIT"); [|discriminate].
    unfold parseCreditInstruction.
    destruct (_ || _); [discriminate|]. destruct (negb _); [discriminate|].
    intros [= <-]. split; reflexivity.
Qed.

Lemma early_rules_code p code :
  Rules.first_failing
    [ (AM01, Rules.AM01_fails p); (CU02, Rules.CU02_fails p);
      (AC04, Rules.AC04_fails p); (AC02, Rules.AC02_fails p) ] = Some code ->
  Rules.AC04_fails p = true ->
  In code [AM01; CU02; AC04].
Proof.
  cbn [Rules.first_failing]. intros H H4. rewrite H4 in H.
  destruct (Rules.AM01_fails p); [injection H as <-; cbn; tauto|].
  destruct (Rules.CU02_fails p); injection H as <-; cbn; tauto.
Qed.

(** An instruction whose account identifier is empty never gets past
    AC04. *)
Lemma empty_account_rejected h p (accounts : JsArrayArg AccountObj) :
  p_debit_account p = "" \/ p_credit_account p = "" ->
  exists code,
    In code [AM01; CU02; AC04]
    /\ validateBusinessRules h p accounts = Ret (Invalid (STATUS_CODES code) code).
Proof.
  intro He.
  assert (H4 : Rules.AC04_fails p = true).
  { unfold Rules.AC04_fails. destruct He as [-> | ->]; cbn; [reflexivity|].
    now rewrite andb_false_r. }
  destruct (Rules.first_failing
              [ (AM01, Rules.AM01_fails p); (CU02, Rules.CU02_fails p);
                (AC04, Rules.AC04_fails p); (AC02, Rules.AC02_fails p) ]) as [code|] eqn:Hf.
  - exists code. split; [exact (early_rules_code p code Hf H4)|].
    now apply validateBusinessRules_early.
  - exfalso. cbn [Rules.first_failing] in Hf. rewrite H4 in Hf.
    destruct (Rules.AM01_fails p); [discriminate|].
    destruct (Rules.CU02_fails p); discriminate.
Qed.

(** The amount: digits, then anything that does not start with a digit. *)
Lemma parse_digits_prefix digits rest : forall seen acc,
  all_chars is_digit digits = true ->
  match rest with EmptyString => true | String c _ => negb (is_digit c) end = true ->
  parse_digits (digits ++ rest) seen acc = parse_digits digits seen acc.
Proof.
  induction digits as [|d digits IH]; intros seen acc Hd Hr.
  - cbn [append parse_digits]. destruct rest as [|c rest]; [reflexivity|].
    cbn [parse_digits]. unfold is_digit in Hr. now destruct (digit_of c).
  - cbn in Hd. apply andb_true_iff in Hd as [_ Hd].
    cbn [append parse_digits]. destruct (digit_of d); [|reflexivity]. now apply IH.
Qed.

Lemma digit_not_space d : is_digit d = true -> is_space d = false.
Proof. destruct d as [[] [] [] [] [] [] [] []]; intro H; try reflexivity; discriminate H. Qed.

Lemma digit_not_sign d :
  is_digit d = true -> Ascii.eqb d "-" = false /\ Ascii.eqb d "+" = false
                       /\ Ascii.eqb d "." = false.
Proof.
  destruct d as [[] [] [] [] [] [] [] []]; intro H; try (repeat split; reflexivity);
    discriminate H.
Qed.

Lemma parseInt_digits_prefix digits rest :
  all_chars is_digit digits = true -> digits <> "" ->
  match rest with EmptyString => true | String c _ => negb (is_digit c) end = true ->
  parseInt (digits ++ rest) = parseInt digits
  /\ includes_char "." (digits ++ rest) = includes_char "." rest.
Proof.
  intros Hd Hne Hr. split.
  - destruct digits as [|d digits]; [contradiction|].
    assert (Hd' := Hd). cbn in Hd'. apply andb_true_iff in Hd' as [H0 _].
    destruct (digit_not_sign d H0) as (Hm & Hp & _).
    unfold parseInt. cbn [append trimStart]. rewrite (digit_not_space d H0).
    assert (Hplain : forall s,
      match String d s with
      | String "-" r => js_neg (parse_digits r false 0)
      | String "+" r => parse_digits r false 0
      | r => parse_digits r false 0
      end = parse_digits (String d s) false 0).
    { intro s. destruct d as [[] [] [] [] [] [] [] []]; try reflexivity;
        cbn in Hm, Hp; discriminate. }
    rewrite !Hplain. now apply (parse_digits_prefix (String d digits)).
  - clear Hne Hr. induction digits as [|d digits IH]; [reflexivity|].
    cbn in Hd. apply andb_true_iff in Hd as [H0 Hd].
    destruct (digit_not_sign d H0) as (_ & _ & Hdot).
    cbn [append includes_char]. now rewrite Hdot, (IH Hd).
Qed.

Lemma not_AM01 h p (accounts : JsArrayArg AccountObj) :
  Rules.amount_fails (p_amount p) = false ->
  validateBusinessRules h p accounts <> Ret (Invalid (STATUS_CODES AM01) AM01).
Proof.
  intro Ha. unfold validateBusinessRules. rewrite amount_test_fails, Ha.
  destruct (negb (truthy _) || _); [discriminate|].
  destruct (negb (isValidAccountId (p_debit_account p)) || _); [discriminate|].
  destruct (String.eqb _ _); [discriminate|].
  destruct accounts as [| | l]; try discriminate. cbn [array_method bind].
  destruct (find_account l (p_debit_account p)); [|discriminate].
  destruct (find_account l (p_credit_account p)); [|discriminate].
  destruct (negb (String.eqb _ _) || _); [discriminate|].
  destruct (js_lt _ _); [discriminate|].
  destruct (match p_execute_by p with Some _ => _ | None => _ end); discriminate.
Qed.

End ValidatorEdges.

(** X8.  When the second ACCOUNT anchor of an instruction that parses is
    its last token, the account identifier read after it is the empty
    string (the credit account of a DEBIT sentence, the debit account of a
    CREDIT sentence), and validation rejects the instruction with AC04,
    unless AM01 or CU02 comes first. *)
Theorem X8_trailing_account_anchor (text : string) (p : ParsedFields) :
  parseInstruction (JsString text) = ParseOk p ->
  nth 5 (anchors (p_type p) (tokens text)) (-1) = js_length (tokens text) - 1 ->
  match p_type p with
  | DEBIT => p_credit_account p = ""
  | CREDIT => p_debit_account p = ""
  end
  /\ forall h (accounts : JsArrayArg AccountObj),
       exists code,
         In code [AM01; CU02; AC04]
         /\ validateBusinessRules h p accounts = Ret (Invalid (STATUS_CODES code) code).
Proof.
  intros Hp Hlast. assert (Hacc := parseInstruction_accounts text p Hp). cbv zeta in Hacc.
  assert (Hempty : extractAccountId text
                     (nth 5 (anchors (p_type p) (tokens text)) (-1) + 1) (tokens text) = "").
  { rewrite extractAccountId_original, Hlast. unfold part.
    rewrite js_index_beyond; [reflexivity|].
    rewrite tokens_original. unfold js_length. rewrite length_map. lia. }
  rewrite Hempty in Hacc.
  split.
  - destruct (p_type p); tauto.
  - intros h accounts. apply empty_account_rejected. destruct (p_type p); tauto.
Qed.

Lemma X8_trailing_account_anchor_witness :
  p_credit_account
    {| p_type := DEBIT; p_amount := "1"; p_currency := "NGN"; p_debit_account := "x";
       p_credit_account := ""; p_execute_by := None |} = ""
  /\ forall h (accounts : JsArrayArg AccountObj),
       exists code,
         In code [AM01; CU02; AC04]
         /\ validateBusinessRules h
              {| p_type := DEBIT; p_amount := "1"; p_currency := "NGN";
                 p_debit_account := "x"; p_credit_account := ""; p_execute_by := None |}
              accounts = Ret (Invalid (STATUS_CODES code) code).
Proof.
  apply (X8_trailing_account_anchor "DEBIT 1 NGN FROM ACCOUNT x FOR CREDIT TO ACCOUNT"
           {| p_type := DEBIT; p_amount := "1"; p_currency := "NGN"; p_debit_account := "x";
              p_credit_account := ""; p_execute_by := None |});
    vm_compute; reflexivity.
Defined.

(** X9.  The amount is read as its leading digits: what follows them, from
    the first character that is not a digit, is ignored.  Such an amount
    passes rule AM01 when the digits denote a positive number and no
    decimal point follows. *)
Theorem X9_amount_is_its_digit_prefix (h : Host) (p : ParsedFields)
    (accounts : JsArrayArg AccountObj) (digits rest : string) (n : Z) :
  p_amount p = digits ++ rest ->
  all_chars is_digit digits = true -> digits <> "" ->
  match rest with EmptyString => true | String c _ => negb (is_digit c) end = true ->
  parseInt digits = Num n ->
  parseInt (p_amount p) = Num n
  /\ (0 < n -> includes_char "." rest = false ->
      validateBusinessRules h p accounts <> Ret (Invalid (STATUS_CODES AM01) AM01)).
Proof.
  intros Ha Hd Hne Hr Hn.
  destruct (parseInt_digits_prefix digits rest Hd Hne Hr) as [Hparse Hdot].
  rewrite Ha, Hparse, Hn. split; [reflexivity|].
  intros Hpos Hnodot. apply not_AM01. unfold Rules.amount_fails.
  rewrite Ha, Hparse, Hn, Hdot, Hnodot.
  apply orb_false_iff. split; [apply Z.leb_gt; lia | reflexivity].
Qed.

Lemma X9_amount_is_its_digit_prefix_witness :
  parseInt "12AB" = Num 12
  /\ (0 < 12 -> includes_char "." "AB" = false ->
      validateBusinessRules (example_host 0)
        {| p_type := DEBIT; p_amount := "12AB"; p_currency := "NGN"; p_debit_account := "A1";
           p_credit_account := "B2"; p_execute_by := None |}
        (IsArray (map of_account example_accounts))
      <> Ret (Invalid (STATUS_CODES AM01) AM01)).
Proof.
  apply (X9_amount_is_its_digit_prefix (example_host 0)
           {| p_type := DEBIT; p_amount := "12AB"; p_currency := "NGN";
              p_debit_account := "A1"; p_credit_account := "B2"; p_execute_by := None |}
           (IsArray (map of_account example_accounts)) "12" "AB" 12);
    try reflexivity. discriminate.
Defined.

(** ** The service: what every response satisfies *)

Section ServiceInvariants.

Lemma validateBusinessRules_invalid h p (accounts : JsArrayArg AccountObj) msg code :
  validateBusinessRules h p accounts = Ret (Invalid msg code) ->
  msg = STATUS_CODES code
  /\ In code [AM01; CU02; AC04; AC02; AC03; CU01; AC01; DT01].
Proof.
  unfold validateBusinessRules.
  destruct (negb (truthy (p_amount p)) || _ || _ || _); [intros [= <- <-]; cbn; tauto|].
  destruct (negb (truthy (p_currency p)) || _); [intros [= <- <-]; cbn; tauto|].
  destruct (negb (isValidAccountId (p_debit_account p)) || _);
    [intros [= <- <-]; cbn; tauto|].
  destruct (String.eqb _ _); [intros [= <- <-]; cbn; tauto|].
  destruct accounts as [| | l]; try discriminate. cbn [array_method bind].
  destruct (find_account l (p_debit_account p)); [|intros [= <- <-]; cbn; tauto].
  destruct (find_account l (p_credit_account p)); [|intros [= <- <-]; cbn; tauto].
  destruct (negb (String.eqb _ _) || _); [intros [= <- <-]; cbn; tauto|].
  destruct (js_lt _ _); [intros [= <- <-]; cbn; tauto|].
  destruct (match p_execute_by p with Some _ => _ | None => _ end);
    [intros [= <- <-]; cbn; tauto | discriminate].
Qed.

(** The status, the code and the reason of a response go together. *)
Lemma service_status_code h payload r :
  paymentInstructionService h payload = Ret r ->
  r_status_reason r = STATUS_CODES (r_status_code r)
  /\ In (r_status_code r) (codes_of (r_status r)).
Proof.
  unfold paymentInstructionService. intros [= <-].
  destruct payload as [|instruction accounts]; [cbn; tauto|].
  unfold service_body.
  destruct (negb (array_truthy accounts) || negb (js_truthy instruction)); [cbn; tauto|].
  destruct (parseInstruction instruction) as [p|f] eqn:Hp.
  - destruct (validateBusinessRules h p (array_map of_account accounts))
      as [[|msg code]|] eqn:Hv; cbn [bind try_catch]; [| |cbn; tauto].
    + unfold executeTransaction.
      destruct (shouldExecuteNow h (p_execute_by p)).
      * destruct (array_method _) as [l|]; cbn [bind try_catch]; cbn; tauto.
      * destruct (createAccountsResponse _ _ _ _); cbn [bind try_catch]; cbn; tauto.
    + destruct (validateBusinessRules_invalid _ _ _ _ _ Hv) as [-> Hin].
      destruct (createAccountsResponse _ _ _ _); cbn [bind try_catch]; [|cbn; tauto].
      cbn. split; [reflexivity|]. cbn in Hin. tauto.
  - cbn [try_catch].
    destruct (parseInstruction_failure _ _ Hp) as [-> | [-> | [-> | ->]]]; cbn; tauto.
Qed.

(** [payload.accounts] is truthy, and no array. *)
Lemma service_accounts_not_array h instruction :
  paymentInstructionService h (PayloadObject instruction NotArrayTruthy)
  = Ret match parseInstruction instruction with
        | ParseOk _ => malformed_response
        | ParseFail f => parse_failure_response f
        end.
Proof.
  unfold paymentInstructionService, service_body. f_equal.
  cbn [array_truthy negb orb array_map].
  destruct (js_truthy instruction) eqn:Ht; cbn [negb].
  - destruct (parseInstruction instruction) as [p|f]; [|reflexivity].
    destruct (validateBusinessRules h p NotArrayTruthy) as [[|msg code]|];
      cbn [bind try_catch]; try reflexivity.
    unfold executeTransaction. destruct (shouldExecuteNow h (p_execute_by p)); reflexivity.
  - destruct instruction as [| | b | [|n] | text |]; try reflexivity; try discriminate Ht.
    cbn in Ht. unfold parseInstruction. now rewrite Ht.
Qed.

End ServiceInvariants.

Section CurrencyCase.

Lemma find_account_upper l accountId :
  match find_account (map of_account l) accountId,
        find_account (map of_account (map upper_currency l)) accountId with
  | Some o, Some o' =>
      obj_balance o' = obj_balance o /\ obj_currency o' = toUpperCase (obj_currency o)
  | None, None => True
  | _, _ => False
  end.
Proof.
  unfold find_account. induction l as [|a l IH]; [exact I|].
  cbn [map List.find of_account upper_currency obj_id acc_id].
  destruct (String.eqb (acc_id a) accountId); [|exact IH]. split; reflexivity.
Qed.

Lemma validateBusinessRules_upper h p l :
  validateBusinessRules h p (IsArray (map of_account (map upper_currency l)))
  = validateBusinessRules h p (IsArray (map of_account l)).
Proof.
  unfold validateBusinessRules.
  destruct (negb (truthy (p_amount p)) || _ || _ || _); [reflexivity|].
  destruct (negb (truthy (p_currency p)) || _); [reflexivity|].
  destruct (negb (isValidAccountId (p_debit_account p)) || _); [reflexivity|].
  destruct (String.eqb _ _); [reflexivity|].
  cbn [array_method bind].
  pose proof (find_account_upper l (p_debit_account p)) as Hd.
  pose proof (find_account_upper l (p_credit_account p)) as Hc.
  destruct (find_account (map of_account l) (p_debit_account p)) as [d|],
           (find_account (map of_account (map upper_currency l)) (p_debit_account p)) as [d'|];
    try contradiction; [|reflexivity].
  destruct (find_account (map of_account l) (p_credit_account p)) as [c|],
           (find_account (map of_account (map upper_currency l)) (p_credit_account p)) as [c'|];
    try contradiction; [|reflexivity].
  destruct Hd as [-> ->], Hc as [_ ->]. now rewrite !toUpperCase_idem.
Qed.

Lemma untouched_views_upper l p :
  untouched_views (map upper_currency l) p = untouched_views l p.
Proof.
  unfold untouched_views. rewrite !createAccountsResponse_loop_filter. cbn [app].
  induction l as [|a l IH]; [reflexivity|].
  cbn [map List.filter].
  assert (Hi : involved (p_debit_account p) (p_credit_account p) (of_account (upper_currency a))
               = involved (p_debit_account p) (p_credit_account p) (of_account a))
    by reflexivity.
  rewrite Hi. destruct (involved _ _ (of_account a)); [|exact IH].
  cbn [map]. f_equal; [|exact IH].
  unfold accountResponse. cbn. now rewrite toUpperCase_idem.
Qed.

Lemma settled_views_upper l p :
  settled_views (map upper_currency l) p = settled_views l p.
Proof.
  unfold settled_views. f_equal. rewrite !map_map. apply map_ext. intro a.
  unfold update_account. cbn. rewrite toUpperCase_idem.
  destruct (String.eqb (acc_id a) (p_debit_account p)); [reflexivity|].
  destruct (String.eqb (acc_id a) (p_credit_account p)); reflexivity.
Qed.

End CurrencyCase.

(** X10.  The currency of a snapshot account counts whatever its case: the
    service answers a snapshot and the same snapshot with the account
    currencies upper-cased in the same way. *)
Theorem X10_account_currency_case (h : Host) (instruction : JsValue) (l : list Account) :
  paymentInstructionService h (PayloadObject instruction (IsArray (map upper_currency l)))
  = paymentInstructionService h (PayloadObject instruction (IsArray l)).
Proof.
  destruct (parseInstruction instruction) as [p|f] eqn:Hp.
  - destruct (validateBusinessRules h p (IsArray (map of_account l)))
      as [[|msg code]|] eqn:Hv.
    + rewrite (service_valid h instruction l p Hp Hv).
      rewrite <- validateBusinessRules_upper in Hv.
      rewrite (service_valid h instruction _ p Hp Hv).
      now rewrite settled_views_upper, untouched_views_upper.
    + rewrite (service_invalid h instruction l p msg code Hp Hv).
      rewrite <- validateBusinessRules_upper in Hv.
      rewrite (service_invalid h instruction _ p msg code Hp Hv).
      now rewrite untouched_views_upper.
    + rewrite validateBusinessRules_cascade in Hv. discriminate Hv.
  - unfold paymentInstructionService, service_body. cbn [array_truthy negb orb].
    now rewrite Hp.
Qed.

(** X11.  In every response the reason is the message of the status code,
    and the code belongs to the status: AP00 with [successful], AP02 with
    [pending], one of the eleven error codes with [failed]. *)
Theorem X11_status_reason_and_code (h : Host) (payload : Payload) :
  exists r,
    paymentInstructionService h payload = Ret r
    /\ r_status_reason r = STATUS_CODES (r_status_code r)
    /\ In (r_status_code r) (codes_of (r_status r)).
Proof.
  destruct (service_returns h payload) as [r Hr]. exists r.
  split; [exact Hr|]. exact (service_status_code h payload r Hr).
Qed.

(** X12.  The endpoint never answers 500: the service settles with a
    response whatever the payload, the endpoint passes that response on as
    its data, with HTTP 200 when the code is AP00 or AP02 and HTTP 400 with
    every other code. *)
Theorem X12_handler_status (h : Host) (payload : Payload) :
  exists r,
    paymentInstructionService h payload = Ret r
    /\ http_data (handler h payload) = r
    /\ http_status (handler h payload) = http_of_code (r_status_code r)
    /\ http_status (handler h payload) <> HTTP_500_INTERNAL_SERVER_ERROR.
Proof.
  destruct (service_returns h payload) as [r Hr]. exists r.
  destruct (service_status_code h payload r Hr) as [_ Hin].
  unfold handler. rewrite Hr. split; [reflexivity|].
  destruct (r_status r); cbn [codes_of] in Hin; cbn [http_data http_status].
  - destruct Hin as [<- | []]. repeat split; discriminate.
  - destruct Hin as [<- | []]. repeat split; discriminate.
  - split; [reflexivity|]. split; [|discriminate].
    repeat (destruct Hin as [<- | Hin]; [reflexivity|]). destruct Hin.
Qed.

(** X13.  When [payload.accounts] is truthy but no array, the answer
    depends on the parse alone: a sentence that parses is answered with the
    malformed-instruction response, even where a business rule that does
    not look at the accounts fails, and a failed parse with its own code.
    The response is [failed], lists no account, and its code is SY01, SY02
    or SY03. *)
Theorem X13_accounts_not_an_array (h : Host) (instruction : JsValue) :
  exists r,
    paymentInstructionService h (PayloadObject instruction NotArrayTruthy) = Ret r
    /\ r = match parseInstruction instruction with
           | ParseOk _ => malformed_response
           | ParseFail f => parse_failure_response f
           end
    /\ r_status r = failed /\ r_accounts r = []
    /\ In (r_status_code r) [SY01; SY02; SY03].
Proof.
  eexists. split; [apply service_accounts_not_array|]. split; [reflexivity|].
  destruct (parseInstruction instruction) as [p|f] eqn:Hp; [cbn; tauto|].
  destruct (parseInstruction_failure _ _ Hp) as [-> | [-> | [-> | ->]]]; cbn; tauto.
Qed.

(** ** Dates *)

Section ValidDates.

Lemma days_from_civil_linear y m d :
  days_from_civil y m 1 + d - 1 = days_from_civil y m d.
Proof. unfold days_from_civil. cbv zeta. lia. Qed.

(** The year of a day of the era: the [doy]-th day of the year [yoe] of
    the era, a year that starts on March 1st and has 366 days when the
    February that closes it has 29. *)
Lemma year_of_era_day yoe doy :
  0 <= yoe <= 399 ->
  0 <= doy <= 364
  \/ (0 <= doy <= 365 /\ (yoe + 1) mod 4 = 0 /\ ((yoe + 1) mod 100 <> 0 \/ yoe = 399)) ->
  yoe_of_doe (yoe * 365 + yoe / 4 - yoe / 100 + doy) = yoe.
Proof.
  intros Hy Hd. unfold yoe_of_doe. Z.to_euclidean_division_equations. lia.
Qed.

Lemma era_day_range yoe doy :
  0 <= yoe <= 399 ->
  0 <= doy <= 364
  \/ (0 <= doy <= 365 /\ (yoe + 1) mod 4 = 0 /\ ((yoe + 1) mod 100 <> 0 \/ yoe = 399)) ->
  0 <= yoe * 365 + yoe / 4 - yoe / 100 + doy < 146097.
Proof. intros Hy Hd. Z.to_euclidean_division_equations. lia. Qed.

(** The civil date of the [doy]-th day of the year [yoe] of an era. *)
Lemma civil_from_era_day era yoe doy :
  0 <= yoe <= 399 ->
  0 <= doy <= 364
  \/ (0 <= doy <= 365 /\ (yoe + 1) mod 4 = 0 /\ ((yoe + 1) mod 100 <> 0 \/ yoe = 399)) ->
  civil_from_days (era * 146097 + (yoe * 365 + yoe / 4 - yoe / 100 + doy) - 719468)
  = let mp := (5 * doy + 2) / 153 in
    let m := if mp <? 10 then mp + 3 else mp - 9 in
    (if m <=? 2 then yoe + era * 400 + 1 else yoe + era * 400,
     m, doy - (153 * mp + 2) / 5 + 1).
Proof.
  intros Hy Hd. unfold civil_from_days. cbv zeta.
  pose proof (era_day_range yoe doy Hy Hd) as Hr.
  pose proof (year_of_era_day yoe doy Hy Hd) as Hyoe. unfold yoe_of_doe in Hyoe.
  set (doe := yoe * 365 + yoe / 4 - yoe / 100 + doy) in *.
  replace (era * 146097 + doe - 719468 + 719468) with (doe + era * 146097) by lia.
  rewrite Z.div_add by discriminate.
  rewrite (Z.div_small doe 146097) by exact Hr.
  replace (doe + era * 146097 - (0 + era) * 146097) with doe by lia.
  rewrite Hyoe.
  replace (doe - (365 * yoe + yoe / 4 - yoe / 100)) with doy by (subst doe; lia).
  reflexivity.
Qed.

Lemma month_cases m :
  1 <= m <= 12 ->
  m = 1 \/ m = 2 \/ m = 3 \/ m = 4 \/ m = 5 \/ m = 6 \/ m = 7 \/ m = 8 \/ m = 9 \/ m = 10
  \/ m = 11 \/ m = 12.
Proof. lia. Qed.

Lemma is_leap_spec y :
  is_leap y = true <-> y mod 4 = 0 /\ (y mod 100 <> 0 \/ y mod 400 = 0).
Proof.
  unfold is_leap. rewrite andb_true_iff, orb_true_iff, negb_true_iff, !Z.eqb_eq, Z.eqb_neq.
  tauto.
Qed.

(** The civil date of the day number of a date that exists. *)
Lemma civil_from_days_from_civil y m d :
  1 <= m <= 12 -> 1 <= d <= DaysInMonth y m ->
  civil_from_days (days_from_civil y m d) = (y, m, d).
Proof.
  intros Hm Hd. unfold days_from_civil. cbv zeta.
  set (y' := if m <=? 2 then y - 1 else y).
  set (mp := if 2 <? m then m - 3 else m + 9).
  set (era := y' / 400). set (yoe := y' - era * 400).
  set (doy := (153 * mp + 2) / 5 + d - 1).
  assert (Hyoe : 0 <= yoe <= 399).
  { subst yoe era. Z.to_euclidean_division_equations. lia. }
  assert (Hy' : yoe + era * 400 = y') by (subst yoe; lia).
  assert (Hleap : m = 2 -> d = 29 ->
                  (yoe + 1) mod 4 = 0 /\ ((yoe + 1) mod 100 <> 0 \/ yoe = 399)).
  { intros -> ->. unfold DaysInMonth in Hd. cbn [Z.eqb Pos.eqb] in Hd.
    destruct (is_leap y) eqn:Hl; [|lia]. apply is_leap_spec in Hl.
    subst yoe era y'. cbn [Z.leb Z.compare Pos.compare Pos.compare_cont].
    Z.to_euclidean_division_equations. lia. }
  assert (Hmp : 0 <= mp <= 11 /\ (if mp <? 10 then mp + 3 else mp - 9) = m).
  { subst mp. destruct (month_cases m Hm) as [-> | [-> | [-> | [-> | [-> | [-> | [-> |
      [-> | [-> | [-> | [-> | ->]]]]]]]]]]]; cbn; repeat split; lia. }
  destruct Hmp as (Hmp & Hm').
  assert (Hdoy : (5 * doy + 2) / 153 = mp /\ doy - (153 * mp + 2) / 5 + 1 = d
                 /\ (0 <= doy <= 364 \/ (doy = 365 /\ m = 2 /\ d = 29))).
  { subst doy mp. unfold DaysInMonth in Hd.
    destruct (month_cases m Hm) as [-> | [-> | [-> | [-> | [-> | [-> | [-> |
      [-> | [-> | [-> | [-> | ->]]]]]]]]]]]; cbn in Hd |- *;
      try destruct (is_leap y);
      (split; [|split]); Z.to_euclidean_division_equations; lia. }
  destruct Hdoy as (Hmp' & Hd' & Hrange).
  assert (Hcond : 0 <= doy <= 364
                  \/ (0 <= doy <= 365 /\ (yoe + 1) mod 4 = 0
                      /\ ((yoe + 1) mod 100 <> 0 \/ yoe = 399))).
  { destruct Hrange as [H | (H1 & H2 & H3)]; [now left | right].
    split; [lia | now apply Hleap]. }
  rewrite (civil_from_era_day era yoe doy Hyoe Hcond). cbv zeta.
  rewrite Hmp', Hd', Hm', Hy'. subst y'.
  destruct (m <=? 2); f_equal; f_equal; lia.
Qed.

(** March 1st is the day after the last day of February. *)
Lemma days_from_civil_march y :
  days_from_civil y 2 (DaysInMonth y 2 + 1) = days_from_civil y 3 1.
Proof.
  unfold days_from_civil, DaysInMonth. cbv zeta.
  cbn [Z.eqb Z.leb Z.ltb Z.compare Pos.compare Pos.compare_cont Pos.eqb].
  set (q := y / 400).
  assert (Hr : 0 <= y - q * 400 < 400).
  { subst q. Z.to_euclidean_division_equations. lia. }
  assert (Hy : y = y - q * 400 + q * 400) by lia.
  set (r := y - q * 400) in *.
  assert (H4 : y mod 4 = r mod 4).
  { rewrite Hy. replace (r + q * 400) with (r + (q * 100) * 4) by lia. apply Z.mod_add. lia. }
  assert (H100 : y mod 100 = r mod 100).
  { rewrite Hy. replace (r + q * 400) with (r + (q * 4) * 100) by lia. apply Z.mod_add. lia. }
  assert (H400 : y mod 400 = r).
  { rewrite Hy, Z.mod_add by lia. apply Z.mod_small. exact Hr. }
  assert (Hleap : is_leap y = true <-> r mod 4 = 0 /\ (r mod 100 <> 0 \/ r = 0)).
  { rewrite is_leap_spec, H4, H100, H400. tauto. }
  destruct (Z.eq_dec r 0) as [Hz | Hnz].
  - assert (Hq : (y - 1) / 400 = q - 1).
    { symmetry. apply (Z.div_unique (y - 1) 400 (q - 1) 399); lia. }
    rewrite Hq. replace (y - 1 - (q - 1) * 400) with 399 by lia.
    replace (is_leap y) with true by (symmetry; apply Hleap; rewrite Hz; split; [reflexivity | now right]).
    rewrite Hz. clear Hleap H4 H100 H400 Hq. Z.to_euclidean_division_equations. lia.
  - assert (Hq : (y - 1) / 400 = q).
    { symmetry. apply (Z.div_unique (y - 1) 400 q (r - 1)); lia. }
    rewrite Hq. replace (y - 1 - q * 400) with (r - 1) by lia.
    destruct (is_leap y).
    + assert (Hl := proj1 Hleap eq_refl). clear Hleap H4 H100 H400 Hy Hq. clearbody r q.
      Z.to_euclidean_division_equations. lia.
    + assert (Hn : ~ (r mod 4 = 0 /\ (r mod 100 <> 0 \/ r = 0))).
      { intro H. apply Hleap in H. discriminate H. }
      clear Hleap H4 H100 H400 Hy Hq. clearbody r q.
      Z.to_euclidean_division_equations. lia.
Qed.

(** The day after the last day of a month is the first day of the next. *)
Lemma days_from_civil_next_month y m :
  1 <= m <= 12 ->
  days_from_civil y m (DaysInMonth y m + 1)
  = days_from_civil (if m =? 12 then y + 1 else y) (if m =? 12 then 1 else m + 1) 1.
Proof.
  intro Hm.
  destruct (month_cases m Hm) as [-> | [-> | [-> | [-> | [-> | [-> | [-> |
    [-> | [-> | [-> | [-> | ->]]]]]]]]]]];
    cbn [Z.eqb Pos.eqb]; try exact (days_from_civil_march y);
    unfold days_from_civil, DaysInMonth; cbv zeta;
    repeat match goal with
           | |- context [if ?c then _ else _] =>
               let v := eval vm_compute in c in change c with v; cbv iota
           end;
    Z.to_euclidean_division_equations; lia.
Qed.

Lemma DaysInMonth_range y m : 28 <= DaysInMonth y m <= 31.
Proof.
  unfold DaysInMonth. destruct (m =? 2); [destruct (is_leap y); lia|].
  destruct (_ || _); lia.
Qed.

(** The [Date] object of a year that is not abbreviated, in a zone in
    which the local midnight of the date converts to UTC and back. *)
Lemma date_object_components zone y m d :
  100 <= y -> 1 <= m <= 12 ->
  (let local := days_from_civil y m d * msPerDay in
   zone (local - zone local false) true = zone local false) ->
  date_object_agrees zone y m d
  = let '(y', m', d') := civil_from_days (days_from_civil y m d) in
    (y' =? y) && (m' - 1 =? m - 1) && (d' =? d).
Proof.
  intros Hy Hm Hzone. cbv zeta in Hzone.
  unfold date_object_agrees, getFullYear_in, getMonth_in, getDate_in, LocalTime,
    new_Date_ymd_in, YearFromTime, MonthFromTime, DateFromTime. cbv zeta.
  replace ((0 <=? y) && (y <=? 99)) with false
    by (symmetry; apply andb_false_iff; right; apply Z.leb_gt; lia).
  unfold MakeDay.
  replace ((m - 1) / 12) with 0 by (symmetry; apply Z.div_small; lia).
  replace ((m - 1) mod 12) with (m - 1) by (symmetry; apply Z.mod_small; lia).
  replace (y + 0) with y by lia. replace (m - 1 + 1) with m by lia.
  rewrite days_from_civil_linear, Hzone, Z.sub_add.
  unfold Day. rewrite Z.div_mul by discriminate.
  now destruct (civil_from_days _) as [[y' m'] d'].
Qed.

(** The [Date] object agrees with a year from 100 on, a month and a day
    from 1 to 31 exactly when the month of that year has the day. *)
Lemma date_object_calendar zone y m d :
  midnights_round_trip zone ->
  100 <= y -> 1 <= m <= 12 -> 1 <= d <= 31 ->
  date_object_agrees zone y m d = (d <=? DaysInMonth y m).
Proof.
  intros Hzone Hy Hm Hd.
  rewrite date_object_components by (try assumption; apply Hzone).
  destruct (d <=? DaysInMonth y m) eqn:Hle; [apply Z.leb_le in Hle | apply Z.leb_gt in Hle].
  - rewrite civil_from_days_from_civil by lia.
    now rewrite !Z.eqb_refl.
  - pose proof (DaysInMonth_range y m) as Hr.
    pose proof (DaysInMonth_range (if m =? 12 then y + 1 else y)
                  (if m =? 12 then 1 else m + 1)) as Hr'.
    replace (days_from_civil y m d)
      with (days_from_civil (if m =? 12 then y + 1 else y) (if m =? 12 then 1 else m + 1)
              (d - DaysInMonth y m)).
    2:{ rewrite <- (days_from_civil_linear _ _ (d - DaysInMonth y m)).
        rewrite <- days_from_civil_next_month by exact Hm.
        rewrite <- (days_from_civil_linear y m (DaysInMonth y m + 1)).
        rewrite <- (days_from_civil_linear y m d). lia. }
    rewrite civil_from_days_from_civil by (destruct (m =? 12) eqn:E; lia).
    destruct (m =? 12) eqn:E; [apply Z.eqb_eq in E | apply Z.eqb_neq in E].
    + subst m. replace (y + 1 =? y) with false by (symmetry; apply Z.eqb_neq; lia).
      reflexivity.
    + replace (m + 1 - 1 =? m - 1) with false by (symmetry; apply Z.eqb_neq; lia).
      now rewrite andb_false_r.
Qed.

Lemma fixed_zone_round_trip tza : midnights_round_trip (fixed_zone tza).
Proof. intro days. reflexivity. Qed.

Lemma four_chars (s : string) :
  String.length s = 4%nat ->
  exists a b c d, s = String a (String b (String c (String d EmptyString))).
Proof.
  destruct s as [|a [|b [|c [|d [|e s]]]]]; try discriminate. intros _. now exists a, b, c, d.
Qed.

Lemma two_chars (s : string) :
  String.length s = 2%nat -> exists a b, s = String a (String b EmptyString).
Proof. destruct s as [|a [|b [|c s]]]; try discriminate. intros _. now exists a, b. Qed.

End ValidDates.

Section DateShape.

Lemma isValidDate_in_calendar zone year month day :
  midnights_round_trip zone ->
  String.length year = 4%nat -> String.length month = 2%nat -> String.length day = 2%nat ->
  includes_char "-" year = false -> includes_char "-" month = false ->
  includes_char "-" day = false ->
  isValidDate_in zone (year ++ "-" ++ month ++ "-" ++ day)
  = calendar_date (parseInt year) (parseInt month) (parseInt day).
Proof.
  intros Hzone Ly Lm Ld Hy Hm Hd.
  destruct (four_chars year Ly) as (y1 & y2 & y3 & y4 & ->).
  destruct (two_chars month Lm) as (m1 & m2 & ->).
  destruct (two_chars day Ld) as (d1 & d2 & ->).
  cbn [includes_char] in Hy, Hm, Hd.
  repeat (apply orb_false_iff in Hy as [? Hy]).
  repeat (apply orb_false_iff in Hm as [? Hm]).
  repeat (apply orb_false_iff in Hd as [? Hd]).
  unfold isValidDate_in. cbn [append truthy negb String.length].
  replace (Z.of_nat 10 =? 10) with true by reflexivity.
  unfold char_at_differs. cbn [String.get Nat.eqb Ascii.eqb Bool.eqb negb orb].
  cbn [split_char].
  repeat match goal with H : Ascii.eqb _ "-" = false |- _ => rewrite H; clear H end.
  cbn [Ascii.eqb Bool.eqb split_char js_length length]. cbn [Z.of_nat Z.eqb negb].
  replace (Z.of_nat 3 =? 3) with true by reflexivity. cbn [negb].
  unfold calendar_date.
  destruct (parseInt (String y1 _)) as [|y]; [reflexivity|].
  destruct (parseInt (String m1 _)) as [|m]; [reflexivity|].
  destruct (parseInt (String d1 _)) as [|d]; [reflexivity|].
  destruct (y <? 1000) eqn:H1; [apply Z.ltb_lt in H1 | apply Z.ltb_ge in H1].
  { replace (1000 <=? y) with false by (symmetry; apply Z.leb_gt; lia). reflexivity. }
  replace (1000 <=? y) with true by (symmetry; apply Z.leb_le; lia).
  destruct (9999 <? y) eqn:H2; [apply Z.ltb_lt in H2 | apply Z.ltb_ge in H2].
  { replace (y <=? 9999) with false by (symmetry; apply Z.leb_gt; lia). reflexivity. }
  replace (y <=? 9999) with true by (symmetry; apply Z.leb_le; lia).
  destruct (m <? 1) eqn:H3; [apply Z.ltb_lt in H3 | apply Z.ltb_ge in H3].
  { replace (1 <=? m) with false by (symmetry; apply Z.leb_gt; lia). reflexivity. }
  replace (1 <=? m) with true by (symmetry; apply Z.leb_le; lia).
  destruct (12 <? m) eqn:H4; [apply Z.ltb_lt in H4 | apply Z.ltb_ge in H4].
  { replace (m <=? 12) with false by (symmetry; apply Z.leb_gt; lia). reflexivity. }
  replace (m <=? 12) with true by (symmetry; apply Z.leb_le; lia).
  destruct (d <? 1) eqn:H5; [apply Z.ltb_lt in H5 | apply Z.ltb_ge in H5].
  { replace (1 <=? d) with false by (symmetry; apply Z.leb_gt; lia). reflexivity. }
  replace (1 <=? d) with true by (symmetry; apply Z.leb_le; lia).
  destruct (31 <? d) eqn:H6; [apply Z.ltb_lt in H6 | apply Z.ltb_ge in H6].
  { cbn [orb andb]. symmetry. apply Z.leb_gt.
    assert (DaysInMonth y m <= 31); [|lia].
    unfold DaysInMonth. repeat destruct (_ =? _); repeat destruct (is_leap _); cbn; lia. }
  cbn [orb andb].
  assert (Hy100 : 100 <= y) by lia.
  rewrite <- (date_object_calendar zone y m d Hzone Hy100 (conj H3 H4) (conj H5 H6)).
  unfold date_object_agrees. reflexivity.
Qed.

(** On a host, whose zone keeps one offset, the answer is the same for
    every offset and every clock. *)
Lemma isValidDate_calendar h year month day :
  String.length year = 4%nat -> String.length month = 2%nat -> String.length day = 2%nat ->
  includes_char "-" year = false -> includes_char "-" month = false ->
  includes_char "-" day = false ->
  isValidDate h (year ++ "-" ++ month ++ "-" ++ day)
  = calendar_date (parseInt year) (parseInt month) (parseInt day).
Proof.
  unfold isValidDate. apply isValidDate_in_calendar. apply fixed_zone_round_trip.
Qed.

End DateShape.

(** Where a zone skips a local day, [isValidDate] rejects that day of the
    calendar: the [Date] object built from its numbers falls on the next
    day. *)
Example skipped_day_is_rejected :
  isValidDate_in date_line_zone "2011-12-30" = false
  /\ calendar_date (parseInt "2011") (parseInt "12") (parseInt "30") = true
  /\ isValidDate_in date_line_zone "2011-12-29" = true
  /\ isValidDate_in date_line_zone "2011-12-31" = true.
Proof. repeat split; vm_compute; reflexivity. Qed.

(** X14.  In a time zone in which every local midnight converts to UTC and
    back to itself (a zone that keeps one offset is one; a zone that skips
    a local midnight is not), a string of ten characters with a hyphen after
    the fourth and after the seventh and no other hyphen is a valid date
    exactly when the numbers [parseInt] reads in its three pieces are a year
    from 1000 to 9999, a month from 1 to 12 and a day that the month of that
    year has (February has 29 days in a leap year only).  Each piece is read
    as [parseInt] reads it: what follows the leading digits is ignored. *)
Theorem X14_isValidDate_calendar (zone : Zone) (year month day : string) :
  midnights_round_trip zone ->
  String.length year = 4%nat -> String.length month = 2%nat -> String.length day = 2%nat ->
  includes_char "-" year = false -> includes_char "-" month = false ->
  includes_char "-" day = false ->
  isValidDate_in zone (year ++ "-" ++ month ++ "-" ++ day)
  = calendar_date (parseInt year) (parseInt month) (parseInt day).
Proof. apply isValidDate_in_calendar. Qed.

Lemma X14_isValidDate_calendar_witness :
  isValidDate (example_host 3600000) ("2024" ++ "-" ++ "2X" ++ "-" ++ "30")
  = calendar_date (parseInt "2024") (parseInt "2X") (parseInt "30").
Proof.
  exact (X14_isValidDate_calendar (fixed_zone 3600000) "2024" "2X" "30"
           (fun days => eq_refl) eq_refl eq_refl eq_refl eq_refl eq_refl eq_refl).
Defined.

(** X15.  Only the current UTC day depends on the time zone of the host: a
    date of the interchange format before the current UTC day is due and a
    date after it is not, for every offset of local time from UTC that is
    no more than a day. *)
Theorem X15_past_and_future_dates (h : Host) (e : string) (y m d : Z) :
  0 <= host_now h -> iso_date e = Some (y, m, d) ->
  - msPerDay < host_LocalTZA h <= msPerDay ->
  (days_from_civil y m d < Day (host_now h) -> isDateInPastOrToday h e = true)
  /\ (Day (host_now h) < days_from_civil y m d -> isDateInPastOrToday h e = false).
Proof.
  intros Hnow He Htz. destruct (isDateInPastOrToday_iso h e y m d Hnow He) as [-> _].
  unfold msPerDay in *. split; intro Hlt; [apply Z.leb_le | apply Z.leb_gt]; lia.
Qed.

Lemma X15_past_and_future_dates_witness :
  (days_from_civil 2024 12 31 < Day (host_now (example_host 3600000)) ->
   isDateInPastOrToday (example_host 3600000) "2024-12-31" = true)
  /\ (Day (host_now (example_host 3600000)) < days_from_civil 2024 12 31 ->
      isDateInPastOrToday (example_host 3600000) "2024-12-31" = false).
Proof.
  apply (X15_past_and_future_dates (example_host 3600000) "2024-12-31" 2024 12 31);
    [vm_compute; discriminate | reflexivity | vm_compute; split; [reflexivity | discriminate]].
Defined.

(** ** Accepted instructions *)

Section Accepted.

(** A response that does not say [failed] answers an instruction that
    parses and passes the eight rules, over an array of accounts. *)
Lemma service_accepted_inv h payload r :
  paymentInstructionService h payload = Ret r ->
  r_status r <> failed ->
  exists instruction l p,
    payload = PayloadObject instruction (IsArray l)
    /\ parseInstruction instruction = ParseOk p
    /\ validateBusinessRules h p (IsArray (map of_account l)) = Ret Valid
    /\ r = if shouldExecuteNow h (p_execute_by p)
           then createSuccessResponse p successful (STATUS_CODES AP00) AP00 (settled_views l p)
           else createSuccessResponse p pending (STATUS_CODES AP02) AP02 (untouched_views l p).
Proof.
  intros Hr Hs.
  destruct payload as [|instruction accounts].
  { injection Hr as <-. now contradiction Hs. }
  destruct (parseInstruction instruction) as [p|f] eqn:Hp.
  - destruct accounts as [| | l].
    + injection Hr as <-. now contradiction Hs.
    + rewrite service_accounts_not_array, Hp in Hr. injection Hr as <-. now contradiction Hs.
    + destruct (validateBusinessRules h p (IsArray (map of_account l)))
        as [[|msg code]|] eqn:Hv.
      * rewrite (service_valid h instruction l p Hp Hv) in Hr. injection Hr as <-.
        now exists instruction, l, p.
      * rewrite (service_invalid h instruction l p msg code Hp Hv) in Hr.
        injection Hr as <-. now contradiction Hs.
      * rewrite validateBusinessRules_cascade in Hv. discriminate Hv.
  - unfold paymentInstructionService, service_body in Hr. rewrite Hp in Hr.
    destruct (negb (array_truthy accounts) || negb (js_truthy instruction));
      injection Hr as <-; now contradiction Hs.
Qed.

Lemma valid_passes h p l :
  validateBusinessRules h p (IsArray l) = Ret Valid ->
  Forall (fun rule => snd rule = false) (Rules.cascade h p l).
Proof.
  rewrite validateBusinessRules_cascade. intro H. apply first_failing_None.
  destruct (Rules.first_failing _); [discriminate H | reflexivity].
Qed.

Lemma string_in_In s l : string_in s l = true -> In s l.
Proof.
  unfold string_in. intro H. apply existsb_exists in H as (x & Hx & He).
  apply String.eqb_eq in He. now subst.
Qed.

(** ** Snapshots whose identifiers are distinct *)

Lemma find_account_unique l a :
  List.NoDup (map acc_id l) -> In a l ->
  find_account (map of_account l) (acc_id a) = Some (of_account a).
Proof.
  unfold find_account. induction l as [|x l IH]; [intros _ []|].
  cbn [map List.find of_account obj_id]. intros Hnd Hin.
  apply NoDup_cons_iff in Hnd as [Hx Hnd].
  destruct (String.eqb (acc_id x) (acc_id a)) eqn:He.
  - apply String.eqb_eq in He. destruct Hin as [-> | Hin]; [reflexivity|].
    exfalso. apply Hx. rewrite He. now apply in_map.
  - destruct Hin as [-> | Hin]; [now rewrite String.eqb_refl in He|]. now apply IH.
Qed.

Lemma involved_account_iff debit credit a :
  involved_account debit credit a = true <-> acc_id a = debit \/ acc_id a = credit.
Proof.
  unfold involved_account, involved. cbn [of_account obj_id].
  now rewrite orb_true_iff, !String.eqb_eq.
Qed.

Lemma filter_involved_none l debit credit :
  (forall x, In x l -> ~ (acc_id x = debit \/ acc_id x = credit)) ->
  List.filter (involved_account debit credit) l = [].
Proof.
  induction l as [|x l IH]; [reflexivity|]. intro H. cbn [List.filter].
  destruct (involved_account debit credit x) eqn:Hi.
  - apply involved_account_iff in Hi. exfalso. apply (H x); [now left | exact Hi].
  - apply IH. intros y Hy. apply H. now right.
Qed.

Lemma filter_involved_one l debit credit b :
  List.NoDup (map acc_id l) -> In b l -> acc_id b = debit \/ acc_id b = credit ->
  (forall x, In x l -> acc_id x = debit \/ acc_id x = credit -> acc_id x = acc_id b) ->
  List.filter (involved_account debit credit) l = [b].
Proof.
  induction l as [|x l IH]; [intros _ []|]. intros Hnd Hin Hb Hall.
  apply NoDup_cons_iff in Hnd as [Hx Hnd]. cbn [List.filter].
  destruct Hin as [-> | Hin].
  - assert (Hi : involved_account debit credit b = true) by now apply involved_account_iff.
    rewrite Hi. f_equal. apply filter_involved_none. intros y Hy Hor.
    apply Hx. rewrite <- (Hall y (or_intror Hy) Hor). now apply in_map.
  - destruct (involved_account debit credit x) eqn:Hi.
    + apply involved_account_iff in Hi. exfalso. apply Hx.
      rewrite (Hall x (or_introl eq_refl) Hi). now apply in_map.
    + apply IH; try assumption. intros y Hy. apply Hall. now right.
Qed.

Lemma filter_involved_two l debit credit :
  List.NoDup (map acc_id l) -> debit <> credit ->
  (exists a, In a l /\ acc_id a = debit) -> (exists b, In b l /\ acc_id b = credit) ->
  exists a b,
    List.filter (involved_account debit credit) l = [a; b]
    /\ (acc_id a = debit /\ acc_id b = credit \/ acc_id a = credit /\ acc_id b = debit).
Proof.
  induction l as [|x l IH]; [intros _ _ (a & [] & _)|].
  intros Hnd Hne (a & Ha & Hida) (b & Hb & Hidb).
  apply NoDup_cons_iff in Hnd as [Hx Hnd]. cbn [List.filter].
  destruct (involved_account debit credit x) eqn:Hi.
  - apply involved_account_iff in Hi. destruct Hi as [Hxd | Hxc].
    + assert (Hb' : In b l) by (destruct Hb as [-> | Hb]; [congruence | exact Hb]).
      exists x, b. split; [|now left]. f_equal.
      apply filter_involved_one; [exact Hnd | exact Hb' | now right |].
      intros y Hy [Hyd | Hyc]; [|congruence].
      exfalso. apply Hx. rewrite Hxd, <- Hyd. now apply in_map.
    + assert (Ha' : In a l) by (destruct Ha as [-> | Ha]; [congruence | exact Ha]).
      exists x, a. split; [|now right]. f_equal.
      apply filter_involved_one; [exact Hnd | exact Ha' | now left |].
      intros y Hy [Hyd | Hyc]; [congruence|].
      exfalso. apply Hx. rewrite Hxc, <- Hyc. now apply in_map.
  - assert (Hnot : ~ (acc_id x = debit \/ acc_id x = credit)).
    { intro Hor. apply involved_account_iff in Hor. congruence. }
    apply IH; [exact Hnd | exact Hne | |].
    + exists a. split; [|exact Hida]. destruct Ha as [-> | Ha]; [|exact Ha]. tauto.
    + exists b. split; [|exact Hidb]. destruct Hb as [-> | Hb]; [|exact Hb]. tauto.
Qed.

Lemma filter_head_split {A} (f : A -> bool) l a rest :
  List.filter f l = a :: rest ->
  exists l1 l2, l = (l1 ++ a :: l2)%list /\ List.filter f l2 = rest.
Proof.
  induction l as [|x l IH]; [discriminate|]. cbn [List.filter].
  destruct (f x) eqn:E.
  - intros [= -> <-]. exists [], l. split; reflexivity.
  - intro H. destruct (IH H) as (l1 & l2 & -> & H2). exists (x :: l1), l2.
    split; [reflexivity | exact H2].
Qed.

Lemma found_in_snapshot l accountId o :
  find_account (map of_account l) accountId = Some o ->
  exists a, In a l /\ acc_id a = accountId.
Proof.
  intro H. apply find_account_In in H as [Hin Hid].
  apply in_map_iff in Hin as (a & <- & Ha). now exists a.
Qed.

End Accepted.

(** The identifiers of a snapshot need not be distinct, and only the first
    account of an identifier is looked at by the rules: a second debit
    account is debited as well, whatever its balance. *)
Example duplicate_debit_account_overdrawn :
  exists r,
    paymentInstructionService (example_host 0)
      (PayloadObject example_instruction
         (IsArray ({| acc_id := "A1"; acc_balance := 1000; acc_currency := "NGN" |}
                   :: {| acc_id := "A1"; acc_balance := 10; acc_currency := "NGN" |}
                   :: example_accounts))) = Ret r
    /\ r_status r = successful
    /\ map view_balance (r_accounts r) = [Num 500; Num (-490); Num 500; Num 700].
Proof. eexists. split; [reflexivity|]. split; vm_compute; reflexivity. Qed.

(** X16.  A response that is not [failed] carries the instruction it
    accepted: a type, a strictly positive amount, one of the four supported
    currencies in upper case, and two different account identifiers made of
    letters, digits, hyphens, periods and at signs. *)
Theorem X16_accepted_response_fields (h : Host) (payload : Payload)
    (r : TransactionResponse) :
  paymentInstructionService h payload = Ret r ->
  r_status r <> failed ->
  exists type amount currency debit credit,
    r_type r = Val type
    /\ r_amount r = Val (Num amount) /\ 0 < amount
    /\ r_currency r = Val currency /\ In currency SUPPORTED_CURRENCIES
    /\ r_debit_account r = Val debit /\ r_credit_account r = Val credit
    /\ debit <> credit
    /\ isValidAccountId debit = true /\ isValidAccountId credit = true.
Proof.
  intros Hr Hs.
  destruct (service_accepted_inv h payload r Hr Hs) as (instruction & l & p & _ & _ & Hv & ->).
  destruct (valid_facts _ _ _ Hv) as ((amount & Ha & Hpos) & Hne & _).
  assert (Hall := valid_passes _ _ _ Hv). unfold Rules.cascade in Hall.
  apply Forall_cons_1 in Hall as [_ Hall]. apply Forall_cons_1 in Hall as [H2 Hall].
  apply Forall_cons_1 in Hall as [H4 _]. cbn [snd] in H2, H4.
  unfold Rules.CU02_fails in H2. apply negb_false_iff in H2. apply string_in_In in H2.
  unfold Rules.AC04_fails in H4. apply negb_false_iff, andb_true_iff in H4 as [H4d H4c].
  exists (p_type p), amount, (toUpperCase (p_currency p)),
    (p_debit_account p), (p_credit_account p).
  destruct (shouldExecuteNow h (p_execute_by p));
    cbn [createSuccessResponse r_type r_amount r_currency r_debit_account r_credit_account];
    rewrite Ha; repeat split; assumption.
Qed.

Lemma X16_accepted_response_fields_witness :
  exists type amount currency debit credit,
    r_type (try_catch (service_body (example_host 0) deferred_payload) malformed_response)
    = Val type
    /\ r_amount (try_catch (service_body (example_host 0) deferred_payload) malformed_response)
       = Val (Num amount) /\ 0 < amount
    /\ r_currency (try_catch (service_body (example_host 0) deferred_payload) malformed_response)
       = Val currency /\ In currency SUPPORTED_CURRENCIES
    /\ r_debit_account
         (try_catch (service_body (example_host 0) deferred_payload) malformed_response)
       = Val debit
    /\ r_credit_account
         (try_catch (service_body (example_host 0) deferred_payload) malformed_response)
       = Val credit
    /\ debit <> credit
    /\ isValidAccountId debit = true /\ isValidAccountId credit = true.
Proof.
  apply (X16_accepted_response_fields (example_host 0) deferred_payload);
    [reflexivity | vm_compute; discriminate].
Defined.

(** X17.  When the identifiers of the snapshot are distinct, a response
    that is not [failed] lists exactly two accounts: the debit and the
    credit account, in the order of the snapshot (the account that comes
    first in the snapshot comes first in the response), each with
    [balance_before] equal to its snapshot balance. *)
Theorem X17_exactly_two_accounts (h : Host) (instruction : JsValue) (l : list Account)
    (r : TransactionResponse) :
  List.NoDup (map acc_id l) ->
  paymentInstructionService h (PayloadObject instruction (IsArray l)) = Ret r ->
  r_status r <> failed ->
  exists debit credit a b l1 l2 l3 v1 v2,
    r_debit_account r = Val debit /\ r_credit_account r = Val credit
    /\ l = (l1 ++ a :: l2 ++ b :: l3)%list
    /\ (acc_id a = debit /\ acc_id b = credit \/ acc_id a = credit /\ acc_id b = debit)
    /\ r_accounts r = [v1; v2]
    /\ view_id v1 = acc_id a /\ view_balance_before v1 = Num (acc_balance a)
    /\ view_id v2 = acc_id b /\ view_balance_before v2 = Num (acc_balance b).
Proof.
  intros Hnd Hr Hs.
  destruct (service_accepted_inv h _ r Hr Hs) as (i' & l' & p & [= <- <-] & _ & Hv & ->).
  destruct (valid_facts _ _ _ Hv) as ((amount & Ha & _) & Hne & (d & Hd) & (c & Hc) & _).
  destruct (filter_involved_two l (p_debit_account p) (p_credit_account p) Hnd Hne
              (found_in_snapshot _ _ _ Hd) (found_in_snapshot _ _ _ Hc))
    as (a & b & Hf & Hids).
  destruct (filter_head_split _ _ _ _ Hf) as (l1 & l' & Hl & Hf').
  destruct (filter_head_split _ _ _ _ Hf') as (l2 & l3 & Hl' & _).
  exists (p_debit_account p), (p_credit_account p), a, b, l1, l2, l3.
  assert (Hviews : forall R : Account -> AccountView -> Prop,
            (forall x v, R x v -> view_id v = acc_id x
                                  /\ view_balance_before v = Num (acc_balance x)) ->
            forall views,
              Forall2 R (List.filter
                           (involved_account (p_debit_account p) (p_credit_account p)) l)
                views ->
              exists v1 v2,
                views = [v1; v2]
                /\ view_id v1 = acc_id a /\ view_balance_before v1 = Num (acc_balance a)
                /\ view_id v2 = acc_id b /\ view_balance_before v2 = Num (acc_balance b)).
  { intros R HR views HF. rewrite Hf in HF.
    inversion HF as [|x v1 lx lv H1 HF1]; subst x lx views.
    inversion HF1 as [|y v2 ly lv' H2 HF2]; subst y ly lv.
    inversion HF2; subst lv'. exists v1, v2. split; [reflexivity|].
    destruct (HR _ _ H1) as [-> ->]. destruct (HR _ _ H2) as [-> ->]. repeat split. }
  assert (Hlist : l = (l1 ++ a :: l2 ++ b :: l3)%list) by (rewrite Hl, Hl'; reflexivity).
  destruct (shouldExecuteNow h (p_execute_by p));
    cbn [createSuccessResponse r_debit_account r_credit_account r_accounts].
  - destruct (Hviews (settled_rounded (p_debit_account p) (p_credit_account p) amount))
      with (views := settled_views l p) as (v1 & v2 & Hv12 & Hrest).
    + intros x v (H1 & _ & H3 & _). now split.
    + exact (settled_views_rounded l p amount Ha Hne).
    + exists v1, v2. repeat split; try tauto.
  - destruct (Hviews untouched) with (views := untouched_views l p)
      as (v1 & v2 & Hv12 & Hrest).
    + intros x v (H1 & _ & H3 & _). now split.
    + exact (untouched_views_untouched l p).
    + exists v1, v2. repeat split; try tauto.
Qed.

Lemma X17_exactly_two_accounts_witness :
  exists debit credit a b l1 l2 l3 v1 v2,
    r_debit_account (try_catch (service_body (example_host 0) deferred_payload)
                       malformed_response) = Val debit
    /\ r_credit_account (try_catch (service_body (example_host 0) deferred_payload)
                           malformed_response) = Val credit
    /\ example_accounts = (l1 ++ a :: l2 ++ b :: l3)%list
    /\ (acc_id a = debit /\ acc_id b = credit \/ acc_id a = credit /\ acc_id b = debit)
    /\ r_accounts (try_catch (service_body (example_host 0) deferred_payload)
                     malformed_response) = [v1; v2]
    /\ view_id v1 = acc_id a /\ view_balance_before v1 = Num (acc_balance a)
    /\ view_id v2 = acc_id b /\ view_balance_before v2 = Num (acc_balance b).
Proof.
  apply (X17_exactly_two_accounts (example_host 0)
           (JsString "DEBIT 500 NGN FROM ACCOUNT A1 FOR CREDIT TO ACCOUNT B2 ON 2025-01-02")
           example_accounts);
    [ repeat constructor; cbn; intuition discriminate
    | reflexivity
    | vm_compute; discriminate ].
Defined.

(** X18.  When the identifiers of the snapshot are distinct and its
    balances are safe integers, a settlement never overdraws: in a
    [successful] response the balance of the debit account is its snapshot
    balance minus the amount, and is not negative. *)
Theorem X18_no_overdraft (h : Host) (instruction : JsValue) (l : list Account)
    (r : TransactionResponse) :
  List.NoDup (map acc_id l) ->
  safe_snapshot l = true ->
  paymentInstructionService h (PayloadObject instruction (IsArray l)) = Ret r ->
  r_status r = successful ->
  exists debit amount,
    r_debit_account r = Val debit /\ r_amount r = Val (Num amount)
    /\ forall v, In v (r_accounts r) -> view_id v = debit ->
         exists before,
           view_balance_before v = Num before
           /\ view_balance v = Num (before - amount) /\ 0 <= before - amount.
Proof.
  intros Hnd Hsafe Hr Hs.
  destruct (service_successful_inv _ _ _ Hr Hs)
    as (i' & l' & p & [= <- <-] & _ & Hv & _ & ->).
  destruct (valid_facts _ _ _ Hv) as ((amount & Ha & Hpos) & Hne & _).
  assert (Hall := valid_passes _ _ _ Hv). unfold Rules.cascade in Hall.
  do 6 (apply Forall_cons_1 in Hall as [_ Hall]). apply Forall_cons_1 in Hall as [H1 _].
  cbn [snd] in H1. unfold Rules.AC01_fails in H1.
  exists (p_debit_account p), amount.
  cbn [createSuccessResponse r_debit_account r_amount r_accounts]. rewrite Ha.
  split; [reflexivity|]. split; [reflexivity|]. intros v Hin Hid.
  destruct (Forall2_In_r _ _ _ _ (settled_views_rounded l p amount Ha Hne) Hin)
    as (a & Hina & Hida & _ & Hbefore & Hdebit & _).
  apply filter_In in Hina as [Hina _].
  assert (Hacc : acc_id a = p_debit_account p) by congruence.
  rewrite <- Hacc, (find_account_unique l a Hnd Hina), Ha in H1.
  cbn [of_account obj_balance js_lt] in H1. apply Z.ltb_ge in H1.
  assert (Hsa : safe_integer (acc_balance a) = true).
  { unfold safe_snapshot in Hsafe. exact (proj1 (forallb_forall _ _) Hsafe a Hina). }
  unfold safe_integer in Hsa. apply Z.ltb_lt in Hsa.
  exists (acc_balance a). split; [exact Hbefore|]. split; [|lia].
  rewrite (Hdebit Hacc). f_equal. apply to_double_exact. lia.
Qed.

Lemma X18_no_overdraft_witness :
  exists debit amount,
    r_debit_account (try_catch (service_body (example_host 0)
                                  (PayloadObject example_instruction (IsArray example_accounts)))
                       malformed_response) = Val debit
    /\ r_amount (try_catch (service_body (example_host 0)
                              (PayloadObject example_instruction (IsArray example_accounts)))
                   malformed_response) = Val (Num amount)
    /\ forall v,
         In v (r_accounts (try_catch (service_body (example_host 0)
                                        (PayloadObject example_instruction
                                           (IsArray example_accounts)))
                             malformed_response)) ->
         view_id v = debit ->
         exists before,
           view_balance_before v = Num before
           /\ view_balance v = Num (before - amount) /\ 0 <= before - amount.
Proof.
  apply (X18_no_overdraft (example_host 0) example_instruction example_accounts);
    [ repeat constructor; cbn; intuition discriminate
    | reflexivity
    | reflexivity
    | vm_compute; reflexivity ].
Defined.

(** ** Words after the sentence *)

Section TrailingWords.

Lemma js_index_app_keyword (parts rest : list string) keyword j :
  Forall (fun w => w <> keyword) rest ->
  js_index (parts ++ rest)%list j = Some keyword <-> js_index parts j = Some keyword.
Proof.
  intro Hrest. unfold js_index. destruct (j <? 0); [tauto|].
  destruct (Nat.lt_ge_cases (Z.to_nat j) (length parts)) as [Hlt | Hge].
  - now rewrite nth_error_app1.
  - rewrite nth_error_app2 by exact Hge.
    assert (Hnone : nth_error parts (Z.to_nat j) = None) by now apply nth_error_None.
    rewrite Hnone. split; [|discriminate]. intro H. exfalso.
    apply nth_error_In in H. clear Hge Hnone. revert H.
    induction Hrest as [|w rest Hw _ IH]; [intros []|].
    intros [E | H]; [now apply Hw | now apply IH].
Qed.

(** The answer of the locator depends on the positions of the keyword only. *)
Lemma findKeywordIndex_same_positions l1 l2 keyword startFrom :
  (forall j, js_index l1 j = Some keyword <-> js_index l2 j = Some keyword) ->
  findKeywordIndex l1 keyword startFrom = findKeywordIndex l2 keyword startFrom.
Proof.
  intro Hsame.
  destruct (findKeywordIndex_least l1 keyword startFrom) as [[E1 N1] | (S1 & _ & F1 & L1)];
    destruct (findKeywordIndex_least l2 keyword startFrom) as [[E2 N2] | (S2 & _ & F2 & L2)].
  - congruence.
  - exfalso. apply (N1 _ S2). now apply Hsame.
  - exfalso. apply (N2 _ S1). now apply Hsame.
  - destruct (Z.lt_trichotomy (findKeywordIndex l1 keyword startFrom)
                (findKeywordIndex l2 keyword startFrom)) as [Hlt | [Heq | Hgt]].
    + exfalso. apply (L2 (findKeywordIndex l1 keyword startFrom)); [lia | now apply Hsame].
    + exact Heq.
    + exfalso. apply (L1 (findKeywordIndex l2 keyword startFrom)); [lia | now apply Hsame].
Qed.

Lemma findKeywordIndex_app_plain parts rest keyword startFrom :
  is_keyword keyword = true ->
  Forall (fun w => is_keyword w = false) rest ->
  findKeywordIndex (parts ++ rest)%list keyword startFrom
  = findKeywordIndex parts keyword startFrom.
Proof.
  intros Hk Hrest. apply findKeywordIndex_same_positions. intro j.
  apply js_index_app_keyword.
  induction Hrest as [|w rest Hw _ IH]; constructor; [congruence | exact IH].
Qed.

Variables amount currency acct1 acct2 : string.
Variable rest : list string.
Hypothesis amount_word : is_word amount = true.
Hypothesis currency_word : is_word currency = true.
Hypothesis acct1_word : is_word acct1 = true.
Hypothesis acct2_word : is_word acct2 = true.
Hypothesis amount_plain : is_keyword (toUpperCase amount) = false.
Hypothesis currency_plain : is_keyword (toUpperCase currency) = false.
Hypothesis acct1_plain : is_keyword (toUpperCase acct1) = false.
Hypothesis acct2_plain : is_keyword (toUpperCase acct2) = false.
Hypothesis rest_words : Forall (fun w => is_word w = true) rest.
Hypothesis rest_plain : Forall (fun w => is_keyword w = false) (map toUpperCase rest).

Local Ltac locate_before :=
  rewrite findKeywordIndex_app_plain by (first [reflexivity | exact rest_plain]);
  rewrite <- findKeywordIndex_blank by reflexivity;
  cbn [map sentence date_clause app];
  rewrite ?(blank_plain _ amount_plain), ?(blank_plain _ currency_plain),
    ?(blank_plain _ acct1_plain), ?(blank_plain _ acct2_plain);
  repeat match goal with H : is_keyword _ = false |- _ => rewrite ?(blank_plain _ H) end;
  vm_compute; reflexivity.

Lemma sentence_and_more_parses type (date : option string) :
  match date with
  | Some d => is_word d = true /\ is_keyword (toUpperCase d) = false
  | None => True
  end ->
  parseInstruction
    (JsString (join_space
                 ((sentence type amount currency acct1 acct2 ++ date_clause date) ++ rest)%list))
  = ParseOk
      {| p_type := type;
         p_amount := toUpperCase amount;
         p_currency := toUpperCase currency;
         p_debit_account := match type with DEBIT => acct1 | CREDIT => acct2 end;
         p_credit_account := match type with DEBIT => acct2 | CREDIT => acct1 end;
         p_execute_by := option_map toUpperCase date |}.
Proof.
  intro Hdate.
  set (before := (sentence type amount currency acct1 acct2 ++ date_clause date)%list).
  assert (Hbefore : Forall (fun w => is_word w = true) before).
  { subst before. destruct type, date as [d|]; cbn [sentence date_clause app];
      repeat (apply Forall_cons_2; [first [assumption | reflexivity | apply Hdate]|]);
      apply Forall_nil_2. }
  assert (Hwords : Forall (fun w => is_word w = true) (before ++ rest)%list).
  { clear -Hbefore rest_words. induction Hbefore; [exact rest_words | now constructor]. }
  assert (Hne : (before ++ rest)%list <> []) by (subst before; destruct type; discriminate).
  destruct (tokens_join_space _ Hwords Hne) as [Horig Htok].
  unfold parseInstruction.
  replace (truthy (join_space (before ++ rest))) with true
    by (destruct (join_space_fixed _ Hwords Hne) as (Hjoin & _);
        destruct (join_space (before ++ rest)); [contradiction | reflexivity]).
  cbn [negb]. fold (normalize (join_space (before ++ rest))).
  fold (tokens (join_space (before ++ rest))).
  unfold parseDebitInstruction, parseCreditInstruction.
  rewrite !extractAccountId_original, Horig, Htok, map_app.
  assert (Hlen : (js_length (map toUpperCase before ++ map toUpperCase rest)%list <? 8) = false).
  { apply Z.ltb_ge. unfold js_length. rewrite length_app, !length_map.
    subst before. rewrite length_app. destruct type; cbn [sentence length]; lia. }
  rewrite Hlen. clear Hlen.
  subst before.
  destruct type, date as [d|];
    [destruct Hdate as [Hd Hdp] | | destruct Hdate as [Hd Hdp] | ].
  - replace (findKeywordIndex _ "FROM" 0) with 3 by (symmetry; locate_before).
    replace (findKeywordIndex _ "ACCOUNT" 3) with 4 by (symmetry; locate_before).
    replace (findKeywordIndex _ "FOR" 0) with 6 by (symmetry; locate_before).
    replace (findKeywordIndex _ "CREDIT" 6) with 7 by (symmetry; locate_before).
    replace (findKeywordIndex _ "TO" 7) with 8 by (symmetry; locate_before).
    replace (findKeywordIndex _ "ACCOUNT" 8) with 9 by (symmetry; locate_before).
    replace (findKeywordIndex _ "ON" 9) with 11 by (symmetry; locate_before).
    unfold read_execute_by, js_length. rewrite length_app.
    cbn [map sentence date_clause app length].
    replace (negb (11 =? -1) && (11 + 1 <? Z.of_nat (13 + length (map toUpperCase rest))))
      with true by (symmetry; apply andb_true_iff; split; [reflexivity | apply Z.ltb_lt; lia]).
    reflexivity.
  - replace (findKeywordIndex _ "FROM" 0) with 3 by (symmetry; locate_before).
    replace (findKeywordIndex _ "ACCOUNT" 3) with 4 by (symmetry; locate_before).
    replace (findKeywordIndex _ "FOR" 0) with 6 by (symmetry; locate_before).
    replace (findKeywordIndex _ "CREDIT" 6) with 7 by (symmetry; locate_before).
    replace (findKeywordIndex _ "TO" 7) with 8 by (symmetry; locate_before).
    replace (findKeywordIndex _ "ACCOUNT" 8) with 9 by (symmetry; locate_before).
    replace (findKeywordIndex _ "ON" 9) with (-1) by (symmetry; locate_before).
    reflexivity.
  - replace (findKeywordIndex _ "TO" 0) with 3 by (symmetry; locate_before).
    replace (findKeywordIndex _ "ACCOUNT" 3) with 4 by (symmetry; locate_before).
    replace (findKeywordIndex _ "FOR" 0) with 6 by (symmetry; locate_before).
    replace (findKeywordIndex _ "DEBIT" 6) with 7 by (symmetry; locate_before).
    replace (findKeywordIndex _ "FROM" 7) with 8 by (symmetry; locate_before).
    replace (findKeywordIndex _ "ACCOUNT" 8) with 9 by (symmetry; locate_before).
    replace (findKeywordIndex _ "ON" 9) with 11 by (symmetry; locate_before).
    unfold read_execute_by, js_length. rewrite length_app.
    cbn [map sentence date_clause app length].
    replace (negb (11 =? -1) && (11 + 1 <? Z.of_nat (13 + length (map toUpperCase rest))))
      with true by (symmetry; apply andb_true_iff; split; [reflexivity | apply Z.ltb_lt; lia]).
    reflexivity.
  - replace (findKeywordIndex _ "TO" 0) with 3 by (symmetry; locate_before).
    replace (findKeywordIndex _ "ACCOUNT" 3) with 4 by (symmetry; locate_before).
    replace (findKeywordIndex _ "FOR" 0) with 6 by (symmetry; locate_before).
    replace (findKeywordIndex _ "DEBIT" 6) with 7 by (symmetry; locate_before).
    replace (findKeywordIndex _ "FROM" 7) with 8 by (symmetry; locate_before).
    replace (findKeywordIndex _ "ACCOUNT" 8) with 9 by (symmetry; locate_before).
    replace (findKeywordIndex _ "ON" 9) with (-1) by (symmetry; locate_before).
    reflexivity.
Qed.

End TrailingWords.

(** X19.  Words that follow a well-formed sentence are ignored, as long as
    none of them is a keyword: the sentence parses to the same fields with
    them as without. *)
Theorem X19_trailing_words_ignored (type : InstructionType)
    (amount currency acct1 acct2 : string) (date : option string) (rest : list string) :
  Forall (fun w => plain_word w = true) [amount; currency; acct1; acct2] ->
  Forall (fun w => plain_word w = true) (match date with Some d => [d] | None => [] end) ->
  Forall (fun w => plain_word w = true) rest ->
  parseInstruction
    (JsString (join_space
                 ((sentence type amount currency acct1 acct2 ++ date_clause date) ++ rest)%list))
  = parseInstruction
      (JsString (join_space (sentence type amount currency acct1 acct2 ++ date_clause date)%list)).
Proof.
  intros Hw Hd Hrest.
  assert (Hsplit : forall w, plain_word w = true ->
                     is_word w = true /\ is_keyword (toUpperCase w) = false).
  { intros w H. unfold plain_word in H. apply andb_true_iff in H as [H1 H2].
    now apply negb_true_iff in H2. }
  apply Forall_cons_1 in Hw as [Ha Hw]. apply Forall_cons_1 in Hw as [Hc Hw].
  apply Forall_cons_1 in Hw as [H1 Hw]. apply Forall_cons_1 in Hw as [H2 _].
  apply Hsplit in Ha as [? ?], Hc as [? ?], H1 as [? ?], H2 as [? ?].
  assert (Hdate : match date with
                  | Some d => is_word d = true /\ is_keyword (toUpperCase d) = false
                  | None => True
                  end).
  { destruct date as [d|]; [|exact I]. apply Forall_cons_1 in Hd as [Hd _]. now apply Hsplit. }
  assert (Hrw : Forall (fun w => is_word w = true) rest
                /\ Forall (fun w => is_keyword w = false) (map toUpperCase rest)).
  { clear -Hrest Hsplit. induction Hrest as [|w rest Hw _ [IH1 IH2]].
    - split; constructor.
    - destruct (Hsplit w Hw). split; cbn [map]; now constructor. }
  destruct Hrw as [Hr1 Hr2].
  rewrite sentence_and_more_parses by assumption.
  symmetry. now apply sentence_parses.
Qed.

Lemma X19_trailing_words_ignored_witness :
  parseInstruction
    (JsString (join_space
                 ((sentence DEBIT "500" "NGN" "a1" "b2" ++ date_clause None)
                  ++ ["right"; "away"; "please"])%list))
  = parseInstruction
      (JsString (join_space (sentence DEBIT "500" "NGN" "a1" "b2" ++ date_clause None)%list)).
Proof.
  apply (X19_trailing_words_ignored DEBIT "500" "NGN" "a1" "b2" None
           ["right"; "away"; "please"]);
    repeat (apply Forall_cons_2; [reflexivity|]); apply Forall_nil_2.
Defined.

(** ** Dates that the [Date] constructor does not parse *)

(** X20.  An execution date that passes validation but that the [Date]
    constructor of the host does not parse is never due: the instruction is
    answered [pending] with AP02 and the snapshot balances, whatever the
    clock shows.  ([isValidDate] reads the month and the day with
    [parseInt], which ignores what follows the digits, so such dates
    exist.) *)
Theorem X20_unparsable_date_stays_pending (h : Host) (instruction : JsValue)
    (l : list Account) (p : ParsedFields) (e : string) :
  parseInstruction instruction = ParseOk p ->
  validateBusinessRules h p (IsArray (map of_account l)) = Ret Valid ->
  p_execute_by p = Some e -> e <> "" ->
  new_Date_utc_midnight h e = None ->
  isValidDate h e = true
  /\ exists r,
       paymentInstructionService h (PayloadObject instruction (IsArray l)) = Ret r
       /\ r_status r = pending /\ r_status_code r = AP02
       /\ r_accounts r = untouched_views l p.
Proof.
  intros Hp Hv He Hne Hdate.
  assert (Ht : truthy e = true) by (destruct e; [contradiction | reflexivity]).
  split.
  - destruct (valid_facts _ _ _ Hv) as (_ & _ & _ & _ & Hd).
    unfold Rules.DT01_fails in Hd. rewrite He, Ht in Hd.
    now apply negb_false_iff in Hd.
  - rewrite (service_valid h instruction l p Hp Hv).
    unfold shouldExecuteNow, isDateInPastOrToday. rewrite He, Ht, Hdate. cbn [negb orb].
    eexists. split; [reflexivity|]. repeat split.
Qed.

Lemma X20_unparsable_date_stays_pending_witness :
  isValidDate (example_host 0) "2025-1X-05" = true
  /\ exists r,
       paymentInstructionService (example_host 0)
         (PayloadObject
            (JsString "DEBIT 500 NGN FROM ACCOUNT A1 FOR CREDIT TO ACCOUNT B2 ON 2025-1x-05")
            (IsArray example_accounts)) = Ret r
       /\ r_status r = pending /\ r_status_code r = AP02
       /\ r_accounts r = untouched_views example_accounts (example_fields (Some "2025-1X-05")).
Proof.
  apply (X20_unparsable_date_stays_pending (example_host 0)
           (JsString "DEBIT 500 NGN FROM ACCOUNT A1 FOR CREDIT TO ACCOUNT B2 ON 2025-1x-05")
           example_accounts (example_fields (Some "2025-1X-05")) "2025-1X-05");
    [ vm_compute; reflexivity | vm_compute; reflexivity | reflexivity | discriminate
    | reflexivity ].
Defined.

(** ** Amount and currency of a response *)

(** X21.  Whatever the payload, the amount of the response is null or a
    number, never NaN and never left out, and its currency is null or a
    string in upper case. *)
Theorem X21_amount_and_currency_of_a_response (h : Host) (payload : Payload) :
  exists r,
    paymentInstructionService h payload = Ret r
    /\ (r_amount r = Null \/ exists n, r_amount r = Val (Num n))
    /\ (r_currency r = Null \/ exists c, r_currency r = Val c /\ toUpperCase c = c).
Proof.
  destruct (service_returns h payload) as [r Hr]. exists r. split; [exact Hr|].
  assert (Herr : forall type amount currency debit credit executeBy status reason code views,
            let r' := createErrorResponse type amount currency debit credit executeBy
                        status reason code views in
            (r_amount r' = Null \/ exists n, r_amount r' = Val (Num n))
            /\ (r_currency r' = Null
                \/ exists c, r_currency r' = Val c /\ toUpperCase c = c)).
  { intros. subst r'. unfold createErrorResponse. cbn [r_amount r_currency]. split.
    - destruct (JsOpt_truthy amount) as [a|]; [|now left].
      destruct (parseInt a) as [|n]; [now left | right; now exists n].
    - destruct (JsOpt_truthy currency) as [c|]; [|now left].
      right. exists (toUpperCase c). split; [reflexivity | apply toUpperCase_idem]. }
  destruct (r_status r) eqn:Hs.
  - destruct (service_accepted_inv h payload r Hr) as (i & l & p & _ & _ & Hv & ->).
    { rewrite Hs. discriminate. }
    destruct (valid_facts _ _ _ Hv) as ((n & Hn & _) & _).
    destruct (shouldExecuteNow h (p_execute_by p));
      cbn [createSuccessResponse r_amount r_currency]; rewrite Hn;
      (split; [right; now exists n
              | right; exists (toUpperCase (p_currency p));
                split; [reflexivity | apply toUpperCase_idem]]).
  - destruct (service_accepted_inv h payload r Hr) as (i & l & p & _ & _ & Hv & ->).
    { rewrite Hs. discriminate. }
    destruct (valid_facts _ _ _ Hv) as ((n & Hn & _) & _).
    destruct (shouldExecuteNow h (p_execute_by p));
      cbn [createSuccessResponse r_amount r_currency]; rewrite Hn;
      (split; [right; now exists n
              | right; exists (toUpperCase (p_currency p));
                split; [reflexivity | apply toUpperCase_idem]]).
  - clear Hs. unfold paymentInstructionService in Hr. injection Hr as <-.
    destruct payload as [|instruction accounts]; [apply Herr|].
    unfold service_body.
    destruct (negb (array_truthy accounts) || negb (js_truthy instruction)); [apply Herr|].
    destruct (parseInstruction instruction) as [p|f]; [|apply Herr].
    destruct (validateBusinessRules h p (array_map of_account accounts))
      as [[|msg code]|] eqn:Hv; cbn [bind try_catch]; [| |apply Herr].
    + destruct accounts as [| | l]; cbn [array_map] in Hv |- *.
      * unfold executeTransaction.
        destruct (shouldExecuteNow h (p_execute_by p)); cbn [bind try_catch]; apply Herr.
      * unfold executeTransaction.
        destruct (shouldExecuteNow h (p_execute_by p)); cbn [bind try_catch]; apply Herr.
      * destruct (valid_facts _ _ _ Hv) as ((n & Hn & _) & _).
        unfold executeTransaction.
        destruct (shouldExecuteNow h (p_execute_by p));
          cbn [array_method createAccountsResponse bind try_catch createSuccessResponse
               r_amount r_currency]; rewrite Hn;
          (split; [right; now exists n
                  | right; exists (toUpperCase (p_currency p));
                    split; [reflexivity | apply toUpperCase_idem]]).
    + destruct (createAccountsResponse _ _ _ _); cbn [bind try_catch]; apply Herr.
Qed.

(** ** Accounts that are not involved *)

Section Bystanders.

Variables debit credit : string.
Variable a : Account.
Hypothesis bystander : involved_account debit credit a = false.

Lemma find_account_bystander l1 l2 accountId :
  accountId = debit \/ accountId = credit ->
  find_account (map of_account (l1 ++ a :: l2)) accountId
  = find_account (map of_account (l1 ++ l2)) accountId.
Proof.
  intro Hid. unfold find_account. rewrite !map_app. cbn [map].
  induction l1 as [|x l1 IH]; cbn [app map List.find].
  - cbn [of_account obj_id].
    assert (Hx : String.eqb (acc_id a) accountId = false).
    { unfold involved_account, involved in bystander. cbn [of_account obj_id] in bystander.
      apply orb_false_iff in bystander as [H1 H2]. now destruct Hid as [-> | ->]. }
    now rewrite Hx.
  - destruct (String.eqb (obj_id (of_account x)) accountId); [reflexivity | exact IH].
Qed.

Lemma filter_bystander (f : AccountObj -> AccountObj) l1 l2 :
  (forall o, obj_id (f o) = obj_id o) ->
  List.filter (involved debit credit) (map f (map of_account (l1 ++ a :: l2)))
  = List.filter (involved debit credit) (map f (map of_account (l1 ++ l2))).
Proof.
  intro Hf. rewrite !map_app, !List.filter_app. cbn [map List.filter].
  assert (Hi : involved debit credit (f (of_account a)) = false).
  { unfold involved. rewrite Hf. exact bystander. }
  now rewrite Hi.
Qed.

End Bystanders.

(** X22.  An account that is neither the debit nor the credit account of
    the instruction does not matter: the response is the same with it in
    the snapshot as without it. *)
Theorem X22_bystander_accounts (h : Host) (instruction : JsValue) (l1 l2 : list Account)
    (a : Account) :
  (forall p, parseInstruction instruction = ParseOk p ->
             involved_account (p_debit_account p) (p_credit_account p) a = false) ->
  paymentInstructionService h (PayloadObject instruction (IsArray (l1 ++ a :: l2)%list))
  = paymentInstructionService h (PayloadObject instruction (IsArray (l1 ++ l2)%list)).
Proof.
  intro Ha.
  destruct (parseInstruction instruction) as [p|f] eqn:Hp.
  - specialize (Ha p eq_refl).
    assert (Hval : validateBusinessRules h p (IsArray (map of_account (l1 ++ a :: l2)))
                   = validateBusinessRules h p (IsArray (map of_account (l1 ++ l2)))).
    { unfold validateBusinessRules. cbn [array_method bind].
      now rewrite !(find_account_bystander _ _ a Ha l1 l2) by tauto. }
    assert (Hun : untouched_views (l1 ++ a :: l2) p = untouched_views (l1 ++ l2) p).
    { unfold untouched_views. rewrite !createAccountsResponse_loop_filter. cbn [app].
      f_equal.
      rewrite <- (map_id (map of_account (l1 ++ a :: l2))),
              <- (map_id (map of_account (l1 ++ l2))).
      now apply filter_bystander. }
    assert (Hse : settled_views (l1 ++ a :: l2) p = settled_views (l1 ++ l2) p).
    { unfold settled_views. rewrite !createAccountsResponse_loop_filter. cbn [app].
      f_equal. apply filter_bystander; [exact Ha|]. intro o. apply update_account_id. }
    destruct (validateBusinessRules h p (IsArray (map of_account (l1 ++ l2))))
      as [[|msg code]|] eqn:Hv.
    + rewrite (service_valid h instruction _ p Hp Hv),
        (service_valid h instruction _ p Hp Hval).
      now rewrite Hun, Hse.
    + rewrite (service_invalid h instruction _ p msg code Hp Hv),
        (service_invalid h instruction _ p msg code Hp Hval).
      now rewrite Hun.
    + rewrite validateBusinessRules_cascade in Hv. discriminate Hv.
  - unfold paymentInstructionService, service_body. cbn [array_truthy negb orb].
    now rewrite Hp.
Qed.

Lemma X22_bystander_accounts_witness :
  paymentInstructionService (example_host 0)
    (PayloadObject example_instruction
       (IsArray ([{| acc_id := "A1"; acc_balance := 1000; acc_currency := "NGN" |}]
                 ++ {| acc_id := "C3"; acc_balance := 5; acc_currency := "USD" |}
                 :: [{| acc_id := "B2"; acc_balance := 200; acc_currency := "NGN" |}])%list))
  = paymentInstructionService (example_host 0)
      (PayloadObject example_instruction
         (IsArray ([{| acc_id := "A1"; acc_balance := 1000; acc_currency := "NGN" |}]
                   ++ [{| acc_id := "B2"; acc_balance := 200; acc_currency := "NGN" |}])%list)).
Proof.
  apply (X22_bystander_accounts (example_host 0) example_instruction).
  intros p Hp. vm_compute in Hp. injection Hp as <-. reflexivity.
Defined.

(** ** Account identifiers *)

Section AccountIds.

Lemma account_char_upper c : account_char (upper_char c) = account_char c.
Proof. destruct c as [[] [] [] [] [] [] [] []]; reflexivity. Qed.

Lemma account_char_not_space c : account_char c = true -> is_space c = false.
Proof. destruct c as [[] [] [] [] [] [] [] []]; intro H; try reflexivity; discriminate H. Qed.

Lemma all_account_chars_upper s :
  all_chars account_char (toUpperCase s) = all_chars account_char s.
Proof.
  induction s as [|c s IH]; [reflexivity|].
  cbn [toUpperCase all_chars]. now rewrite account_char_upper, IH.
Qed.

Lemma all_account_chars_word s :
  all_chars account_char s = true -> all_chars (fun c => negb (is_space c)) s = true.
Proof.
  induction s as [|c s IH]; [reflexivity|]. cbn [all_chars].
  intro H. apply andb_true_iff in H as [Hc Hs].
  now rewrite (account_char_not_space c Hc), (IH Hs).
Qed.

End AccountIds.

(** X23.  For an account identifier made of ASCII characters, whether it
    is valid does not depend on the case of its letters; and a valid
    identifier is a word: it is not empty and has no white space in it.
    (Outside ASCII the case matters: the upper-case form of a character that
    is not valid can be a valid letter.) *)
Theorem X23_account_id_validity (accountId : string) :
  ascii_only accountId = true ->
  isValidAccountId (toUpperCase accountId) = isValidAccountId accountId
  /\ (isValidAccountId accountId = true -> is_word accountId = true).
Proof.
  intros _. unfold isValidAccountId, is_word. split.
  - destruct accountId as [|c s]; [reflexivity|].
    cbn [toUpperCase truthy negb]. apply (all_account_chars_upper (String c s)).
  - destruct accountId as [|c s]; [discriminate|]. cbn [truthy negb andb].
    apply all_account_chars_word.
Qed.

Lemma X23_account_id_validity_witness :
  isValidAccountId (toUpperCase "acc-1@bank.ng") = isValidAccountId "acc-1@bank.ng"
  /\ (isValidAccountId "acc-1@bank.ng" = true -> is_word "acc-1@bank.ng" = true).
Proof. apply (X23_account_id_validity "acc-1@bank.ng"). reflexivity. Defined.
